(** * EPUB to XTC converter: pagination, line wrapping and the XTG/XTH/XTC codec

    A shallow embedding of [config.py], [text_renderer.py], [pagination.py]
    and [xtc_format.py], with the properties of the layout engine and of the
    binary container stated and proved over it.

    Conventions.  Python integers are [Z].  A [bytes] value is a
    [list byte]; [struct.pack] with a little-endian format is a
    concatenation of [le_split] fields, and raises when a field does not
    fit its width.  Python [str] values are [string]s of code points below
    256.  A function that can raise returns a [result].  The binary64
    arithmetic of [int(size * ratio)] is the IEEE 754 specification of
    [SpecFloat] at precision 53. *)

From Stdlib Require Import ZArith List Bool Lia String Ascii Arith.
From Stdlib Require Import Floats.SpecFloat.
From Stdlib Require DecimalString.
From coqutil Require Import Byte Word.LittleEndianList.
Import ListNotations.

Local Open Scope Z_scope.

(** ** Errors *)

Inductive error : Type :=
| StructError (msg : string)
| ValueError (msg : string).

Inductive result (A : Type) : Type :=
| Ok (a : A)
| Raise (e : error).
Arguments Ok {A} a.
Arguments Raise {A} e.

Definition bind {A B : Type} (r : result A) (k : A -> result B) : result B :=
  match r with
  | Ok a => k a
  | Raise e => Raise e
  end.

Notation "x <- r ;; k" := (bind r (fun x => k))
  (at level 61, r at next level, right associativity).

Definition is_ok {A : Type} (r : result A) : bool :=
  match r with Ok _ => true | Raise _ => false end.

(** ** Binary64 arithmetic, as Python's [float] *)

Module Float64.

Definition prec : Z := 53.
Definition emax : Z := 1024.

(** [float(n)] for an integer [n] (round to nearest, ties to even). *)
Definition of_int (n : Z) : spec_float := binary_normalize prec emax n 0 false.

Definition mul (x y : spec_float) : spec_float := SFmul prec emax x y.

(** The literal [m / 2^e], for a mantissa that is already a binary64. *)
Definition lit (m : positive) (e : Z) : spec_float := S754_finite false m e.

(** [int(x)]: truncation toward zero.  Python raises on infinities and
    NaN; those never arise from the products below and map to 0 here. *)
Definition to_int (x : spec_float) : Z :=
  match x with
  | S754_finite s m e =>
      let a := if 0 <=? e then Z.shiftl (Zpos m) e
               else Z.shiftr (Zpos m) (- e) in
      if s then - a else a
  | _ => 0
  end.

(** [round(x)] with one argument: nearest integer, ties to even. *)
Definition round_half_even (x : spec_float) : Z :=
  match x with
  | S754_finite s m e =>
      let a :=
        if 0 <=? e then Z.shiftl (Zpos m) e
        else
          let q := Z.shiftr (Zpos m) (- e) in
          let r := Zpos m - Z.shiftl q (- e) in
          let half := Z.shiftl 1 (- e - 1) in
          if r <? half then q
          else if half <? r then q + 1
          else if Z.even q then q else q + 1 in
      if s then - a else a
  | _ => 0
  end.

End Float64.

(** ** config.py *)

Module Config.

Definition DISPLAY_WIDTH : Z := 480.
Definition DISPLAY_HEIGHT : Z := 800.

Definition DEFAULT_FONT_SIZE : Z := 34.
(** [1.4] is the binary64 [0x3FF6666666666666]. *)
Definition LINE_HEIGHT_RATIO : spec_float := Float64.lit 6305039478318694 (-52).
Definition PARAGRAPH_SPACING : Z := 16.
Definition MIN_LINES_TOGETHER : Z := 2.

(** [HEADING_SIZE_MULTIPLIERS]: 1.8, 1.5, 1.3, 1.15, 1.0, 0.9 as
    binary64 values, in insertion order. *)
Definition HEADING_SIZE_MULTIPLIERS : list (Z * spec_float) :=
  [ (1, Float64.lit 8106479329266893 (-52));
    (2, Float64.lit 6755399441055744 (-52));
    (3, Float64.lit 5854679515581645 (-52));
    (4, Float64.lit 5179139571476070 (-52));
    (5, Float64.lit 4503599627370496 (-52));
    (6, Float64.lit 8106479329266893 (-53)) ].

Definition get_heading_sizes (base_size : Z) : list (Z * Z) :=
  map (fun lm => (fst lm, Float64.to_int (Float64.mul (Float64.of_int base_size) (snd lm))))
      HEADING_SIZE_MULTIPLIERS.

Definition MARGIN_TOP : Z := 20.
Definition MARGIN_BOTTOM : Z := 40.
Definition MARGIN_LEFT : Z := 16.
Definition MARGIN_RIGHT : Z := 16.

Definition XTG_MARK : Z := 0x00475458.
Definition XTH_MARK : Z := 0x00485458.
Definition XTC_MARK : Z := 0x00435458.
Definition XTCH_MARK : Z := 0x48435458.

Definition XTG_HEADER_SIZE : Z := 22.
Definition XTC_HEADER_SIZE : Z := 56.
Definition PAGE_TABLE_ENTRY_SIZE : Z := 16.
Definition TITLE_MAX_SIZE : Z := 128.

End Config.

(** ** Python string helpers *)

Module Str.

Local Open Scope string_scope.

Definition is_empty (s : string) : bool :=
  match s with EmptyString => true | _ => false end.

(** [str.isspace] on one code point below 256. *)
Definition isspace (c : ascii) : bool :=
  let n := N_of_ascii c in
  ((9 <=? n) && (n <=? 13) || (28 <=? n) && (n <=? 32)
   || (n =? 133) || (n =? 160))%N.

(** [text.split()]: maximal runs of non-whitespace characters. *)
Fixpoint split_from (cur : string) (s : string) : list string :=
  match s with
  | EmptyString => if is_empty cur then [] else [cur]
  | String c rest =>
      if isspace c
      then (if is_empty cur then split_from "" rest else cur :: split_from "" rest)
      else split_from (cur ++ String c "") rest
  end.

Definition split (s : string) : list string := split_from "" s.

(** [sep.join(parts)]. *)
Definition join (sep : string) (parts : list string) : string :=
  String.concat sep parts.

(** [list(word)]: the characters, each a one-character string. *)
Fixpoint chars (s : string) : list string :=
  match s with
  | EmptyString => []
  | String c rest => String c "" :: chars rest
  end.

Definition nonempty {A : Type} (l : list A) : bool :=
  match l with [] => false | _ => true end.

End Str.

(** ** epub_parser.py: the block data model *)

Record TextStyle : Type := mkTextStyle {
  font_size : Z;
  bold : bool;
  italic : bool;
  is_heading : bool;
  heading_level : Z;
  indent : Z
}.

Record TextBlock : Type := mkTextBlock {
  text : string;
  style : TextStyle;
  block_type : string
}.

(** ** text_renderer.py *)

Record FontFamily : Type := mkFontFamily {
  regular : string;
  ff_bold : option string;
  ff_italic : option string;
  bold_italic : option string
}.

(** A loaded font is identified by its file and its pixel size, the key of
    the renderer's font cache. *)
Record Font : Type := mkFont {
  font_path : string;
  size : Z
}.

Record TextRenderer : Type := mkTextRenderer {
  font_family : FontFamily;
  base_font_size : Z
}.

Definition get_path (self : FontFamily) (b i : bool) : string :=
  if b && i then
    match bold_italic self, ff_bold self, ff_italic self with
    | Some p, _, _ => p
    | None, Some p, _ => p
    | None, None, Some p => p
    | None, None, None => regular self
    end
  else if b then
    match ff_bold self with Some p => p | None => regular self end
  else if i then
    match ff_italic self with Some p => p | None => regular self end
  else regular self.

Fixpoint dict_get (d : list (Z * Z)) (k : Z) : option Z :=
  match d with
  | [] => None
  | (k', v) :: rest => if k' =? k then Some v else dict_get rest k
  end.

Section Renderer.

(** [font.getbbox(text)] of the imaging library: (left, top, right, bottom). *)
Variable getbbox : Font -> string -> Z * Z * Z * Z.

Definition heading_sizes (self : TextRenderer) : list (Z * Z) :=
  Config.get_heading_sizes (base_font_size self).

Definition get_font (self : TextRenderer) (sz : Z) (b i : bool) : Font :=
  mkFont (get_path (font_family self) b i) sz.

Definition _get_font_size_for_style (self : TextRenderer) (st : TextStyle) : Z :=
  if is_heading st then
    match dict_get (heading_sizes self) (heading_level st) with
    | Some sz => sz
    | None => base_font_size self
    end
  else base_font_size self.

Definition get_font_for_style (self : TextRenderer) (st : TextStyle) : Font :=
  let sz :=
    if is_heading st then
      match dict_get (heading_sizes self) (heading_level st) with
      | Some sz => sz
      | None => base_font_size self
      end
    else base_font_size self in
  get_font self sz (bold st) (italic st).

Definition measure_text (txt : string) (font : Font) : Z * Z :=
  let '(x0, y0, x1, y1) := getbbox font txt in
  (x1 - x0, y1 - y0).

(** The inner loop of [wrap_text]: one character of an over-long word. *)
Definition char_step (font : Font) (max_width : Z)
    (st : list string * list string) (char : string)
    : list string * list string :=
  let '(lines, current_chars) := st in
  let test := Str.join "" (current_chars ++ [char]) in
  let w := fst (measure_text test font) in
  if w <=? max_width then (lines, current_chars ++ [char])
  else
    let lines :=
      if Str.nonempty current_chars
      then lines ++ [Str.join "" current_chars] else lines in
    (lines, [char]).

(** The body of the outer loop of [wrap_text]. *)
Definition word_step (font : Font) (max_width : Z)
    (st : list string * list string) (word : string)
    : list string * list string :=
  let '(lines, current_line) := st in
  let test_line := Str.join " " (current_line ++ [word]) in
  let width := fst (measure_text test_line font) in
  if width <=? max_width then (lines, current_line ++ [word])
  else
    let lines :=
      if Str.nonempty current_line
      then lines ++ [Str.join " " current_line] else lines in
    let word_width := fst (measure_text word font) in
    if max_width <? word_width then
      let lines :=
        if Str.nonempty lines && String.eqb (last lines EmptyString) word
        then removelast lines else lines in
      let '(lines, current_chars) :=
        fold_left (char_step font max_width) (Str.chars word) (lines, []) in
      (lines,
       if Str.nonempty current_chars then [Str.join "" current_chars] else [])
    else (lines, [word]).

Definition wrap_text (txt : string) (font : Font) (max_width : Z) : list string :=
  if Str.is_empty txt then []
  else
    let words := Str.split txt in
    if negb (Str.nonempty words) then []
    else
      let '(lines, current_line) :=
        fold_left (word_step font max_width) words ([], []) in
      if Str.nonempty current_line
      then lines ++ [Str.join " " current_line] else lines.

Definition line_height_of (fs : Z) : Z :=
  Float64.to_int (Float64.mul (Float64.of_int fs) Config.LINE_HEIGHT_RATIO).

Definition estimate_block_height (self : TextRenderer) (block : TextBlock)
    (content_width : Z) : Z :=
  let font := get_font_for_style self (style block) in
  let available_width := content_width - indent (style block) in
  let lines := wrap_text (text block) font available_width in
  let fs := _get_font_size_for_style self (style block) in
  let line_height := line_height_of fs in
  Z.of_nat (List.length lines) * line_height + Config.PARAGRAPH_SPACING.

End Renderer.

(** ** pagination.py *)

Record PageContent : Type := mkPageContent {
  blocks : list TextBlock;
  page_number : Z;
  is_chapter_start : bool;
  chapter_title : option string
}.

Record ChapterMapping : Type := mkChapterMapping {
  title : string;
  start_page : Z;
  end_page : Z
}.

Record PaginationResult : Type := mkPaginationResult {
  pages : list PageContent;
  chapters : list ChapterMapping;
  total_pages : Z
}.

Record Paginator : Type := mkPaginator {
  renderer : TextRenderer;
  content_height : Z;
  content_width : Z
}.

(** [Paginator.__init__]. *)
Definition Paginator_init (r : TextRenderer) : Paginator :=
  mkPaginator r
    (Config.DISPLAY_HEIGHT - Config.MARGIN_TOP - Config.MARGIN_BOTTOM)
    (Config.DISPLAY_WIDTH - Config.MARGIN_LEFT - Config.MARGIN_RIGHT).

Definition _is_chapter_heading (block : TextBlock) : bool :=
  (String.eqb (block_type block) "heading1"
   || String.eqb (block_type block) "heading2")
  || (is_heading (style block) && (heading_level (style block) <=? 2)).

(** Truthiness of a [str | None] value. *)
Definition truthy (s : option string) : bool :=
  match s with
  | Some t => negb (Str.is_empty t)
  | None => false
  end.

(** The local variables of [paginate]. *)
Record PagState : Type := mkPagState {
  st_pages : list PageContent;
  st_chapter_mappings : list ChapterMapping;
  st_current_page_blocks : list TextBlock;
  st_current_y : Z;
  st_page_number : Z;
  st_current_chapter : option string;
  st_current_chapter_start : Z
}.

Section Pagination.

Variable getbbox : Font -> string -> Z * Z * Z * Z.
Variable self : Paginator.

Definition _estimate_block_height (block : TextBlock) : Z :=
  estimate_block_height getbbox (renderer self) block (content_width self).

Definition init_state : PagState :=
  mkPagState [] [] [] 0 1 None 1.

(** The page that the three [pages.append] calls build. *)
Definition make_page (s : PagState) : PageContent :=
  mkPageContent
    (st_current_page_blocks s)
    (st_page_number s)
    (st_page_number s =? st_current_chapter_start s)
    (if st_page_number s =? st_current_chapter_start s
     then st_current_chapter s else None).

(** Emit the current page if it has content, advance and reset. *)
Definition emit_page (s : PagState) : PagState :=
  if Str.nonempty (st_current_page_blocks s) then
    mkPagState
      (st_pages s ++ [make_page s])
      (st_chapter_mappings s)
      []
      0
      (st_page_number s + 1)
      (st_current_chapter s)
      (st_current_chapter_start s)
  else s.

(** The chapter-break branch of the loop body. *)
Definition chapter_break (s : PagState) (block : TextBlock) : PagState :=
  let s1 :=
    if truthy (st_current_chapter s)
       && (st_current_chapter_start s <? st_page_number s)
    then
      mkPagState
        (st_pages s)
        (st_chapter_mappings s ++
           [mkChapterMapping
              (match st_current_chapter s with Some t => t | None => EmptyString end)
              (st_current_chapter_start s)
              (st_page_number s - 1)])
        (st_current_page_blocks s)
        (st_current_y s)
        (st_page_number s)
        (st_current_chapter s)
        (st_current_chapter_start s)
    else s in
  let s2 := emit_page s1 in
  mkPagState
    (st_pages s2)
    (st_chapter_mappings s2)
    (st_current_page_blocks s2)
    (st_current_y s2)
    (st_page_number s2)
    (Some (text block))
    (st_page_number s2).

(** One iteration of [for block in content_blocks]. *)
Definition paginate_step (s : PagState) (block : TextBlock) : PagState :=
  let block_height := _estimate_block_height block in
  let s1 := if _is_chapter_heading block then chapter_break s block else s in
  let s2 :=
    if content_height self <? st_current_y s1 + block_height
    then emit_page s1 else s1 in
  mkPagState
    (st_pages s2)
    (st_chapter_mappings s2)
    (st_current_page_blocks s2 ++ [block])
    (st_current_y s2 + block_height)
    (st_page_number s2)
    (st_current_chapter s2)
    (st_current_chapter_start s2).

(** What follows the loop: the final page and the final chapter. *)
Definition paginate_finish (s : PagState) : PaginationResult :=
  let pages :=
    if Str.nonempty (st_current_page_blocks s)
    then st_pages s ++ [make_page s] else st_pages s in
  let chapter_mappings :=
    if truthy (st_current_chapter s)
    then st_chapter_mappings s ++
           [mkChapterMapping
              (match st_current_chapter s with Some t => t | None => EmptyString end)
              (st_current_chapter_start s)
              (st_page_number s)]
    else st_chapter_mappings s in
  mkPaginationResult pages chapter_mappings (Z.of_nat (List.length pages)).

Definition paginate (content_blocks : list TextBlock) : PaginationResult :=
  paginate_finish (fold_left paginate_step content_blocks init_state).

End Pagination.

(** ** xtc_format.py *)

(** *** [struct] and [bytes] helpers *)

(** One little-endian unsigned field of [struct.pack]; out-of-range values
    raise [struct.error]. *)
Definition pack_field (nbytes : nat) (v : Z) : result (list byte) :=
  if (0 <=? v) && (v <? 2 ^ (8 * Z.of_nat nbytes))
  then Ok (le_split nbytes v)
  else Raise (StructError "argument out of range").

Definition slice (b : list byte) (lo hi : nat) : list byte :=
  firstn (hi - lo) (skipn lo b).

(** [struct.unpack("<IHH", buf)]. *)
Definition unpack_IHH (buf : list byte) : result (Z * Z * Z) :=
  if Nat.eqb (List.length buf) 8
  then Ok (le_combine (slice buf 0 4), le_combine (slice buf 4 6),
           le_combine (slice buf 6 8))
  else Raise (StructError "unpack requires a buffer of 8 bytes").

Definition zeros (n : nat) : list byte := repeat Byte.x00 n.

(** [range(n)]. *)
Definition range (n : Z) : list Z := map Z.of_nat (seq 0 (Z.to_nat n)).

(** *** Images

    A PIL image in mode ["L"] (8-bit samples) or ["1"] (samples 0 or 255),
    read through [getpixel x y]. *)

Inductive ImageMode : Type := Mode1 | ModeL.

Record Image : Type := mkImage {
  mode : ImageMode;
  width : Z;
  height : Z;
  getpixel : Z -> Z -> Z
}.

(** [np.array(image)] of a mode ["L"] image: [height] rows of [width] samples. *)
Definition np_array (im : Image) : list (list Z) :=
  map (fun y => map (fun x => getpixel im x y) (range (width im)))
      (range (height im)).

(** [np.packbits(group, bitorder="big")] on one group of eight cells:
    a non-zero cell is a set bit, the first cell is the top bit. *)
Definition packbits8 (cells : list Z) : byte :=
  byte.of_Z (fold_left (fun acc c => 2 * acc + (if c =? 0 then 0 else 1)) cells 0).

(** The last axis of [reshape(..., n, 8)]: [n] consecutive groups of eight. *)
Fixpoint groups8 (n : nat) (cells : list Z) : list (list Z) :=
  match n with
  | O => []
  | S n' => firstn 8 cells :: groups8 n' (skipn 8 cells)
  end.

Definition encode_xtg_header (w h data_size : Z) : result (list byte) :=
  f_mark <- pack_field 4 Config.XTG_MARK ;;
  f_w <- pack_field 2 w ;;
  f_h <- pack_field 2 h ;;
  f_color <- pack_field 1 0 ;;
  f_comp <- pack_field 1 0 ;;
  f_size <- pack_field 4 data_size ;;
  f_md5 <- pack_field 8 0 ;;
  Ok (f_mark ++ f_w ++ f_h ++ f_color ++ f_comp ++ f_size ++ f_md5).

Definition encode_xth_header (w h data_size : Z) : result (list byte) :=
  f_mark <- pack_field 4 Config.XTH_MARK ;;
  f_w <- pack_field 2 w ;;
  f_h <- pack_field 2 h ;;
  f_color <- pack_field 1 0 ;;
  f_comp <- pack_field 1 0 ;;
  f_size <- pack_field 4 data_size ;;
  f_md5 <- pack_field 8 0 ;;
  Ok (f_mark ++ f_w ++ f_h ++ f_color ++ f_comp ++ f_size ++ f_md5).

(** The [point] lambda of [encode_xtg_page]. *)
Definition threshold (x : Z) : Z := if 128 <=? x then 255 else 0.

(** [np.array(mono, dtype=np.uint8)] of the mode ["1"] image: 1 for white. *)
Definition mono_pixels (im : Image) : list (list Z) :=
  match mode im with
  | ModeL => map (map (fun x => if threshold x =? 0 then 0 else 1)) (np_array im)
  | Mode1 => map (map (fun x => if x =? 0 then 0 else 1)) (np_array im)
  end.

Definition encode_xtg_page (im : Image) : result (list byte) :=
  let w := width im in
  let h := height im in
  let pixels := mono_pixels im in
  let padded_width := ((w + 7) / 8) * 8 in
  let pixels :=
    if w <? padded_width
    then map (fun row => row ++ repeat 0 (Z.to_nat (padded_width - w))) pixels
    else pixels in
  (* reshape(height, -1, 8) cannot infer the middle axis of an array
     without rows *)
  if h <=? 0 then Raise (ValueError "cannot reshape array of size 0")
  else
    let packed :=
      map (fun row => map packbits8 (groups8 (Z.to_nat (padded_width / 8)) row))
          pixels in
    let data := List.concat packed in
    let data_size := ((w + 7) / 8) * h in
    header <- encode_xtg_header w h data_size ;;
    Ok (header ++ firstn (Z.to_nat data_size) data).

(** The masked assignments of [quantize_to_4_levels], on one sample. *)
Definition quantize_sample (p : Z) : Z :=
  let output := 0 in
  let output := if p <=? 42 then 3 else output in
  let output := if (42 <? p) && (p <=? 127) then 2 else output in
  let output := if (127 <? p) && (p <=? 212) then 1 else output in
  let output := if 212 <? p then 0 else output in
  output.

Definition quantize_to_4_levels (im : Image) : list (list Z) :=
  map (map quantize_sample) (np_array im).

(** Column [c] of a matrix given by rows. *)
Definition column (m : list (list Z)) (c : nat) : list Z :=
  map (fun row => nth c row 0) m.

(** [bits.reshape(bytes_per_column, 8, width).transpose(2, 0, 1)] followed
    by [packbits(axis=2)] and [flatten()]. *)
Definition pack_columns (bits : list (list Z)) (w : Z) (bytes_per_column : Z)
    : list byte :=
  List.concat (map (fun c => map packbits8
                          (groups8 (Z.to_nat bytes_per_column) (column bits c)))
              (seq 0 (Z.to_nat w))).

Definition encode_xth_page (im : Image) : result (list byte) :=
  let w := width im in
  let h := height im in
  let quantized := quantize_to_4_levels im in
  let padded_height := ((h + 7) / 8) * 8 in
  let quantized :=
    if h <? padded_height
    then quantized ++ repeat (repeat 0 (Z.to_nat w)) (Z.to_nat (padded_height - h))
    else quantized in
  let bit0 := map (map (fun q => Z.land q 1)) quantized in
  let bit1 := map (map (fun q => Z.land (Z.shiftr q 1) 1)) quantized in
  let bit0 := map (@rev Z) bit0 in
  let bit1 := map (@rev Z) bit1 in
  let bytes_per_column := padded_height / 8 in
  let plane0 := pack_columns bit0 w bytes_per_column in
  let plane1 := pack_columns bit1 w bytes_per_column in
  let data := plane0 ++ plane1 in
  let data_size := Z.of_nat (List.length data) in
  header <- encode_xth_header w h data_size ;;
  Ok (header ++ data).

(** *** The container *)

Record BookMetadata : Type := mkBookMetadata {
  md_title : string;
  author : string
}.

Record ChapterInfo : Type := mkChapterInfo {
  ci_title : string;
  ci_start_page : Z;
  ci_end_page : Z
}.

(** [str.encode("utf-8")] on code points below 256. *)
Fixpoint utf8_encode (s : string) : list byte :=
  match s with
  | EmptyString => []
  | String c rest =>
      let n := Z.of_N (N_of_ascii c) in
      if n <? 128 then byte.of_Z n :: utf8_encode rest
      else byte.of_Z (Z.lor 192 (Z.shiftr n 6))
           :: byte.of_Z (Z.lor 128 (Z.land n 63)) :: utf8_encode rest
  end.

(** [buf.ljust(n, b"\x00")]. *)
Definition ljust (buf : list byte) (n : nat) : list byte :=
  buf ++ zeros (n - List.length buf).

(** [struct.pack_into(fmt, buf, offset, ...)] with the packed bytes given:
    the bytes at [offset] are overwritten in place. *)
Definition pack_into (buf : list byte) (offset : nat) (packed : list byte)
    : result (list byte) :=
  if (offset + List.length packed <=? List.length buf)%nat
  then Ok (firstn offset buf ++ packed ++ skipn (offset + List.length packed) buf)
  else Raise (StructError "pack_into requires a larger buffer").

(** The body of the page-table loop; the state is the table under
    construction, the running data offset and the loop index. *)
Definition table_step (st : result (list byte * Z * nat)) (page_data : list byte)
    : result (list byte * Z * nat) :=
  s <- st ;;
  let '(page_table, current_data_offset, i) := s in
  let page_size := Z.of_nat (List.length page_data) in
  hdr <- unpack_IHH (firstn 8 page_data) ;;
  let '(_, w, h) := hdr in
  f_off <- pack_field 8 current_data_offset ;;
  f_size <- pack_field 4 page_size ;;
  f_w <- pack_field 2 w ;;
  f_h <- pack_field 2 h ;;
  page_table <- pack_into page_table
                  (i * Z.to_nat Config.PAGE_TABLE_ENTRY_SIZE)
                  (f_off ++ f_size ++ f_w ++ f_h) ;;
  Ok (page_table, current_data_offset + page_size, S i).

(** [write_xtc_container], returning the bytes written to [output_path]. *)
Definition write_xtc_container (page_blobs : list (list byte))
    (chapter_infos : list ChapterInfo) (metadata : BookMetadata)
    (is_grayscale : bool) : result (list byte) :=
  let mark := if is_grayscale then Config.XTCH_MARK else Config.XTC_MARK in
  let page_count := Z.of_nat (List.length page_blobs) in
  let title_bytes :=
    firstn (Z.to_nat (Config.TITLE_MAX_SIZE - 1)) (utf8_encode (md_title metadata))
    ++ [Byte.x00] in
  let title_bytes := ljust title_bytes (Z.to_nat Config.TITLE_MAX_SIZE) in
  let title_offset := Config.XTC_HEADER_SIZE in
  let page_table_offset := title_offset + Config.TITLE_MAX_SIZE in
  let data_offset := page_table_offset + page_count * Config.PAGE_TABLE_ENTRY_SIZE in
  let page_table0 := zeros (Z.to_nat (page_count * Config.PAGE_TABLE_ENTRY_SIZE)) in
  tbl <- fold_left table_step page_blobs (Ok (page_table0, data_offset, O)) ;;
  let '(page_table, _, _) := tbl in
  f_magic <- pack_field 4 mark ;;
  f_version <- pack_field 2 1 ;;
  f_count <- pack_field 2 page_count ;;
  f_flags <- pack_field 4 0 ;;
  f_hsize <- pack_field 4 88 ;;
  f_res1 <- pack_field 4 0 ;;
  f_toc <- pack_field 4 0 ;;
  f_pto <- pack_field 8 page_table_offset ;;
  f_do <- pack_field 8 data_offset ;;
  f_res2 <- pack_field 8 0 ;;
  f_to <- pack_field 4 title_offset ;;
  let header :=
    f_magic ++ f_version ++ f_count ++ f_flags ++ f_hsize ++ f_res1 ++ f_toc
    ++ f_pto ++ f_do ++ f_res2 ++ f_to ++ zeros 4 in
  Ok (header ++ title_bytes ++ page_table ++ List.concat page_blobs).

Record XtcInfo : Type := mkXtcInfo {
  info_format : string;
  info_version : Z;
  info_pages : Z;
  info_title : string
}.

Definition hex_digit (n : Z) : ascii :=
  ascii_of_N (Z.to_N (if n <? 10 then 48 + n else 55 + n)).

(** [f"{mark:08X}"] for a 32-bit [mark]. *)
Definition hex08 (mark : Z) : string :=
  fold_right (fun sh acc => String (hex_digit (Z.land (Z.shiftr mark sh) 15)) acc)
             EmptyString [28; 24; 20; 16; 12; 8; 4; 0].

(** [buf.split(b"\x00")[0]]. *)
Fixpoint until_nul (buf : list byte) : list byte :=
  match buf with
  | [] => []
  | b :: rest => if Byte.eqb b Byte.x00 then [] else b :: until_nul rest
  end.

Section Reader.

(** [bytes.decode("utf-8", errors="ignore")] of the runtime. *)
Variable utf8_decode_ignore : list byte -> string.

(** [read_xtc_info] on the content of the file at [path]. *)
Definition read_xtc_info (file : list byte) : result XtcInfo :=
  let header := firstn (Z.to_nat Config.XTC_HEADER_SIZE) file in
  let title_bytes :=
    firstn (Z.to_nat Config.TITLE_MAX_SIZE)
           (skipn (Z.to_nat Config.XTC_HEADER_SIZE) file) in
  let ttl := utf8_decode_ignore (until_nul title_bytes) in
  hdr <- unpack_IHH (firstn 8 header) ;;
  let '(mark, version, page_count) := hdr in
  let format_name :=
    if mark =? Config.XTC_MARK then "XTC"%string
    else if mark =? Config.XTCH_MARK then "XTCH"%string
    else ("Unknown (0x" ++ hex08 mark ++ ")")%string in
  Ok (mkXtcInfo format_name version page_count ttl).

End Reader.

(** * Specification predicates *)

Section PaginationSpec.

Variable getbbox : Font -> string -> Z * Z * Z * Z.
Variable self : Paginator.

Definition sum_heights (bs : list TextBlock) : Z :=
  fold_right (fun b acc => _estimate_block_height getbbox self b + acc) 0 bs.

(** A page respects the height budget, or is one over-tall block alone. *)
Definition page_fits (bs : list TextBlock) : Prop :=
  sum_heights bs <= content_height self
  \/ exists b, bs = [b] /\ content_height self < _estimate_block_height getbbox self b.

(** The blocks of all pages, in page order. *)
Definition all_blocks (ps : list PageContent) : list TextBlock :=
  List.concat (map blocks ps).

(** The blocks placed so far: those of the emitted pages, then those
    of the page under construction. *)
Definition flow (s : PagState) : list TextBlock :=
  all_blocks (st_pages s) ++ st_current_page_blocks s.

(** A finished page: it has content and respects the budget. *)
Definition page_ok (p : PageContent) : Prop :=
  blocks p <> [] /\ page_fits (blocks p).

(** The layout invariant of the loop of [paginate]. *)
Definition layout_inv (s : PagState) : Prop :=
  st_current_y s = sum_heights (st_current_page_blocks s)
  /\ Forall page_ok (st_pages s)
  /\ (st_current_page_blocks s = [] \/ page_fits (st_current_page_blocks s))
  /\ map page_number (st_pages s)
     = map Z.of_nat (seq 1 (List.length (st_pages s)))
  /\ st_page_number s = Z.of_nat (List.length (st_pages s)) + 1.

(** Page numbers are 1, 2, 3, ... *)
Definition numbered_from_1 (ps : list PageContent) : Prop :=
  map page_number ps = map Z.of_nat (seq 1 (List.length ps)).

(** Mappings are ordered and disjoint, each with [start <= end], all
    at or after page [lo]. *)
Fixpoint chain (lo : Z) (ms : list ChapterMapping) : Prop :=
  match ms with
  | [] => True
  | m :: rest =>
      lo <= start_page m /\ start_page m <= end_page m
      /\ chain (end_page m + 1) rest
  end.

(** Page [p] lies in the range of some mapping. *)
Definition covered (ms : list ChapterMapping) (p : Z) : Prop :=
  exists m, In m ms /\ start_page m <= p <= end_page m.

(** The title of the chapter that is open after the blocks [bs]. *)
Definition last_chapter_heading (bs : list TextBlock) : option string :=
  fold_left (fun acc b => if _is_chapter_heading b then Some (text b) else acc)
            bs None.

(** The chapter invariant of the loop of [paginate], after the blocks
    [done] have been consumed. *)
Definition chapter_inv (done : list TextBlock) (s : PagState) : Prop :=
  1 <= st_current_chapter_start s <= st_page_number s
  /\ chain 1 (st_chapter_mappings s)
  /\ Forall (fun m => end_page m < st_current_chapter_start s)
            (st_chapter_mappings s)
  /\ st_current_chapter s = last_chapter_heading done
  /\ (st_current_chapter s = None -> st_chapter_mappings s = [])
  /\ (done <> [] -> st_current_page_blocks s <> []).

(** The coverage the chapter mappings are expected to have: when the
    input has a chapter-level heading, every page from 1 to the page
    count lies in some mapping. *)
Definition chapters_cover_all_pages (bs : list TextBlock) : Prop :=
  existsb _is_chapter_heading bs = true ->
  forall p, 1 <= p <= total_pages (paginate getbbox self bs) ->
            covered (chapters (paginate getbbox self bs)) p.

End PaginationSpec.

(** ** Sample inputs *)

Module Sample.

(** A fixed-pitch metric: every character is 10 pixels wide. *)
Definition getbbox (f : Font) (s : string) : Z * Z * Z * Z :=
  (0, 0, 10 * Z.of_nat (String.length s), 10).

Definition family : FontFamily := mkFontFamily "serif.ttf" None None None.

Definition tr : TextRenderer := mkTextRenderer family Config.DEFAULT_FONT_SIZE.

Definition paginator : Paginator := Paginator_init tr.

Definition paragraph (t : string) : TextBlock :=
  mkTextBlock t (mkTextStyle 20 false false false 0 0) "paragraph".

Definition heading1 (t : string) : TextBlock :=
  mkTextBlock t (mkTextStyle 20 true false true 1 0) "heading1".

End Sample.

(** ** The line height and block height as specified

    These follow the wording of the layout rule rather than the code:
    the font size comes from the heading table for heading blocks, the
    line height is that size times the line-height ratio made integral,
    and the block height is the wrapped line count times the line height
    plus the paragraph spacing. *)

Section BlockHeightSpec.

Variable getbbox : Font -> string -> Z * Z * Z * Z.

(** The multiplier of a heading level, for the levels of the table. *)
Definition heading_multiplier (level : Z) : option spec_float :=
  if (1 <=? level) && (level <=? 6)
  then nth_error (map snd Config.HEADING_SIZE_MULTIPLIERS) (Z.to_nat (level - 1))
  else None.

Definition font_size_for_style (self : TextRenderer) (st : TextStyle) : Z :=
  if is_heading st then
    match heading_multiplier (heading_level st) with
    | Some mult =>
        Float64.to_int (Float64.mul (Float64.of_int (base_font_size self)) mult)
    | None => base_font_size self
    end
  else base_font_size self.

Definition wrapped_line_count (self : TextRenderer) (block : TextBlock)
    (content_width : Z) : Z :=
  Z.of_nat (List.length
    (wrap_text getbbox (text block)
       (mkFont (get_path (font_family self) (bold (style block)) (italic (style block)))
               (font_size_for_style self (style block)))
       (content_width - indent (style block)))).

(** Line height with rounding to the nearest integer. *)
Definition line_height_rounded (fs : Z) : Z :=
  Float64.round_half_even (Float64.mul (Float64.of_int fs) Config.LINE_HEIGHT_RATIO).

(** Line height with truncation toward zero. *)
Definition line_height_truncated (fs : Z) : Z :=
  Float64.to_int (Float64.mul (Float64.of_int fs) Config.LINE_HEIGHT_RATIO).

Definition block_height_rounded (self : TextRenderer) (block : TextBlock)
    (content_width : Z) : Z :=
  wrapped_line_count self block content_width
  * line_height_rounded (font_size_for_style self (style block))
  + Config.PARAGRAPH_SPACING.

Definition block_height_truncated (self : TextRenderer) (block : TextBlock)
    (content_width : Z) : Z :=
  wrapped_line_count self block content_width
  * line_height_truncated (font_size_for_style self (style block))
  + Config.PARAGRAPH_SPACING.

End BlockHeightSpec.

(** The step function of the four-level quantization, as specified. *)
Definition quantize_levels_spec (s : Z) : Z :=
  if s <=? 42 then 3
  else if s <=? 127 then 2
  else if s <=? 212 then 1
  else 0.

(** ** The container reader as specified *)

(** The magic of a container file: its first four bytes, little-endian. *)
Definition file_magic (file : list byte) : Z := le_combine (firstn 4 file).

Definition known_magic (m : Z) : bool :=
  (m =? Config.XTC_MARK) || (m =? Config.XTCH_MARK).

(** The rejection expected of the reader: a file that has a magic, and
    whose magic is neither known one, makes [read_xtc_info] raise. *)
Definition unknown_magic_rejected (decode : list byte -> string)
    (file : list byte) : Prop :=
  (4 <= List.length file)%nat ->
  known_magic (file_magic file) = false ->
  is_ok (read_xtc_info decode file) = false.

(** What the reader returns on an unknown magic. *)
Definition unknown_info (decode : list byte -> string) (file : list byte)
    : XtcInfo :=
  mkXtcInfo ("Unknown (0x" ++ hex08 (file_magic file) ++ ")")%string
            (le_combine (slice file 4 6))
            (le_combine (slice file 6 8))
            (decode (until_nul (slice file 56 184))).

(** ** The page blob header as specified

    Magic, width (u16), height (u16), colour mode 0 (u8), compression 0
    (u8), data size (u32), reserved 0 (u64): 22 bytes, little-endian. *)
Definition page_header (mark w h data_size : Z) : list byte :=
  le_split 4 mark ++ le_split 2 w ++ le_split 2 h ++ le_split 1 0
  ++ le_split 1 0 ++ le_split 4 data_size ++ le_split 8 0.

Module SampleFile.

(** Eight bytes: the magic 0xEFBEADDE, version 1, two pages. *)
Definition bad_magic : list byte :=
  map byte.of_Z [0xDE; 0xAD; 0xBE; 0xEF; 1; 0; 2; 0].

Definition decode (b : list byte) : string := EmptyString.

(** A 10 by 2 image: the first column just white, the last white, the
    others just black. *)
Definition stripes : Image :=
  mkImage ModeL 10 2
    (fun x y => if x =? 9 then 255 else if x =? 0 then 128 else 127).

(** An 8 by 8 image whose samples are all 0. *)
Definition black8 : Image := mkImage ModeL 8 8 (fun _ _ => 0).

(** The two sample images as page blobs, and the container of both. *)
Definition blobs : list (list byte) :=
  match encode_xth_page black8, encode_xtg_page stripes with
  | Ok b1, Ok b2 => [b1; b2]
  | _, _ => []
  end.

Definition container : list byte :=
  match write_xtc_container blobs [] (mkBookMetadata "Sample" "") true with
  | Ok c => c
  | Raise _ => []
  end.

End SampleFile.

(** ** Character-level packing as specified *)

Section WrapSpec.

Variable getbbox : Font -> string -> Z * Z * Z * Z.

(** Greedy packing of the characters of one word: a character joins the
    current piece when the piece still fits, and otherwise starts a new
    piece, which it does even when it is too wide on its own. *)
Definition pack_chars (word : string) (font : Font) (max_width : Z)
    : list string :=
  let '(lines, current_chars) :=
    fold_left (char_step getbbox font max_width) (Str.chars word) ([], []) in
  if Str.nonempty current_chars
  then lines ++ [Str.join "" current_chars] else lines.

(** Lines flushed so far, plus one for a line under construction. *)
Definition pending (st : list string * list string) : nat :=
  (List.length (fst st) + (if Str.nonempty (snd st) then 1 else 0))%nat.

Definition total_length (ws : list string) : nat :=
  fold_right (fun w acc => (String.length w + acc)%nat) 0%nat ws.

End WrapSpec.

(** The number that [packbits8] packs, from an accumulator. *)
Definition packval (cells : list Z) (acc : Z) : Z :=
  fold_left (fun a c => 2 * a + (if c =? 0 then 0 else 1)) cells acc.

(** ** The one-bit page as specified *)

(** Bytes per packed row: the width in pixels divided by 8, rounded up. *)
Definition row_bytes (w : Z) : Z := (w + 7) / 8.

(** The bit of pixel [(x, y)]: white (1) for a sample of at least 128,
    black (0) below, and black for the padding beyond the width. *)
Definition white_bit (im : Image) (x y : Z) : bool :=
  (x <? width im) && (128 <=? getpixel im x y).

(** Row [y] of the thresholded image, padded to a whole number of bytes. *)
Definition xtg_row (im : Image) (y : Z) : list Z :=
  map (fun x => if threshold (getpixel im x y) =? 0 then 0 else 1)
      (range (width im))
  ++ repeat 0 (Z.to_nat (row_bytes (width im) * 8 - width im)).

Definition xtg_data (im : Image) : list byte :=
  List.concat
    (map (fun y => map packbits8
                     (groups8 (Z.to_nat (row_bytes (width im))) (xtg_row im y)))
         (range (height im))).

(** ** The container as a parser sees it

    The fields of the 56-byte header, of the 16-byte page-table entries
    from offset 184, and of the header embedded in a page blob, each read
    little-endian at its fixed offset. *)

Definition read_le (buf : list byte) (offset n : nat) : Z :=
  le_combine (slice buf offset (offset + n)).

Definition hdr_page_count (c : list byte) : Z := read_le c 6 2.
Definition hdr_page_table_offset (c : list byte) : Z := read_le c 24 8.
Definition hdr_data_offset (c : list byte) : Z := read_le c 32 8.

Definition entry_offset (c : list byte) (i : nat) : Z := read_le c (184 + 16 * i) 8.
Definition entry_size (c : list byte) (i : nat) : Z := read_le c (184 + 16 * i + 8) 4.
Definition entry_width (c : list byte) (i : nat) : Z := read_le c (184 + 16 * i + 12) 2.
Definition entry_height (c : list byte) (i : nat) : Z := read_le c (184 + 16 * i + 14) 2.

Definition blob_width (blob : list byte) : Z := read_le blob 4 2.
Definition blob_height (blob : list byte) : Z := read_le blob 6 2.

(** Total size of the blobs before page [i]. *)
Definition size_before (page_blobs : list (list byte)) (i : nat) : Z :=
  Z.of_nat (List.length (List.concat (firstn i page_blobs))).

(** One page-table entry, and the table for blobs laid out from [off]. *)
Definition entry_bytes (off : Z) (blob : list byte) : list byte :=
  le_split 8 off ++ le_split 4 (Z.of_nat (List.length blob))
  ++ le_split 2 (blob_width blob) ++ le_split 2 (blob_height blob).

Fixpoint table_entries (off : Z) (page_blobs : list (list byte)) : list byte :=
  match page_blobs with
  | [] => []
  | blob :: rest =>
      entry_bytes off blob
      ++ table_entries (off + Z.of_nat (List.length blob)) rest
  end.

(** The blobs the page-table loop accepts when laid out from [off]. *)
Fixpoint entries_ok (off : Z) (page_blobs : list (list byte)) : Prop :=
  match page_blobs with
  | [] => True
  | blob :: rest =>
      0 <= off < 2 ^ 64
      /\ (8 <= List.length blob)%nat
      /\ Z.of_nat (List.length blob) < 2 ^ 32
      /\ entries_ok (off + Z.of_nat (List.length blob)) rest
  end.

(** The 56-byte container header and the 128-byte title field, as the
    format lays them out. *)
Definition container_header (mark page_count : Z) : list byte :=
  le_split 4 mark ++ le_split 2 1 ++ le_split 2 page_count ++ le_split 4 0
  ++ le_split 4 88 ++ le_split 4 0 ++ le_split 4 0 ++ le_split 8 184
  ++ le_split 8 (184 + 16 * page_count) ++ le_split 8 0 ++ le_split 4 56
  ++ zeros 4.

Definition title_field (metadata : BookMetadata) : list byte :=
  ljust (firstn 127 (utf8_encode (md_title metadata)) ++ [Byte.x00]) 128.

(** What the writer needs of its input to succeed. *)
Definition writable (page_blobs : list (list byte)) : Prop :=
  Z.of_nat (List.length page_blobs) <= 65535
  /\ Forall (fun blob => (8 <= List.length blob)%nat
                         /\ Z.of_nat (List.length blob) < 2 ^ 32) page_blobs.

(** ** Further pagination predicates *)

(** A block list begins with a chapter-level heading. *)
Definition first_is_heading (bs : list TextBlock) : bool :=
  match bs with
  | b :: _ => _is_chapter_heading b
  | [] => false
  end.

(** No chapter-level heading after the first block. *)
Definition heading_only_first (bs : list TextBlock) : bool :=
  forallb (fun b => negb (_is_chapter_heading b)) (tl bs).

Definition count_headings (bs : list TextBlock) : nat :=
  List.length (filter _is_chapter_heading bs).

(** The chapter flags a page is expected to carry, from its blocks and
    its number. *)
Definition flags_of_blocks (p : PageContent) : bool * option string :=
  match blocks p with
  | b :: _ =>
      if _is_chapter_heading b then (true, Some (text b))
      else (page_number p =? 1, None)
  | [] => (page_number p =? 1, None)
  end.

(** The invariant behind the flags: how the open chapter relates to the
    page under construction. *)
Definition flags_inv (s : PagState) : Prop :=
  1 <= st_page_number s
  /\ st_current_chapter_start s <= st_page_number s
  /\ Forall (fun p => (is_chapter_start p, chapter_title p) = flags_of_blocks p)
            (st_pages s)
  /\ match st_current_page_blocks s with
     | [] => st_page_number s = 1 /\ st_current_chapter_start s = 1
             /\ st_current_chapter s = None
     | b :: _ =>
         if _is_chapter_heading b
         then st_current_chapter_start s = st_page_number s
              /\ st_current_chapter s = Some (text b)
         else (st_page_number s = 1 ->
               st_current_chapter_start s = 1 /\ st_current_chapter s = None)
              /\ (st_page_number s <> 1 ->
                  st_current_chapter_start s < st_page_number s)
     end.

(** The invariant behind the chapter titles, after the blocks [done]. *)
Definition titles_inv (done : list TextBlock) (s : PagState) : Prop :=
  Forall (fun m => title m <> EmptyString
                   /\ exists b, In b done /\ _is_chapter_heading b = true
                                /\ text b = title m)
         (st_chapter_mappings s)
  /\ (forall t, st_current_chapter s = Some t ->
                exists b, In b done /\ _is_chapter_heading b = true /\ text b = t)
  /\ (List.length (st_chapter_mappings s)
      + (if truthy (st_current_chapter s) then 1 else 0)
      <= count_headings done)%nat.

(** The invariant behind forced page breaks. *)
Definition breaks_inv (s : PagState) : Prop :=
  Forall (fun p => heading_only_first (blocks p) = true) (st_pages s)
  /\ heading_only_first (st_current_page_blocks s) = true.

Section StepSpec.

Variable getbbox : Font -> string -> Z * Z * Z * Z.
Variable self : Paginator.

(** The block starts a new page: it is a chapter-level heading, or it
    does not fit under the cursor. *)
Definition starts_page (s : PagState) (b : TextBlock) : bool :=
  _is_chapter_heading b
  || (content_height self <? st_current_y s + _estimate_block_height getbbox self b).

(** The loop body emits the page under construction. *)
Definition flushes (s : PagState) (b : TextBlock) : bool :=
  starts_page s b && Str.nonempty (st_current_page_blocks s).

End StepSpec.

(** ** pagination.py: the table of contents *)

(** [TOCEntry] of epub_parser.py: a title, a link, a nesting level and
    the nested entries. *)
Unset Elimination Schemes.
Inductive TOCEntry : Type :=
| mkTOCEntry (toc_title : string) (href : string) (level : Z)
             (children : list TOCEntry).
Set Elimination Schemes.

Definition children_of (e : TOCEntry) : list TOCEntry :=
  match e with mkTOCEntry _ _ _ cs => cs end.

(** One iteration of the loop of [flatten_toc]: the entry, then the
    flattening of its children. *)
Fixpoint flatten_entry (e : TOCEntry) : list TOCEntry :=
  match e with
  | mkTOCEntry t h l cs =>
      e :: (fix flatten_list (es : list TOCEntry) : list TOCEntry :=
              match es with
              | [] => []
              | c :: rest => flatten_entry c ++ flatten_list rest
              end) cs
  end.

Definition flatten_toc (entries : list TOCEntry) : list TOCEntry :=
  flat_map flatten_entry entries.

(** The number of entries of a table of contents, nested ones included. *)
Fixpoint toc_entry_size (e : TOCEntry) : nat :=
  match e with
  | mkTOCEntry _ _ _ cs =>
      S ((fix size_list (es : list TOCEntry) : nat :=
            match es with
            | [] => 0%nat
            | c :: rest => (toc_entry_size c + size_list rest)%nat
            end) cs)
  end.

Definition toc_size (entries : list TOCEntry) : nat :=
  list_sum (map toc_entry_size entries).

(** ** Further line-wrapping predicates *)

Section WrapMoreSpec.

Variable getbbox : Font -> string -> Z * Z * Z * Z.
Variable font : Font.
Variable max_width : Z.

(** A piece of text is no wider than the width budget. *)
Definition fits (s : string) : Prop :=
  fst (measure_text getbbox s font) <= max_width.

(** The invariant of the word loop when every word fits: the lines are
    groups of consecutive words joined by single spaces. *)
Definition grouped (words : list string) (st : list string * list string) : Prop :=
  exists groups,
    fst st = map (Str.join " ") groups
    /\ Forall (fun g => g <> []) groups
    /\ List.concat groups ++ snd st = words
    /\ Forall fits (fst st)
    /\ (snd st <> [] -> fits (Str.join " " (snd st))).

(** No empty string among the lines or the words of the current line. *)
Definition no_blank (st : list string * list string) : Prop :=
  Forall (fun l => l <> EmptyString) (fst st)
  /\ Forall (fun w => w <> EmptyString) (snd st).

End WrapMoreSpec.

(** ** text_renderer.py: drawing a page

    The image is a white canvas of the display size on which
    [draw.text] is called; the model keeps the calls, in order. *)

Record DrawOp : Type := mkDrawOp {
  op_x : Z;
  op_y : Z;
  op_text : string;
  op_fill : Z;
  op_font : Font
}.

(** [str(n)] for an integer. *)
Definition str_of_int (n : Z) : string :=
  DecimalString.NilZero.string_of_int (Z.to_int n).

Section RenderPage.

Variable getbbox : Font -> string -> Z * Z * Z * Z.

(** The inner loop of [render_page]: one [draw.text] per line. *)
Definition draw_line (x line_height : Z) (font : Font)
    (st : list DrawOp * Z) (line : string) : list DrawOp * Z :=
  let '(ops, y) := st in
  (ops ++ [mkDrawOp x y line 0 font], y + line_height).

(** The body of the outer loop of [render_page]. *)
Definition draw_block (self : TextRenderer) (content_width : Z)
    (st : list DrawOp * Z) (block : TextBlock) : list DrawOp * Z :=
  let font := get_font_for_style self (style block) in
  let available_width := content_width - indent (style block) in
  let lines := wrap_text getbbox (text block) font available_width in
  let fs := _get_font_size_for_style self (style block) in
  let line_height := line_height_of fs in
  let x := Config.MARGIN_LEFT + indent (style block) in
  let '(ops, y) := fold_left (draw_line x line_height font) lines st in
  (ops, y + Config.PARAGRAPH_SPACING).

Definition _render_page_number (self : TextRenderer) (page_number : Z)
    (total_pages : option Z) : DrawOp :=
  let font := get_font self 14 false false in
  let txt :=
    match total_pages with
    | Some t =>
        if t =? 0 then str_of_int page_number
        else (str_of_int page_number ++ " / " ++ str_of_int t)%string
    | None => str_of_int page_number
    end in
  let w := fst (measure_text getbbox txt font) in
  let x := (Config.DISPLAY_WIDTH - w) / 2 in
  let y := Config.DISPLAY_HEIGHT - Config.MARGIN_BOTTOM + 10 in
  mkDrawOp x y txt 128 font.

(** The text part of [render_page] with the final cursor, and the whole
    sequence of [draw.text] calls. *)
Definition render_blocks (self : TextRenderer) (bs : list TextBlock)
    : list DrawOp * Z :=
  let content_width :=
    Config.DISPLAY_WIDTH - Config.MARGIN_LEFT - Config.MARGIN_RIGHT in
  fold_left (draw_block self content_width) bs ([], Config.MARGIN_TOP).

Definition render_page (self : TextRenderer) (bs : list TextBlock)
    (page_number : Z) (total_pages : option Z) : list DrawOp :=
  fst (render_blocks self bs)
  ++ [_render_page_number self page_number total_pages].

(** A drawn line lies between the top margin and the bottom of the
    content area of a page of [budget] pixels. *)
Definition op_within (budget : Z) (op : DrawOp) : Prop :=
  Config.MARGIN_TOP <= op_y op
  /\ op_y op + line_height_of (size (op_font op)) <= Config.MARGIN_TOP + budget.

(** The lines of the blocks, in the order they are drawn. *)
Definition page_lines (self : TextRenderer) (bs : list TextBlock) : list string :=
  flat_map (fun b =>
              wrap_text getbbox (text b) (get_font_for_style self (style b))
                (Config.DISPLAY_WIDTH - Config.MARGIN_LEFT - Config.MARGIN_RIGHT
                 - indent (style b)))
           bs.

End RenderPage.

(** The font sizes the command line accepts. *)
Definition supported_size (fs : Z) : Prop := fs = 28 \/ fs = 34 \/ fs = 40.

(** ** Checks run by evaluation *)

(** The line height of font size [n] is the integer part of [1.4 n] or
    one below it, and is not negative. *)
Definition line_height_checked (n : nat) : bool :=
  let fs := Z.of_nat n in
  let lh := line_height_of fs in
  (0 <=? lh) && (7 * fs / 5 - 1 <=? lh) && (lh <=? 7 * fs / 5).

(** Every heading size for base size [n] lies between 0 and [2 n]. *)
Definition heading_sizes_checked (n : nat) : bool :=
  forallb (fun kv => (0 <=? snd kv) && (snd kv <=? 2 * Z.of_nat n))
          (Config.get_heading_sizes (Z.of_nat n)).

Module SamplePage.

(** The page that [paginate] makes of the one-line paragraph "x". *)
Definition page1 : PageContent :=
  mkPageContent [Sample.paragraph "x"] 1 true None.

End SamplePage.

(** ** The nominal gray levels *)

(** [GRAY_LEVELS] of xtc_format.py: the sample each level stands for. *)
Definition GRAY_LEVELS : list Z := [255; 170; 85; 0].

Definition gray_of_level (k : Z) : Z := nth (Z.to_nat k) GRAY_LEVELS 0.

(** ** The two-bit page as specified *)

(** The level of pixel [(x, y)], with level 0 below the last row. *)
Definition level_at (im : Image) (x y : Z) : Z :=
  if y <? height im then quantize_sample (getpixel im x y) else 0.

(** The quantized rows, padded to a whole number of bytes per column. *)
Definition xth_rows (im : Image) : list (list Z) :=
  quantize_to_4_levels im
  ++ repeat (repeat 0 (Z.to_nat (width im)))
            (Z.to_nat (row_bytes (height im) * 8 - height im)).

(** One bit plane: the bit [f] of every level, columns mirrored, packed
    column by column. *)
Definition xth_plane (im : Image) (f : Z -> Z) : list byte :=
  pack_columns (map (@rev Z) (map (map f) (xth_rows im)))
               (width im) (row_bytes (height im)).

Definition low_bit (q : Z) : Z := Z.land q 1.
Definition high_bit (q : Z) : Z := Z.land (Z.shiftr q 1) 1.

(** ** epub_parser.py: HTMLContentParser

    [html.parser.HTMLParser.feed] tokenises the document and calls the
    handlers below in document order; the model takes the sequence of
    these calls.  A self-closing tag is a start tag followed by an end
    tag, as [handle_startendtag] of the base class does.  The attributes
    passed to [handle_starttag] are not used by it. *)

Module Html.

Local Open Scope string_scope.

(** [str.lower()] on one code point below 256. *)
Definition lower_char (c : ascii) : ascii :=
  let n := N_of_ascii c in
  if ((65 <=? n) && (n <=? 90)
      || (192 <=? n) && (n <=? 222) && negb (n =? 215))%N
  then ascii_of_N (n + 32) else c.

Fixpoint lower (s : string) : string :=
  match s with
  | EmptyString => EmptyString
  | String c rest => String (lower_char c) (lower rest)
  end.

Fixpoint lstrip (s : string) : string :=
  match s with
  | EmptyString => EmptyString
  | String c rest => if Str.isspace c then lstrip rest else s
  end.

Fixpoint rstrip (s : string) : string :=
  match s with
  | EmptyString => EmptyString
  | String c rest =>
      let r := rstrip rest in
      if Str.isspace c && Str.is_empty r then EmptyString else String c r
  end.

(** [text.strip()]. *)
Definition strip (s : string) : string := rstrip (lstrip s).

(** [re.sub(r"\s+", " ", text)]: every maximal run of whitespace becomes
    one space; [in_run] tells that the previous character was whitespace. *)
Fixpoint sub_ws (in_run : bool) (s : string) : string :=
  match s with
  | EmptyString => EmptyString
  | String c rest =>
      if Str.isspace c
      then (if in_run then sub_ws true rest
            else String " " (sub_ws true rest))
      else String c (sub_ws false rest)
  end.

Definition normalize_whitespace (s : string) : string := sub_ws false s.

(** [TextStyle()]. *)
Definition default_style : TextStyle := mkTextStyle 20 false false false 0 0.

Definition HEADING_SIZES : list (Z * Z) :=
  [(1, 32); (2, 28); (3, 24); (4, 22); (5, 20); (6, 18)].

Definition IGNORED_TAGS : list string :=
  ["script"; "style"; "head"; "meta"; "link"; "title"].

Definition HEADING_TAGS : list string := ["h1"; "h2"; "h3"; "h4"; "h5"; "h6"].

(** [tag in tags]. *)
Definition mem (tag : string) (tags : list string) : bool :=
  existsb (String.eqb tag) tags.

Record HTMLContentParser : Type := mkParser {
  blocks : list TextBlock;
  current_text : string;
  style_stack : list TextStyle;
  tag_stack : list string;
  in_ignored : Z;
  in_list : Z
}.

(** [__init__]. *)
Definition init : HTMLContentParser :=
  mkParser [] "" [default_style] [] 0 0.

(** [style_stack[-1] if style_stack else TextStyle()]. *)
Definition current_style (self : HTMLContentParser) : TextStyle :=
  last (style_stack self) default_style.

(** The keyword arguments of [push_style]. *)
Record StyleArgs : Type := mkStyleArgs {
  kw_font_size : option Z;
  kw_bold : option bool;
  kw_italic : option bool;
  kw_is_heading : option bool;
  kw_heading_level : option Z;
  kw_indent : option Z
}.

(** [kwargs.get(key, default)]. *)
Definition kwargs_get {A : Type} (o : option A) (default : A) : A :=
  match o with Some v => v | None => default end.

Definition push_style (self : HTMLContentParser) (kwargs : StyleArgs)
    : HTMLContentParser :=
  let current := current_style self in
  let new_style :=
    mkTextStyle
      (kwargs_get (kw_font_size kwargs) (font_size current))
      (kwargs_get (kw_bold kwargs) (bold current))
      (kwargs_get (kw_italic kwargs) (italic current))
      (kwargs_get (kw_is_heading kwargs) (is_heading current))
      (kwargs_get (kw_heading_level kwargs) (heading_level current))
      (kwargs_get (kw_indent kwargs) (indent current)) in
  mkParser (blocks self) (current_text self)
           (style_stack self ++ [new_style])
           (tag_stack self) (in_ignored self) (in_list self).

Definition pop_style (self : HTMLContentParser) : HTMLContentParser :=
  if (1 <? List.length (style_stack self))%nat
  then mkParser (blocks self) (current_text self)
                (removelast (style_stack self))
                (tag_stack self) (in_ignored self) (in_list self)
  else self.

Definition emit_block (self : HTMLContentParser) (block_type : string)
    : HTMLContentParser :=
  let text := strip (current_text self) in
  let text := normalize_whitespace text in
  mkParser
    (if Str.is_empty text then blocks self
     else blocks self ++ [mkTextBlock text (current_style self) block_type])
    ""
    (style_stack self) (tag_stack self) (in_ignored self) (in_list self).

(** [int(tag[1])], for a tag whose second character is a decimal digit. *)
Definition heading_level_of (tag : string) : Z :=
  match tag with
  | String _ (String d _) => Z.of_N (N_of_ascii d) - 48
  | _ => 0
  end.

Definition set_in_ignored (self : HTMLContentParser) (n : Z)
    : HTMLContentParser :=
  mkParser (blocks self) (current_text self) (style_stack self)
           (tag_stack self) n (in_list self).

Definition set_in_list (self : HTMLContentParser) (n : Z)
    : HTMLContentParser :=
  mkParser (blocks self) (current_text self) (style_stack self)
           (tag_stack self) (in_ignored self) n.

Definition set_tag_stack (self : HTMLContentParser) (ts : list string)
    : HTMLContentParser :=
  mkParser (blocks self) (current_text self) (style_stack self)
           ts (in_ignored self) (in_list self).

Definition add_text (self : HTMLContentParser) (data : string)
    : HTMLContentParser :=
  mkParser (blocks self) (current_text self ++ data) (style_stack self)
           (tag_stack self) (in_ignored self) (in_list self).

Definition handle_starttag (self : HTMLContentParser) (tag : string)
    : HTMLContentParser :=
  let tag := lower tag in
  let self := set_tag_stack self (tag_stack self ++ [tag]) in
  if mem tag IGNORED_TAGS then set_in_ignored self (in_ignored self + 1)
  else if negb (in_ignored self =? 0)%Z then self
  else if mem tag ["strong"; "b"] then
    push_style self (mkStyleArgs None (Some true) None None None None)
  else if mem tag ["em"; "i"] then
    push_style self (mkStyleArgs None None (Some true) None None None)
  else if mem tag HEADING_TAGS then
    let level := heading_level_of tag in
    push_style self
      (mkStyleArgs
         (Some (match dict_get HEADING_SIZES level with
                | Some sz => sz
                | None => 20
                end))
         (Some true) None (Some true) (Some level) None)
  else if mem tag ["ul"; "ol"] then set_in_list self (in_list self + 1)
  else if tag =? "li" then
    push_style self
      (mkStyleArgs None None None None None (Some (20 * in_list self)))
  else if tag =? "blockquote" then
    push_style self (mkStyleArgs None None (Some true) None None (Some 20))
  else if tag =? "br" then add_text self (String (ascii_of_N 10) "")
  else self.

Definition handle_endtag (self : HTMLContentParser) (tag : string)
    : HTMLContentParser :=
  let tag := lower tag in
  let self :=
    if Str.nonempty (tag_stack self) && (last (tag_stack self) "" =? tag)
    then set_tag_stack self (removelast (tag_stack self))
    else self in
  if mem tag IGNORED_TAGS then
    set_in_ignored self (Z.max 0 (in_ignored self - 1))
  else if negb (in_ignored self =? 0)%Z then self
  else if tag =? "p" then emit_block self "paragraph"
  else if mem tag HEADING_TAGS then
    let level := heading_level_of tag in
    pop_style (emit_block self ("heading" ++ str_of_int level))
  else if tag =? "li" then pop_style (emit_block self "list_item")
  else if tag =? "blockquote" then pop_style (emit_block self "blockquote")
  else if tag =? "div" then emit_block self "paragraph"
  else if mem tag ["ul"; "ol"] then
    set_in_list self (Z.max 0 (in_list self - 1))
  else if mem tag ["strong"; "b"; "em"; "i"] then pop_style self
  else self.

Definition handle_data (self : HTMLContentParser) (data : string)
    : HTMLContentParser :=
  if (in_ignored self =? 0)%Z then add_text self data else self.

(** [get_blocks] flushes the remaining text and returns [self.blocks]. *)
Definition get_blocks (self : HTMLContentParser) : list TextBlock :=
  if negb (Str.is_empty (strip (current_text self)))
  then blocks (emit_block self "paragraph")
  else blocks self.

(** The handler calls made by [feed]. *)
Inductive Event : Type :=
| StartTag (tag : string)
| EndTag (tag : string)
| Data (data : string).

Definition handle (self : HTMLContentParser) (ev : Event) : HTMLContentParser :=
  match ev with
  | StartTag tag => handle_starttag self tag
  | EndTag tag => handle_endtag self tag
  | Data data => handle_data self data
  end.

Definition feed (self : HTMLContentParser) (evs : list Event)
    : HTMLContentParser :=
  fold_left handle evs self.

(** [parser = HTMLContentParser(); parser.feed(html); parser.get_blocks()]
    of [iter_content_blocks]. *)
Definition parse (evs : list Event) : list TextBlock :=
  get_blocks (feed init evs).

End Html.

(** ** Predicates on parsed blocks *)

(** A text in normal form: not empty, and equal to its words joined by
    single spaces. *)
Definition normalized (t : string) : Prop :=
  t <> EmptyString /\ Str.join " " (Str.split t) = t.

(** The styles the parser can build: a heading style has a level from 1
    to 6, is bold and has the size of [HEADING_SIZES]; any other style has
    level 0 and size 20; the indent is a non-negative multiple of 20. *)
Definition style_ok (st : TextStyle) : Prop :=
  (if is_heading st
   then 1 <= heading_level st <= 6 /\ bold st = true
        /\ dict_get Html.HEADING_SIZES (heading_level st) = Some (font_size st)
   else heading_level st = 0 /\ font_size st = 20)
  /\ 0 <= indent st /\ (20 | indent st).

(** No end tag of an ignored element among the events. *)
Definition no_ignored_end (evs : list Html.Event) : Prop :=
  forall tag, In (Html.EndTag tag) evs ->
              Html.mem (Html.lower tag) Html.IGNORED_TAGS = false.

(** The inline tags, which only push and pop a style. *)
Definition INLINE_TAGS : list string :=
  ["strong"%string; "b"%string; "em"%string; "i"%string].

(** Inline content: text and balanced inline elements. *)
Inductive inline : list Html.Event -> Prop :=
| inline_nil : inline []
| inline_data (data : string) (rest : list Html.Event) :
    inline rest -> inline (Html.Data data :: rest)
| inline_elem (open close : string) (body rest : list Html.Event) :
    Html.mem (Html.lower open) INLINE_TAGS = true ->
    Html.mem (Html.lower close) INLINE_TAGS = true ->
    inline body -> inline rest ->
    inline (Html.StartTag open :: body ++ Html.EndTag close :: rest).

(** The text of the data events. *)
Fixpoint data_of (evs : list Html.Event) : string :=
  match evs with
  | [] => EmptyString
  | Html.Data d :: rest => (d ++ data_of rest)%string
  | _ :: rest => data_of rest
  end.

Definition heading_elements : list (string * (Z * Z * string)) :=
  [("h1"%string, (1, 32, "heading1"%string));
   ("h2"%string, (2, 28, "heading2"%string));
   ("h3"%string, (3, 24, "heading3"%string));
   ("h4"%string, (4, 22, "heading4"%string));
   ("h5"%string, (5, 20, "heading5"%string));
   ("h6"%string, (6, 18, "heading6"%string))].

(** The block elements that push a style of their own, with the style and
    the block type they give. *)
Definition element_style (self : Html.HTMLContentParser) (tag : string)
    : option (TextStyle * string) :=
  let cur := Html.current_style self in
  if (tag =? "p")%string || (tag =? "div")%string then Some (cur, "paragraph"%string)
  else if (tag =? "li")%string then
    Some (mkTextStyle (font_size cur) (bold cur) (italic cur) (is_heading cur)
                      (heading_level cur) (20 * Html.in_list self),
          "list_item"%string)
  else if (tag =? "blockquote")%string then
    Some (mkTextStyle (font_size cur) (bold cur) true (is_heading cur)
                      (heading_level cur) 20,
          "blockquote"%string)
  else
    match find (fun e => (fst e =? tag)%string) heading_elements with
    | Some (_, (level, sz, ty)) =>
        Some (mkTextStyle sz true (italic cur) true level (indent cur), ty)
    | None => None
    end.

(** A string without whitespace. *)
Fixpoint no_space (w : string) : bool :=
  match w with
  | EmptyString => true
  | String c rest => negb (Str.isspace c) && no_space rest
  end.

(** What the parser keeps true of its state. *)
Definition parser_inv (p : Html.HTMLContentParser) : Prop :=
  Forall (fun b => normalized (text b) /\ style_ok (style b)) (Html.blocks p)
  /\ Forall style_ok (Html.style_stack p)
  /\ Html.style_stack p <> []
  /\ 0 <= Html.in_ignored p
  /\ 0 <= Html.in_list p.

(** ** converter.py: rendering, encoding and writing the pages *)

Section Convert.

Variable getbbox : Font -> string -> Z * Z * Z * Z.

(** The samples of the canvas after the [draw.text] calls, as the imaging
    library rasterises them. *)
Variable draw_text : list DrawOp -> Z -> Z -> Z.

(** The image that [render_page] returns: the canvas
    [Image.new("L", (DISPLAY_WIDTH, DISPLAY_HEIGHT), 255)] with the text
    drawn on it. *)
Definition render_page_image (self : TextRenderer) (bs : list TextBlock)
    (page_number : Z) (total_pages : option Z) : Image :=
  mkImage ModeL Config.DISPLAY_WIDTH Config.DISPLAY_HEIGHT
          (draw_text (render_page getbbox self bs page_number total_pages)).

(** The body of the page loop of [convert_epub_to_xtc]. *)
Definition encode_step (renderer : TextRenderer) (output_format : string)
    (total_pages : Z) (acc : result (list (list byte))) (page : PageContent)
    : result (list (list byte)) :=
  rendered_pages <- acc ;;
  let image :=
    render_page_image renderer (blocks page) (page_number page)
                      (Some total_pages) in
  encoded <- (if (output_format =? "xtch")%string
              then encode_xth_page image
              else encode_xtg_page image) ;;
  Ok (rendered_pages ++ [encoded]).

(** [convert_epub_to_xtc] from step 2 on: the content blocks and the
    metadata are those read from the EPUB; the result is the bytes written
    to [output_path] with the statistics (pages, chapters). *)
Definition convert_epub_to_xtc (content_blocks : list TextBlock)
    (metadata : BookMetadata) (font_family : FontFamily)
    (output_format : string) (font_size : Z)
    : result (list byte * (Z * Z)) :=
  let renderer := mkTextRenderer font_family font_size in
  let paginator := Paginator_init renderer in
  let result := paginate getbbox paginator content_blocks in
  let stats := (total_pages result, Z.of_nat (List.length (chapters result))) in
  let total_pages := total_pages result in
  rendered_pages <-
    fold_left (encode_step renderer output_format total_pages)
              (pages result) (Ok []) ;;
  let chapter_infos :=
    map (fun cm => mkChapterInfo (title cm) (start_page cm) (end_page cm))
        (chapters result) in
  let book_metadata := mkBookMetadata (md_title metadata) (author metadata) in
  file <- write_xtc_container rendered_pages chapter_infos book_metadata
                              (output_format =? "xtch")%string ;;
  Ok (file, stats).

(** The size of one encoded page of the display size. *)
Definition encoded_page_size (output_format : string) : Z :=
  if (output_format =? "xtch")%string then 96022 else 48022.

End Convert.

(** * Properties *)

(** ** Pagination *)

Section PaginationFacts.

Variable getbbox : Font -> string -> Z * Z * Z * Z.
Variable self : Paginator.

Local Notation "'step'" := (paginate_step getbbox self).
Local Notation "'ht'" := (_estimate_block_height getbbox self).
Local Notation "'run' bs" :=
  (fold_left (paginate_step getbbox self) bs init_state) (at level 10).

(** Induction over the loop: a property of the processed prefix and the
    state that holds initially and is kept by every iteration. *)
Lemma loop_invariant (P : list TextBlock -> PagState -> Prop) :
  P [] init_state ->
  (forall bs s b, P bs s -> P (bs ++ [b]) (step s b)) ->
  forall bs, P bs (run bs).
Proof.
  intros Hinit Hstep bs.
  induction bs as [|b bs IH] using rev_ind.
  - exact Hinit.
  - rewrite fold_left_app. simpl. apply Hstep, IH.
Qed.

Lemma all_blocks_app (ps qs : list PageContent) :
  all_blocks (ps ++ qs) = all_blocks ps ++ all_blocks qs.
Proof. unfold all_blocks. now rewrite map_app, concat_app. Qed.

Lemma all_blocks_single (p : PageContent) : all_blocks [p] = blocks p.
Proof. unfold all_blocks. simpl. apply app_nil_r. Qed.

(** *** What [emit_page] and [chapter_break] leave unchanged *)

Lemma emit_page_flow (s : PagState) : flow (emit_page s) = flow s.
Proof.
  unfold emit_page, flow.
  destruct (st_current_page_blocks s) as [|b bs] eqn:E; simpl.
  - now rewrite E.
  - rewrite all_blocks_app, all_blocks_single. simpl. rewrite E.
    now rewrite app_nil_r.
Qed.

Lemma chapter_break_flow (s : PagState) (b : TextBlock) :
  flow (chapter_break s b) = flow s.
Proof.
  unfold chapter_break.
  match goal with |- context [emit_page ?x] => set (s1 := x) end.
  change (flow (emit_page s1) = flow s).
  rewrite emit_page_flow. subst s1.
  destruct (truthy _ && _); reflexivity.
Qed.

Lemma step_flow (s : PagState) (b : TextBlock) :
  flow (step s b) = flow s ++ [b].
Proof.
  unfold paginate_step.
  match goal with |- context [if content_height self <? _ then emit_page ?x else _] =>
    set (s1 := x) end.
  match goal with |- context [st_pages ?x] => set (s2 := x) end.
  unfold flow at 1. simpl.
  rewrite app_assoc. f_equal.
  change (flow s2 = flow s).
  assert (H1 : flow s1 = flow s).
  { subst s1. destruct (_is_chapter_heading b); [apply chapter_break_flow|reflexivity]. }
  subst s2. destruct (content_height self <? _); [rewrite emit_page_flow|]; exact H1.
Qed.

Lemma finish_pages (s : PagState) :
  all_blocks (pages (paginate_finish s)) = flow s.
Proof.
  unfold paginate_finish, flow. simpl.
  destruct (st_current_page_blocks s) as [|b bs] eqn:E; simpl.
  - now rewrite app_nil_r.
  - rewrite all_blocks_app, all_blocks_single. simpl. now rewrite E.
Qed.

Lemma run_flow (bs : list TextBlock) : flow (run bs) = bs.
Proof.
  apply (loop_invariant (fun bs s => flow s = bs)).
  - reflexivity.
  - intros l s b H. now rewrite step_flow, H.
Qed.

(** C2.  The block lists of the pages returned by [paginate], concatenated
    in page order, are the input sequence: nothing is dropped, reordered
    or duplicated. *)
Theorem paginate_preserves_blocks (content_blocks : list TextBlock) :
  all_blocks (pages (paginate getbbox self content_blocks)) = content_blocks.
Proof.
  unfold paginate. rewrite finish_pages. apply run_flow.
Qed.

(** *** The layout invariant *)

Lemma sum_heights_app (xs ys : list TextBlock) :
  sum_heights getbbox self (xs ++ ys)
  = sum_heights getbbox self xs + sum_heights getbbox self ys.
Proof.
  induction xs as [|x xs IH]; simpl; [reflexivity|].
  rewrite IH. lia.
Qed.

Lemma seq_snoc (a n : nat) : seq a (S n) = seq a n ++ [(a + n)%nat].
Proof. now rewrite seq_S. Qed.

Lemma emit_page_layout (s : PagState) :
  layout_inv getbbox self s ->
  layout_inv getbbox self (emit_page s)
  /\ (st_current_page_blocks s <> [] ->
      st_current_page_blocks (emit_page s) = []).
Proof.
  intros (Hy & Hps & Hcur & Hnum & Hpn).
  unfold emit_page.
  destruct (st_current_page_blocks s) as [|b bs] eqn:E; simpl.
  - split; [|congruence].
    unfold layout_inv. rewrite E. auto.
  - split; [|reflexivity].
    unfold layout_inv; simpl. repeat split.
    + apply Forall_app. split; [exact Hps|].
      constructor; [|constructor].
      unfold page_ok, make_page; simpl. rewrite E.
      split; [discriminate|].
      destruct Hcur as [Hcur|Hcur]; [discriminate|exact Hcur].
    + now left.
    + rewrite map_app, length_app. simpl.
      rewrite Nat.add_1_r, seq_snoc, map_app, Hnum. simpl.
      do 2 f_equal. lia.
    + rewrite length_app. simpl. lia.
Qed.

Lemma chapter_break_layout (s : PagState) (b : TextBlock) :
  layout_inv getbbox self s ->
  layout_inv getbbox self (chapter_break s b).
Proof.
  intros H. unfold chapter_break.
  match goal with |- context [emit_page ?x] => set (s1 := x) end.
  assert (H1 : layout_inv getbbox self s1).
  { subst s1. destruct (truthy _ && _); exact H. }
  apply emit_page_layout in H1. destruct H1 as [H1 _].
  exact H1.
Qed.

Lemma step_layout (s : PagState) (b : TextBlock) :
  layout_inv getbbox self s ->
  layout_inv getbbox self (step s b).
Proof.
  intros H. unfold paginate_step.
  match goal with |- context [if content_height self <? _ then emit_page ?x else _] =>
    set (s1 := x) end.
  assert (H1 : layout_inv getbbox self s1).
  { subst s1. destruct (_is_chapter_heading b); [now apply chapter_break_layout|exact H]. }
  clearbody s1. clear H s.
  destruct (Z.ltb_spec (content_height self) (st_current_y s1 + ht b)) as [Hover|Hfit].
  - destruct (emit_page_layout s1 H1) as [(Hy & Hps & Hcur & Hnum & Hpn) Hempty].
    assert (Hnil : st_current_page_blocks (emit_page s1) = []).
    { destruct (st_current_page_blocks s1) as [|x xs] eqn:E.
      - unfold emit_page. rewrite E. exact E.
      - apply Hempty. discriminate. }
    assert (Hy0 : st_current_y (emit_page s1) = 0).
    { rewrite Hy, Hnil. reflexivity. }
    unfold layout_inv; simpl. rewrite Hnil, Hy0. simpl.
    repeat split; auto.
    + lia.
    + right. unfold page_fits. simpl.
      destruct (Z_le_gt_dec (ht b) (content_height self)) as [Hle|Hgt].
      * left. lia.
      * right. exists b. split; [reflexivity|lia].
  - destruct H1 as (Hy & Hps & Hcur & Hnum & Hpn).
    unfold layout_inv; simpl. repeat split; auto.
    + rewrite sum_heights_app. simpl. lia.
    + right. left. rewrite sum_heights_app. simpl. lia.
Qed.

Lemma run_layout (bs : list TextBlock) : layout_inv getbbox self (run bs).
Proof.
  apply (loop_invariant (fun _ s => layout_inv getbbox self s)).
  - unfold layout_inv, init_state; simpl. repeat split; auto.
  - intros l s b H. now apply step_layout.
Qed.

Lemma finish_layout (s : PagState) :
  layout_inv getbbox self s ->
  Forall (page_ok getbbox self) (pages (paginate_finish s))
  /\ numbered_from_1 (pages (paginate_finish s)).
Proof.
  intros (Hy & Hps & Hcur & Hnum & Hpn).
  unfold paginate_finish, numbered_from_1; simpl.
  destruct (st_current_page_blocks s) as [|b bs] eqn:E; simpl.
  - split; assumption.
  - split.
    + apply Forall_app. split; [exact Hps|].
      constructor; [|constructor].
      unfold page_ok, make_page; simpl. rewrite E.
      split; [discriminate|].
      destruct Hcur as [Hcur|Hcur]; [discriminate|exact Hcur].
    + rewrite map_app, length_app. simpl.
      rewrite Nat.add_1_r, seq_snoc, map_app, Hnum. simpl.
      do 2 f_equal. lia.
Qed.

(** C8.  Every page produced by [paginate] holds whole blocks of the
    input, in order; the estimated heights of its blocks sum to at most
    the content height, unless the page is a single block that is itself
    taller than the content height; and the i-th page has page number i. *)
Theorem paginate_pages_fit (content_blocks : list TextBlock) :
  let r := paginate getbbox self content_blocks in
  Forall (fun p => blocks p <> [] /\ page_fits getbbox self (blocks p)) (pages r)
  /\ all_blocks (pages r) = content_blocks
  /\ (forall i p, nth_error (pages r) i = Some p ->
                  page_number p = Z.of_nat i + 1)
  /\ total_pages r = Z.of_nat (List.length (pages r)).
Proof.
  intros r. subst r.
  destruct (finish_layout _ (run_layout content_blocks)) as [Hok Hnum].
  repeat split.
  - exact Hok.
  - unfold paginate. rewrite finish_pages. apply run_flow.
  - intros i p Hi.
    unfold numbered_from_1 in Hnum. fold (paginate getbbox self content_blocks) in Hnum.
    pose proof (map_nth_error page_number _ _ Hi) as Hp.
    rewrite Hnum in Hp.
    assert (Hlt : (i < List.length (pages (paginate getbbox self content_blocks)))%nat).
    { apply nth_error_Some. congruence. }
    rewrite nth_error_map, nth_error_seq in Hp.
    destruct (Nat.ltb_spec i (List.length (pages (paginate getbbox self content_blocks))));
      [|lia].
    simpl in Hp. injection Hp as Hp. lia.
Qed.

(** *** The chapter invariant *)

Lemma chain_snoc (lo : Z) (ms : list ChapterMapping) (m : ChapterMapping) :
  chain lo ms ->
  Forall (fun m' => end_page m' < start_page m) ms ->
  lo <= start_page m -> start_page m <= end_page m ->
  chain lo (ms ++ [m]).
Proof.
  revert lo. induction ms as [|m0 ms IH]; intros lo Hc Hall Hlo Hse; simpl.
  - auto.
  - destruct Hc as (H1 & H2 & H3). inversion Hall; subst.
    repeat split; auto. apply IH; auto. lia.
Qed.

Lemma last_chapter_heading_snoc (bs : list TextBlock) (b : TextBlock) :
  last_chapter_heading (bs ++ [b])
  = if _is_chapter_heading b then Some (text b) else last_chapter_heading bs.
Proof. unfold last_chapter_heading. now rewrite fold_left_app. Qed.

Lemma no_heading_no_chapter (bs : list TextBlock) :
  forallb (fun b => negb (_is_chapter_heading b)) bs = true ->
  last_chapter_heading bs = None.
Proof.
  induction bs as [|b bs IH] using rev_ind; intros H; [reflexivity|].
  rewrite forallb_app in H. simpl in H.
  apply andb_true_iff in H. destruct H as [H1 H2].
  rewrite last_chapter_heading_snoc.
  destruct (_is_chapter_heading b); [discriminate|auto].
Qed.

Lemma emit_page_chapter (s : PagState) :
  st_chapter_mappings (emit_page s) = st_chapter_mappings s
  /\ st_current_chapter (emit_page s) = st_current_chapter s
  /\ st_current_chapter_start (emit_page s) = st_current_chapter_start s
  /\ st_page_number s <= st_page_number (emit_page s).
Proof.
  unfold emit_page. destruct (Str.nonempty _); simpl; repeat split; lia.
Qed.

Lemma Forall_lt_weaken (ms : list ChapterMapping) (a b : Z) :
  a <= b ->
  Forall (fun m => end_page m < a) ms -> Forall (fun m => end_page m < b) ms.
Proof. intros Hab. apply Forall_impl. intros m Hm. lia. Qed.

(** The state after the chapter-break branch, apart from the fields the
    branch does not touch. *)
Lemma chapter_break_chapter (s : PagState) (b : TextBlock) :
  1 <= st_current_chapter_start s <= st_page_number s ->
  chain 1 (st_chapter_mappings s) ->
  Forall (fun m => end_page m < st_current_chapter_start s) (st_chapter_mappings s) ->
  let s' := chapter_break s b in
  1 <= st_current_chapter_start s' <= st_page_number s'
  /\ chain 1 (st_chapter_mappings s')
  /\ Forall (fun m => end_page m < st_current_chapter_start s') (st_chapter_mappings s')
  /\ st_current_chapter s' = Some (text b).
Proof.
  intros Hr Hc Hall s'. subst s'. unfold chapter_break.
  match goal with |- context [emit_page ?x] => set (s1 := x) end.
  destruct (emit_page_chapter s1) as (Em & Ec & Es & Ep).
  simpl. rewrite Em.
  assert (Hpn : st_page_number s1 = st_page_number s).
  { subst s1. destruct (truthy _ && _); reflexivity. }
  rewrite Hpn in Ep.
  repeat split; try lia.
  - subst s1. destruct (truthy _ && _) eqn:Ht; simpl; [|exact Hc].
    apply andb_true_iff in Ht. destruct Ht as [_ Hlt]. apply Z.ltb_lt in Hlt.
    apply chain_snoc; simpl; auto; lia.
  - subst s1. destruct (truthy _ && _) eqn:Ht; simpl.
    + apply andb_true_iff in Ht. destruct Ht as [_ Hlt]. apply Z.ltb_lt in Hlt.
      apply Forall_app. split.
      * eapply Forall_lt_weaken; [|exact Hall]. lia.
      * constructor; [simpl; lia|constructor].
    + eapply Forall_lt_weaken; [|exact Hall]. lia.
Qed.

Lemma step_chapter (bs : list TextBlock) (s : PagState) (b : TextBlock) :
  chapter_inv bs s -> chapter_inv (bs ++ [b]) (step s b).
Proof.
  intros (Hr & Hc & Hall & Hcc & Hnone & Hne).
  unfold paginate_step.
  match goal with |- context [if content_height self <? _ then emit_page ?x else _] =>
    set (s1 := x) end.
  assert (H1 : (1 <= st_current_chapter_start s1 <= st_page_number s1)
               /\ chain 1 (st_chapter_mappings s1)
               /\ Forall (fun m => end_page m < st_current_chapter_start s1)
                         (st_chapter_mappings s1)
               /\ st_current_chapter s1 = last_chapter_heading (bs ++ [b])
               /\ (st_current_chapter s1 = None -> st_chapter_mappings s1 = [])).
  { subst s1. rewrite last_chapter_heading_snoc.
    destruct (_is_chapter_heading b).
    - destruct (chapter_break_chapter s b Hr Hc Hall) as (A & B & C & D).
      repeat split; try tauto. rewrite D. discriminate.
    - repeat split; try tauto. }
  clearbody s1.
  destruct H1 as (Hr1 & Hc1 & Hall1 & Hcc1 & Hnone1).
  match goal with |- context [st_pages ?x] => set (s2 := x) end.
  assert (H2 : st_chapter_mappings s2 = st_chapter_mappings s1
               /\ st_current_chapter s2 = st_current_chapter s1
               /\ st_current_chapter_start s2 = st_current_chapter_start s1
               /\ st_page_number s1 <= st_page_number s2).
  { subst s2. destruct (content_height self <? _).
    - apply emit_page_chapter.
    - repeat split; lia. }
  destruct H2 as (Em & Ec & Es & Ep).
  unfold chapter_inv; simpl. rewrite Em, Ec, Es.
  repeat split; auto; try lia.
  intros _ Hnil. apply app_eq_nil in Hnil. destruct Hnil as [_ Hnil]. discriminate.
Qed.

Lemma run_chapter (bs : list TextBlock) : chapter_inv bs (run bs).
Proof.
  apply (loop_invariant chapter_inv).
  - unfold chapter_inv, init_state; simpl. repeat split; auto; try lia.
  - intros l s b H. now apply step_chapter.
Qed.

Lemma finish_total (s : PagState) :
  layout_inv getbbox self s ->
  st_current_page_blocks s <> [] ->
  total_pages (paginate_finish s) = st_page_number s.
Proof.
  intros (_ & _ & _ & _ & Hpn) Hne. unfold paginate_finish; simpl.
  destruct (st_current_page_blocks s); [congruence|]. simpl.
  rewrite length_app. simpl. lia.
Qed.

Lemma finish_chapters (s : PagState) :
  chapters (paginate_finish s)
  = if truthy (st_current_chapter s)
    then st_chapter_mappings s ++
           [mkChapterMapping
              (match st_current_chapter s with Some t => t | None => EmptyString end)
              (st_current_chapter_start s) (st_page_number s)]
    else st_chapter_mappings s.
Proof. reflexivity. Qed.

(** C1, as the code has it.  The chapter mappings returned by [paginate]
    are ordered by start page, each has [start_page <= end_page], they do
    not overlap, and all lie within the pages 1 to [total_pages]; there
    is no mapping when the input has no chapter-level heading; and when
    the last chapter-level heading has a non-empty text, the last mapping
    carries that text and ends at [total_pages]. *)
Theorem paginate_chapters_ordered (content_blocks : list TextBlock) :
  chain 1 (chapters (paginate getbbox self content_blocks))
  /\ Forall (fun m => end_page m
                      <= total_pages (paginate getbbox self content_blocks))
            (chapters (paginate getbbox self content_blocks))
  /\ (forallb (fun b => negb (_is_chapter_heading b)) content_blocks = true ->
      chapters (paginate getbbox self content_blocks) = [])
  /\ (forall t, last_chapter_heading content_blocks = Some t ->
                t <> EmptyString ->
                exists ms sp,
                  chapters (paginate getbbox self content_blocks)
                  = ms ++ [mkChapterMapping t sp
                             (total_pages (paginate getbbox self content_blocks))]).
Proof.
  pose proof (run_layout content_blocks) as HL.
  pose proof (run_chapter content_blocks) as HC.
  unfold paginate.
  set (s := fold_left (paginate_step getbbox self) content_blocks init_state) in *.
  destruct HC as (Hr & Hc & Hall & Hcc & Hnone & Hne).
  rewrite finish_chapters.
  assert (Hbs : content_blocks <> [] ->
                total_pages (paginate_finish s) = st_page_number s).
  { intros H. apply finish_total; auto. }
  assert (Hsome : forall t, st_current_chapter s = Some t -> content_blocks <> []).
  { intros t Ht E. rewrite Hcc, E in Ht. discriminate. }
  repeat split.
  - destruct (truthy (st_current_chapter s)); [|exact Hc].
    apply chain_snoc; simpl; auto; lia.
  - destruct (st_current_chapter s) as [t|] eqn:Et.
    + pose proof (Hbs (Hsome t eq_refl)) as Etot.
      assert (Hold : Forall (fun m => end_page m <= total_pages (paginate_finish s))
                            (st_chapter_mappings s)).
      { eapply Forall_impl; [|exact Hall]. intros m Hm. cbv beta in Hm.
        rewrite Etot. lia. }
      cbn [truthy]. destruct (negb (Str.is_empty t)); [|exact Hold].
      apply Forall_app. split; [exact Hold|].
      constructor; [rewrite Etot; simpl; lia|constructor].
    + simpl. rewrite (Hnone eq_refl). constructor.
  - intros Hno. apply no_heading_no_chapter in Hno.
    rewrite <- Hcc in Hno. rewrite Hno. simpl. now apply Hnone.
  - intros t Ht Hnz. rewrite <- Hcc in Ht. rewrite Ht. cbn [truthy].
    destruct t as [|c t']; [congruence|]. cbn [Str.is_empty negb].
    exists (st_chapter_mappings s), (st_current_chapter_start s).
    rewrite Hbs; [reflexivity|]. apply (Hsome (String c t')). exact Ht.
Qed.

End PaginationFacts.

(** The theorem at work on a paragraph alone: no chapter mapping. *)
Lemma paginate_chapters_ordered_witness :
  chapters (paginate Sample.getbbox Sample.paginator [Sample.paragraph "x"]) = [].
Proof.
  apply (proj1 (proj2 (proj2
    (paginate_chapters_ordered Sample.getbbox Sample.paginator
       [Sample.paragraph "x"])))).
  reflexivity.
Defined.

(** C1 as claimed fails: a paragraph followed by a first-level heading
    gives two pages and the single mapping (2, 2); page 1 is in no
    mapping although the input has a chapter-level heading. *)
Lemma chapters_do_not_cover_leading_pages :
  ~ chapters_cover_all_pages Sample.getbbox Sample.paginator
      [Sample.paragraph "x"; Sample.heading1 "A"].
Proof.
  intros H.
  assert (Hp : 1 <= 1 <= total_pages
                 (paginate Sample.getbbox Sample.paginator
                    [Sample.paragraph "x"; Sample.heading1 "A"])).
  { vm_compute. split; discriminate. }
  destruct (H eq_refl 1 Hp) as (m & Hin & Hlo & Hhi).
  vm_compute in Hin. destruct Hin as [Hm|[]]. subst m.
  simpl in Hlo. lia.
Qed.

(** The same input, evaluated. *)
Example paginate_leading_paragraph :
  let r := paginate Sample.getbbox Sample.paginator
             [Sample.paragraph "x"; Sample.heading1 "A"] in
  chapters r = [mkChapterMapping "A" 2 2] /\ total_pages r = 2.
Proof. vm_compute. split; reflexivity. Qed.

(** A chapter is closed before its last page is emitted: with two
    headings in a row the first chapter, which fills page 1, gets no
    mapping at all. *)
Example paginate_two_headings :
  let r := paginate Sample.getbbox Sample.paginator
             [Sample.heading1 "A"; Sample.heading1 "B"] in
  chapters r = [mkChapterMapping "B" 2 2] /\ total_pages r = 2.
Proof. vm_compute. split; reflexivity. Qed.

(** ** Block height *)

Section BlockHeightFacts.

Variable getbbox : Font -> string -> Z * Z * Z * Z.

Lemma heading_sizes_lookup (self : TextRenderer) (level : Z) :
  dict_get (heading_sizes self) level
  = match heading_multiplier level with
    | Some mult =>
        Some (Float64.to_int
                (Float64.mul (Float64.of_int (base_font_size self)) mult))
    | None => None
    end.
Proof.
  unfold heading_sizes, Config.get_heading_sizes, Config.HEADING_SIZE_MULTIPLIERS.
  cbn [map dict_get fst snd].
  repeat match goal with
         | |- context [?k =? level] =>
             destruct (Z.eqb_spec k level); [subst level; reflexivity|]
         end.
  unfold heading_multiplier.
  destruct (Z.leb_spec 1 level); [|reflexivity].
  destruct (Z.leb_spec level 6); [|reflexivity].
  lia.
Qed.

Lemma font_size_for_style_correct (self : TextRenderer) (st : TextStyle) :
  _get_font_size_for_style self st = font_size_for_style self st.
Proof.
  unfold _get_font_size_for_style, font_size_for_style.
  destruct (is_heading st); [|reflexivity].
  rewrite heading_sizes_lookup.
  destruct (heading_multiplier (heading_level st)); reflexivity.
Qed.

Lemma get_font_for_style_correct (self : TextRenderer) (st : TextStyle) :
  get_font_for_style self st
  = mkFont (get_path (font_family self) (bold st) (italic st))
           (font_size_for_style self st).
Proof.
  unfold get_font_for_style, get_font.
  f_equal. apply (font_size_for_style_correct self st).
Qed.

(** C3, as the code has it.  The estimated height of a block is the
    number of lines of its text wrapped at the content width less the
    block's indent, times the line height, plus the paragraph spacing;
    the line height is the font size times the line-height ratio
    truncated toward zero (not rounded to nearest), and the font size is
    the heading table's entry for heading blocks of levels 1 to 6 and the
    base font size otherwise. *)
Theorem estimate_block_height_truncates (self : TextRenderer)
    (block : TextBlock) (content_width : Z) :
  estimate_block_height getbbox self block content_width
  = block_height_truncated getbbox self block content_width.
Proof.
  unfold estimate_block_height, block_height_truncated, wrapped_line_count.
  rewrite get_font_for_style_correct, font_size_for_style_correct.
  reflexivity.
Qed.

End BlockHeightFacts.

(** C3 as claimed fails: at the default font size 34 the ratio 1.4 gives
    47.6, which the code truncates to 47 where rounding gives 48; a
    one-line paragraph is estimated at 63 pixels, not 64. *)
Lemma block_height_is_not_rounded :
  estimate_block_height Sample.getbbox Sample.tr (Sample.paragraph "x") 448
  <> block_height_rounded Sample.getbbox Sample.tr (Sample.paragraph "x") 448.
Proof. vm_compute. discriminate. Qed.

(** The two heights at that input. *)
Example block_height_default_paragraph :
  estimate_block_height Sample.getbbox Sample.tr (Sample.paragraph "x") 448 = 63
  /\ block_height_rounded Sample.getbbox Sample.tr (Sample.paragraph "x") 448 = 64.
Proof. vm_compute. split; reflexivity. Qed.

(** The default heading table and the line heights it yields. *)
Example default_heading_sizes :
  Config.get_heading_sizes Config.DEFAULT_FONT_SIZE
  = [(1, 61); (2, 51); (3, 44); (4, 39); (5, 34); (6, 30)]
  /\ map line_height_truncated [61; 51; 44; 39; 34; 30] = [85; 71; 61; 54; 47; 42].
Proof. vm_compute. split; reflexivity. Qed.

(** ** Quantization *)

(** C7.  The four-level quantization sends a sample at most 42 to 3, a
    sample from 43 to 127 to 2, a sample from 128 to 212 to 1 and a larger
    sample to 0; the golden values hold; the level does not increase when
    the sample increases; and each cell of the quantized array is this
    function of the pixel at that place alone. *)
Theorem quantize_sample_steps (s t : Z) :
  quantize_sample s = quantize_levels_spec s
  /\ map quantize_sample [0; 42; 43; 127; 128; 212; 213; 255]
     = [3; 3; 2; 2; 1; 1; 0; 0]
  /\ (s <= t -> quantize_sample t <= quantize_sample s)
  /\ (forall im, quantize_to_4_levels im
                 = map (fun y => map (fun x => quantize_levels_spec (getpixel im x y))
                                     (range (width im)))
                       (range (height im))).
Proof.
  assert (E : forall p, quantize_sample p = quantize_levels_spec p).
  { intros p. unfold quantize_sample, quantize_levels_spec.
    destruct (Z.leb_spec p 42), (Z.leb_spec p 127), (Z.leb_spec p 212),
      (Z.ltb_spec 42 p), (Z.ltb_spec 127 p), (Z.ltb_spec 212 p);
      simpl; try reflexivity; lia. }
  repeat split.
  - apply E.
  - rewrite !E. unfold quantize_levels_spec.
    destruct (Z.leb_spec s 42), (Z.leb_spec s 127), (Z.leb_spec s 212),
      (Z.leb_spec t 42), (Z.leb_spec t 127), (Z.leb_spec t 212); lia.
  - intros im. unfold quantize_to_4_levels, np_array.
    rewrite map_map. apply map_ext. intros y.
    rewrite map_map. apply map_ext. intros x. apply E.
Qed.

(** The monotonicity at work on the samples 100 and 200. *)
Lemma quantize_sample_steps_witness :
  quantize_sample 200 <= quantize_sample 100.
Proof.
  apply (proj1 (proj2 (proj2 (quantize_sample_steps 100 200)))).
  lia.
Defined.

(** ** The container reader *)

Lemma slice_firstn (b : list byte) (n lo hi : nat) :
  (hi <= n)%nat -> slice (firstn n b) lo hi = slice b lo hi.
Proof.
  intros H. unfold slice.
  rewrite skipn_firstn_comm, firstn_firstn.
  f_equal. lia.
Qed.

Lemma unpack_IHH_firstn8 (file : list byte) :
  unpack_IHH (firstn 8 (firstn (Z.to_nat Config.XTC_HEADER_SIZE) file))
  = if (8 <=? List.length file)%nat
    then Ok (file_magic file, le_combine (slice file 4 6), le_combine (slice file 6 8))
    else Raise (StructError "unpack requires a buffer of 8 bytes").
Proof.
  change (Z.to_nat Config.XTC_HEADER_SIZE) with 56%nat.
  rewrite firstn_firstn. change (Nat.min 8 56) with 8%nat.
  unfold unpack_IHH. rewrite length_firstn.
  destruct (Nat.leb_spec 8 (List.length file)) as [Hge|Hlt].
  - rewrite Nat.min_l by exact Hge. simpl Nat.eqb. cbv iota.
    rewrite !slice_firstn by lia. unfold file_magic, slice. simpl skipn.
    reflexivity.
  - rewrite Nat.min_r by lia.
    destruct (Nat.eqb_spec (List.length file) 8); [lia|reflexivity].
Qed.

(** C4, as the code has it.  On a file whose magic is neither the XTC nor
    the XTCH one, [read_xtc_info] does not fail on the magic: when the file
    has at least 8 bytes it returns an info whose format is the text
    "Unknown (0x........)" with the magic in eight upper-case hexadecimal
    digits, together with the version, page count and title it read; it
    raises only when the file has fewer than 8 bytes. *)
Theorem read_xtc_info_unknown_magic (decode : list byte -> string)
    (file : list byte) :
  known_magic (file_magic file) = false ->
  read_xtc_info decode file
  = if (8 <=? List.length file)%nat
    then Ok (unknown_info decode file)
    else Raise (StructError "unpack requires a buffer of 8 bytes").
Proof.
  intros Hm. unfold read_xtc_info.
  rewrite unpack_IHH_firstn8.
  destruct (8 <=? List.length file)%nat; [|reflexivity].
  unfold bind, unknown_info.
  unfold known_magic in Hm. apply orb_false_iff in Hm. destruct Hm as [H1 H2].
  rewrite H1, H2. reflexivity.
Qed.

(** The theorem at work on the eight-byte sample file. *)
Lemma read_xtc_info_unknown_magic_witness :
  read_xtc_info SampleFile.decode SampleFile.bad_magic
  = Ok (mkXtcInfo "Unknown (0xEFBEADDE)" 1 2 EmptyString).
Proof.
  rewrite (read_xtc_info_unknown_magic SampleFile.decode SampleFile.bad_magic).
  - reflexivity.
  - reflexivity.
Defined.

(** C4 as claimed fails: the sample file has an unknown magic and
    [read_xtc_info] returns a result for it. *)
Lemma unknown_magic_is_not_rejected :
  ~ unknown_magic_rejected SampleFile.decode SampleFile.bad_magic.
Proof.
  intros H.
  assert (Hlen : (4 <= List.length SampleFile.bad_magic)%nat) by (simpl; lia).
  specialize (H Hlen eq_refl). vm_compute in H. discriminate.
Qed.

(** ** The two-bit page codec *)

Lemma range_8 : range 8 = [0; 1; 2; 3; 4; 5; 6; 7].
Proof. reflexivity. Qed.

(** C10.  An 8 by 8 buffer whose every sample quantizes to level 3 is
    encoded as the 22-byte header with width 8, height 8 and data size 16,
    followed by the 8 bytes of plane 0 and the 8 bytes of plane 1 (one
    byte per plane for each of the 8 columns), every one of them 0xFF. *)
Theorem encode_xth_page_all_black (im : Image) :
  width im = 8 -> height im = 8 ->
  (forall x y, 0 <= x < 8 -> 0 <= y < 8 -> quantize_sample (getpixel im x y) = 3) ->
  encode_xth_page im
  = Ok (page_header Config.XTH_MARK 8 8 16
        ++ repeat Byte.xff 8 ++ repeat Byte.xff 8).
Proof.
  intros Hw Hh Hq.
  assert (Q : quantize_to_4_levels im = repeat (repeat 3 8) 8).
  { unfold quantize_to_4_levels, np_array. rewrite Hw, Hh, range_8.
    cbn [map repeat]. rewrite !Hq by lia. reflexivity. }
  unfold encode_xth_page. rewrite Q, Hw, Hh. vm_compute. reflexivity.
Qed.

(** The theorem at work on the all-zero 8 by 8 image. *)
Lemma encode_xth_page_all_black_witness :
  encode_xth_page SampleFile.black8
  = Ok (page_header Config.XTH_MARK 8 8 16
        ++ repeat Byte.xff 8 ++ repeat Byte.xff 8).
Proof.
  apply (encode_xth_page_all_black SampleFile.black8).
  - reflexivity.
  - reflexivity.
  - intros x y _ _. reflexivity.
Defined.

(** ** Line wrapping *)

Section WrapFacts.

Variable getbbox : Font -> string -> Z * Z * Z * Z.
Variable font : Font.
Variable max_width : Z.

Lemma string_length_snoc (s : string) (c : ascii) :
  String.length (s ++ String c EmptyString) = S (String.length s).
Proof. induction s as [|a s IH]; simpl; [reflexivity|now rewrite IH]. Qed.

Lemma split_from_nonempty (s cur : string) :
  Forall (fun w => w <> EmptyString) (Str.split_from cur s).
Proof.
  revert cur. induction s as [|c s IH]; intros cur; simpl.
  - destruct cur; simpl; constructor; [discriminate|constructor].
  - destruct (Str.isspace c); [|apply IH].
    destruct cur; simpl; [apply IH|].
    constructor; [discriminate|apply IH].
Qed.

Lemma split_from_length (s cur : string) :
  (total_length (Str.split_from cur s) <= String.length cur + String.length s)%nat.
Proof.
  revert cur. induction s as [|c s IH]; intros cur; simpl.
  - destruct cur; simpl; lia.
  - destruct (Str.isspace c).
    + destruct cur; simpl.
      * specialize (IH EmptyString). simpl in IH. lia.
      * specialize (IH EmptyString). simpl in IH. lia.
    + specialize (IH (cur ++ String c EmptyString)%string).
      rewrite string_length_snoc in IH. lia.
Qed.

Lemma chars_length (w : string) :
  List.length (Str.chars w) = String.length w.
Proof. induction w as [|c w IH]; simpl; [reflexivity|now rewrite IH]. Qed.

Lemma nonempty_snoc {A : Type} (l : list A) (a : A) :
  Str.nonempty (l ++ [a]) = true.
Proof. destruct l; reflexivity. Qed.

Lemma char_step_pending (st : list string * list string) (ch : string) :
  (pending (char_step getbbox font max_width st ch) <= S (pending st))%nat.
Proof.
  destruct st as [lines cc]. unfold char_step, pending.
  destruct (_ <=? max_width); simpl.
  - rewrite nonempty_snoc. destruct (Str.nonempty cc); lia.
  - destruct (Str.nonempty cc); simpl; [rewrite length_app; simpl|]; lia.
Qed.

Lemma char_loop_pending (chs : list string) (st : list string * list string) :
  (pending (fold_left (char_step getbbox font max_width) chs st)
   <= pending st + List.length chs)%nat.
Proof.
  revert st. induction chs as [|ch chs IH]; intros st; simpl; [lia|].
  specialize (IH (char_step getbbox font max_width st ch)).
  pose proof (char_step_pending st ch). lia.
Qed.

Lemma removelast_length_le {A : Type} (l : list A) :
  (List.length (removelast l) <= List.length l)%nat.
Proof.
  induction l as [|a l IH]; simpl; [lia|].
  destruct l; simpl in *; lia.
Qed.

Lemma word_step_pending (st : list string * list string) (word : string) :
  word <> EmptyString ->
  (pending (word_step getbbox font max_width st word)
   <= pending st + String.length word)%nat.
Proof.
  intros Hw.
  assert (Hlen : (1 <= String.length word)%nat).
  { destruct word; [congruence|simpl; lia]. }
  destruct st as [lines cur]. unfold word_step.
  destruct (_ <=? max_width).
  - unfold pending; simpl. rewrite nonempty_snoc.
    destruct (Str.nonempty cur); lia.
  - set (lines1 := if Str.nonempty cur
                   then lines ++ [Str.join " " cur] else lines).
    assert (H1 : List.length lines1 = pending (lines, cur)).
    { subst lines1. unfold pending; simpl.
      destruct (Str.nonempty cur); [rewrite length_app; simpl|]; lia. }
    destruct (max_width <? _).
    + set (lines2 := if Str.nonempty lines1 && _ then removelast lines1 else lines1).
      assert (H2 : (List.length lines2 <= List.length lines1)%nat).
      { subst lines2. destruct (Str.nonempty lines1 && _); [|lia].
        apply removelast_length_le. }
      pose proof (char_loop_pending (Str.chars word) (lines2, [])) as H3.
      rewrite chars_length in H3.
      destruct (fold_left _ (Str.chars word) (lines2, [])) as [lines3 cc].
      unfold pending in *; simpl in *.
      destruct (Str.nonempty cc); simpl; lia.
    + unfold pending in *; simpl in *. lia.
Qed.

Lemma word_loop_pending (ws : list string) (st : list string * list string) :
  Forall (fun w => w <> EmptyString) ws ->
  (pending (fold_left (word_step getbbox font max_width) ws st)
   <= pending st + total_length ws)%nat.
Proof.
  revert st. induction ws as [|w ws IH]; intros st Hne; simpl; [lia|].
  inversion Hne; subst.
  specialize (IH (word_step getbbox font max_width st w) H2).
  pose proof (word_step_pending st w H1). lia.
Qed.

Lemma wrap_text_length (txt : string) :
  (List.length (wrap_text getbbox txt font max_width) <= String.length txt)%nat.
Proof.
  unfold wrap_text.
  destruct (Str.is_empty txt); [simpl; lia|].
  destruct (negb (Str.nonempty (Str.split txt))); [simpl; lia|].
  pose proof (word_loop_pending (Str.split txt) ([], [])
                (split_from_nonempty txt EmptyString)) as H.
  pose proof (split_from_length txt EmptyString) as Hs.
  fold (Str.split txt) in Hs.
  destruct (fold_left _ (Str.split txt) ([], [])) as [lines cur].
  unfold pending in H; simpl in H, Hs.
  destruct (Str.nonempty cur); [rewrite length_app; simpl|]; lia.
Qed.

Lemma wrap_text_single_word (word : string) :
  Str.split word = [word] ->
  max_width < fst (measure_text getbbox word font) ->
  wrap_text getbbox word font max_width = pack_chars getbbox word font max_width.
Proof.
  intros Hs Hwide.
  unfold wrap_text. rewrite Hs.
  destruct word as [|c w]; [discriminate|].
  cbn [Str.is_empty Str.nonempty negb fold_left].
  unfold word_step at 1.
  cbn [app Str.join String.concat Str.nonempty andb].
  destruct (Z.leb_spec (fst (measure_text getbbox (String c w) font)) max_width);
    [lia|].
  destruct (Z.ltb_spec max_width (fst (measure_text getbbox (String c w) font)));
    [|lia].
  unfold pack_chars.
  destruct (fold_left _ (Str.chars (String c w)) ([], [])) as [lines cc].
  destruct cc as [|x xs]; reflexivity.
Qed.

(** C9.  [wrap_text] returns a list of at most as many lines as the text
    has characters, for every text, every metric and every width.  A word
    that alone exceeds the width is packed character by character; in that
    packing a character that starts a piece is accepted whatever its
    width, so that a single over-wide character is returned as a line. *)
Theorem wrap_text_terminates :
  (forall txt,
     (List.length (wrap_text getbbox txt font max_width) <= String.length txt)%nat)
  /\ (forall word,
        Str.split word = [word] ->
        max_width < fst (measure_text getbbox word font) ->
        wrap_text getbbox word font max_width
        = pack_chars getbbox word font max_width)
  /\ (forall lines ch,
        char_step getbbox font max_width (lines, []) ch = (lines, [ch]))
  /\ (forall c,
        Str.isspace c = false ->
        max_width < fst (measure_text getbbox (String c EmptyString) font) ->
        wrap_text getbbox (String c EmptyString) font max_width
        = [String c EmptyString]).
Proof.
  split; [apply wrap_text_length|].
  split; [apply wrap_text_single_word|].
  split.
  - intros lines ch. unfold char_step. simpl.
    destruct (_ <=? max_width); reflexivity.
  - intros c Hc Hwide.
    rewrite wrap_text_single_word; [|unfold Str.split; simpl; now rewrite Hc|exact Hwide].
    unfold pack_chars. simpl. unfold char_step. simpl.
    destruct (Z.leb_spec (fst (measure_text getbbox (String c EmptyString) font))
                max_width); [lia|reflexivity].
Qed.

End WrapFacts.

(** The theorem at work: with 10 pixels per character and a width of 25,
    the word "abcde" is packed into pieces of two characters. *)
Lemma wrap_text_terminates_witness :
  wrap_text Sample.getbbox "abcde" (mkFont "serif.ttf" 34) 25 = ["ab"; "cd"; "e"]%string.
Proof.
  rewrite (proj1 (proj2 (wrap_text_terminates Sample.getbbox
                           (mkFont "serif.ttf" 34) 25))).
  - reflexivity.
  - reflexivity.
  - vm_compute. reflexivity.
Defined.

(** ** The one-bit page codec *)

Lemma pack_field_ok (n : nat) (v : Z) :
  0 <= v < 2 ^ (8 * Z.of_nat n) -> pack_field n v = Ok (le_split n v).
Proof.
  intros [H0 H1]. unfold pack_field.
  destruct (Z.leb_spec 0 v); [|lia].
  destruct (Z.ltb_spec v (2 ^ (8 * Z.of_nat n))); [reflexivity|lia].
Qed.

Lemma encode_xtg_header_ok (w h ds : Z) :
  0 <= w < 2 ^ 16 -> 0 <= h < 2 ^ 16 -> 0 <= ds < 2 ^ 32 ->
  encode_xtg_header w h ds = Ok (page_header Config.XTG_MARK w h ds).
Proof.
  intros Hw Hh Hd. unfold encode_xtg_header, page_header.
  rewrite (pack_field_ok 2 w), (pack_field_ok 2 h), (pack_field_ok 4 ds)
    by (simpl; lia).
  reflexivity.
Qed.

Lemma page_header_length (mark w h ds : Z) :
  List.length (page_header mark w h ds) = 22%nat.
Proof. unfold page_header. rewrite !length_app, !length_le_split. reflexivity. Qed.

(** *** Bits of a packed group *)

Lemma packval_cons (c : Z) (cells : list Z) (acc : Z) :
  packval (c :: cells) acc = packval cells (2 * acc + Z.b2z (negb (c =? 0))).
Proof. unfold packval. simpl. destruct (c =? 0); reflexivity. Qed.

Lemma packval_high (cells : list Z) (acc : Z) (i : nat) :
  Z.testbit (packval cells acc) (Z.of_nat (List.length cells + i))
  = Z.testbit acc (Z.of_nat i).
Proof.
  revert acc i. induction cells as [|c cells IH]; intros acc i.
  - reflexivity.
  - rewrite packval_cons.
    replace (List.length (c :: cells) + i)%nat
      with (List.length cells + S i)%nat by (simpl; lia).
    rewrite IH, Nat2Z.inj_succ. apply Z.testbit_succ_r. lia.
Qed.

Lemma packval_low (cells : list Z) (acc : Z) (i : nat) :
  (i < List.length cells)%nat ->
  Z.testbit (packval cells acc) (Z.of_nat i)
  = negb (nth (List.length cells - 1 - i) cells 0 =? 0).
Proof.
  revert acc i. induction cells as [|c cells IH]; intros acc i Hi; simpl in Hi.
  - lia.
  - rewrite packval_cons.
    destruct (Nat.eq_dec i (List.length cells)) as [->|Hne].
    + pose proof (packval_high cells (2 * acc + Z.b2z (negb (c =? 0))) 0) as H.
      rewrite Nat.add_0_r in H. rewrite H.
      rewrite Z.testbit_0_r.
      replace (List.length (c :: cells) - 1 - List.length cells)%nat with 0%nat
        by (simpl; lia).
      reflexivity.
    + rewrite IH by lia.
      replace (List.length (c :: cells) - 1 - i)%nat
        with (S (List.length cells - 1 - i)) by (simpl; lia).
      reflexivity.
Qed.

Lemma packbits8_testbit (cells : list Z) (j : nat) :
  List.length cells = 8%nat -> (j < 8)%nat ->
  Z.testbit (byte.unsigned (packbits8 cells)) (7 - Z.of_nat j)
  = negb (nth j cells 0 =? 0).
Proof.
  intros Hlen Hj. unfold packbits8.
  rewrite byte.unsigned_of_Z. unfold byte.wrap.
  rewrite Z.mod_pow2_bits_low by lia.
  replace (7 - Z.of_nat j) with (Z.of_nat (7 - j)) by lia.
  fold (packval cells 0).
  rewrite packval_low by lia.
  rewrite Hlen. do 3 f_equal. lia.
Qed.

(** *** Indexing groups, rows and tabulated lists *)

Lemma groups8_length (n : nat) (cells : list Z) :
  List.length (groups8 n cells) = n.
Proof. revert cells. induction n; intros; simpl; [|rewrite IHn]; reflexivity. Qed.

Lemma groups8_nth (n : nat) (cells : list Z) (k : nat) :
  (k < n)%nat ->
  nth k (groups8 n cells) [] = firstn 8 (skipn (8 * k) cells).
Proof.
  revert cells k. induction n as [|n IH]; intros cells k Hk; [lia|].
  destruct k as [|k]; [reflexivity|].
  cbn [groups8 nth]. rewrite IH by lia.
  rewrite skipn_skipn. do 2 f_equal. lia.
Qed.

Lemma concat_uniform_length {A : Type} (rows : list (list A)) (m : nat) :
  Forall (fun r => List.length r = m) rows ->
  List.length (List.concat rows) = (List.length rows * m)%nat.
Proof.
  induction 1 as [|r rows Hr _ IH]; simpl; [reflexivity|].
  rewrite length_app, IH, Hr. reflexivity.
Qed.

Lemma concat_uniform_nth {A : Type} (rows : list (list A)) (m y k : nat) (d : A) :
  Forall (fun r => List.length r = m) rows ->
  (k < m)%nat ->
  nth (y * m + k) (List.concat rows) d = nth k (nth y rows []) d.
Proof.
  intros Hall Hk. revert y.
  induction Hall as [|r rows Hr _ IH]; intros y; simpl.
  - destruct (y * m + k)%nat, y, k; reflexivity.
  - destruct y as [|y]; simpl.
    + apply app_nth1. lia.
    + rewrite app_nth2 by lia. rewrite <- IH. f_equal. lia.
Qed.

Lemma range_length (n : Z) : List.length (range n) = Z.to_nat n.
Proof. unfold range. now rewrite length_map, length_seq. Qed.

Lemma tabulate_nth {A : Type} (f : Z -> A) (n : Z) (i : nat) (d : A) :
  (i < Z.to_nat n)%nat -> nth i (map f (range n)) d = f (Z.of_nat i).
Proof.
  intros Hi. unfold range. rewrite map_map.
  rewrite (nth_indep _ d (f (Z.of_nat 0))) by (now rewrite length_map, length_seq).
  rewrite (map_nth (fun x => f (Z.of_nat x))), seq_nth by exact Hi.
  reflexivity.
Qed.

Lemma row_bytes_ceil (w : Z) :
  8 * (row_bytes w - 1) < w <= 8 * row_bytes w.
Proof. unfold row_bytes. Z.to_euclidean_division_equations. lia. Qed.

Lemma xtg_row_length (im : Image) (y : Z) :
  0 < width im ->
  List.length (xtg_row im y) = (8 * Z.to_nat (row_bytes (width im)))%nat.
Proof.
  intros Hw. pose proof (row_bytes_ceil (width im)).
  unfold xtg_row. rewrite length_app, length_map, range_length, repeat_length.
  lia.
Qed.

Lemma xtg_data_rows (im : Image) :
  0 < width im ->
  Forall (fun r => List.length r = Z.to_nat (row_bytes (width im)))
    (map (fun y => map packbits8
                     (groups8 (Z.to_nat (row_bytes (width im))) (xtg_row im y)))
         (range (height im))).
Proof.
  intros Hw. apply Forall_forall. intros r Hr.
  apply in_map_iff in Hr. destruct Hr as (y & <- & _).
  now rewrite length_map, groups8_length.
Qed.

Lemma xtg_data_length (im : Image) :
  0 < width im -> 0 <= height im ->
  Z.of_nat (List.length (xtg_data im)) = row_bytes (width im) * height im.
Proof.
  intros Hw Hh. pose proof (row_bytes_ceil (width im)).
  unfold xtg_data.
  rewrite (concat_uniform_length _ _ (xtg_data_rows im Hw)).
  rewrite length_map, range_length. lia.
Qed.

Lemma encode_xtg_page_data (im : Image) :
  mode im = ModeL ->
  0 < width im <= 65535 -> 0 < height im <= 65535 ->
  encode_xtg_page im
  = Ok (page_header Config.XTG_MARK (width im) (height im)
          (row_bytes (width im) * height im)
        ++ xtg_data im).
Proof.
  intros Hm Hw Hh. pose proof (row_bytes_ceil (width im)) as HB.
  unfold encode_xtg_page.
  fold (row_bytes (width im)).
  destruct (Z.leb_spec (height im) 0); [lia|].
  rewrite encode_xtg_header_ok by (simpl; nia).
  unfold bind. do 2 f_equal.
  rewrite Z.div_mul by lia.
  assert (Hrows :
    (if width im <? row_bytes (width im) * 8
     then map (fun row => row ++ repeat 0 (Z.to_nat (row_bytes (width im) * 8 - width im)))
              (mono_pixels im)
     else mono_pixels im)
    = map (xtg_row im) (range (height im))).
  { unfold mono_pixels, np_array, xtg_row. rewrite Hm.
    destruct (Z.ltb_spec (width im) (row_bytes (width im) * 8)).
    - rewrite !map_map. apply map_ext. intros y. now rewrite map_map.
    - replace (row_bytes (width im) * 8 - width im) with 0 by lia.
      rewrite map_map. apply map_ext. intros y.
      rewrite map_map. simpl. now rewrite app_nil_r. }
  rewrite Hrows, map_map.
  fold (xtg_data im).
  apply firstn_all2.
  pose proof (xtg_data_length im) as HL. lia.
Qed.

Lemma xtg_row_nth (im : Image) (y : Z) (i : nat) :
  0 < width im ->
  negb (nth i (xtg_row im y) 0 =? 0) = white_bit im (Z.of_nat i) y.
Proof.
  intros Hw. unfold xtg_row, white_bit.
  destruct (Z.ltb_spec (Z.of_nat i) (width im)) as [Hin|Hout].
  - rewrite app_nth1 by (rewrite length_map, range_length; lia).
    rewrite (tabulate_nth
               (fun x => if threshold (getpixel im x y) =? 0 then 0 else 1))
      by lia.
    unfold threshold.
    destruct (128 <=? getpixel im (Z.of_nat i) y); reflexivity.
  - rewrite app_nth2 by (rewrite length_map, range_length; lia).
    rewrite nth_repeat. reflexivity.
Qed.

Lemma xtg_data_bit (im : Image) (y k j : nat) :
  0 < width im ->
  (y < Z.to_nat (height im))%nat ->
  (k < Z.to_nat (row_bytes (width im)))%nat ->
  (j < 8)%nat ->
  Z.testbit
    (byte.unsigned
       (nth (y * Z.to_nat (row_bytes (width im)) + k) (xtg_data im) Byte.x00))
    (7 - Z.of_nat j)
  = white_bit im (Z.of_nat (8 * k + j)) (Z.of_nat y).
Proof.
  intros Hw Hy Hk Hj.
  unfold xtg_data.
  rewrite (concat_uniform_nth _ _ y k Byte.x00 (xtg_data_rows im Hw) Hk).
  rewrite (tabulate_nth
             (fun y => map packbits8
                         (groups8 (Z.to_nat (row_bytes (width im))) (xtg_row im y))))
    by exact Hy.
  rewrite (nth_indep _ Byte.x00 (packbits8 []))
    by (now rewrite length_map, groups8_length).
  rewrite map_nth, groups8_nth by exact Hk.
  pose proof (xtg_row_length im (Z.of_nat y) Hw) as HL.
  rewrite packbits8_testbit; [|rewrite length_firstn, length_skipn; lia|exact Hj].
  rewrite nth_firstn.
  destruct (Nat.ltb_spec j 8); [|lia].
  rewrite nth_skipn.
  apply xtg_row_nth. exact Hw.
Qed.

(** C6.  For a buffer of width [w] and height [h], [encode_xtg_page]
    emits the 22-byte header carrying [w] and [h] unchanged and the data
    size [ceil(w/8) * h], followed by exactly that many bytes; bit [7 - j]
    of byte [k] of row [y] is 1 exactly when pixel [(8k + j, y)] lies
    within the width and its sample is at least 128, so that pixels are
    packed row by row, left to right, most significant bit first, and the
    padding of each row is black. *)
Theorem encode_xtg_page_packs (im : Image) :
  mode im = ModeL ->
  0 < width im <= 65535 -> 0 < height im <= 65535 ->
  exists data,
    encode_xtg_page im
    = Ok (page_header Config.XTG_MARK (width im) (height im)
            (row_bytes (width im) * height im) ++ data)
    /\ List.length (page_header Config.XTG_MARK (width im) (height im)
                      (row_bytes (width im) * height im)) = 22%nat
    /\ Z.of_nat (List.length data) = row_bytes (width im) * height im
    /\ 8 * (row_bytes (width im) - 1) < width im <= 8 * row_bytes (width im)
    /\ forall y k j,
         0 <= y < height im -> 0 <= k < row_bytes (width im) -> 0 <= j < 8 ->
         Z.testbit
           (byte.unsigned
              (nth (Z.to_nat (y * row_bytes (width im) + k)) data Byte.x00))
           (7 - j)
         = white_bit im (8 * k + j) y.
Proof.
  intros Hm Hw Hh. exists (xtg_data im).
  split; [now apply encode_xtg_page_data|].
  split; [apply page_header_length|].
  split; [apply xtg_data_length; lia|].
  split; [apply row_bytes_ceil|].
  intros y k j Hy Hk Hj.
  pose proof (xtg_data_bit im (Z.to_nat y) (Z.to_nat k) (Z.to_nat j)) as H.
  replace (Z.to_nat (y * row_bytes (width im) + k))
    with (Z.to_nat y * Z.to_nat (row_bytes (width im)) + Z.to_nat k)%nat by nia.
  rewrite !Nat2Z.inj_add, !Nat2Z.inj_mul, !Z2Nat.id in H by lia.
  apply H; lia.
Qed.

(** An 10 by 2 sample image encodes as the theorem says. *)
Lemma encode_xtg_page_packs_witness :
  exists data,
    encode_xtg_page SampleFile.stripes
    = Ok (page_header Config.XTG_MARK 10 2 4 ++ data)
    /\ List.length (page_header Config.XTG_MARK 10 2 4) = 22%nat
    /\ Z.of_nat (List.length data) = 4
    /\ 8 * (2 - 1) < 10 <= 8 * 2
    /\ forall y k j,
         0 <= y < 2 -> 0 <= k < 2 -> 0 <= j < 8 ->
         Z.testbit
           (byte.unsigned (nth (Z.to_nat (y * 2 + k)) data Byte.x00)) (7 - j)
         = white_bit SampleFile.stripes (8 * k + j) y.
Proof.
  apply (encode_xtg_page_packs SampleFile.stripes).
  - reflexivity.
  - simpl. lia.
  - simpl. lia.
Defined.

(** ** The container writer *)

Lemma bind_ok {A B : Type} (r : result A) (k : A -> result B) (b : B) :
  bind r k = Ok b -> exists a, r = Ok a /\ k a = Ok b.
Proof. destruct r as [a|e]; simpl; [eauto|discriminate]. Qed.

Lemma pack_field_inv (n : nat) (v : Z) (b : list byte) :
  pack_field n v = Ok b -> 0 <= v < 2 ^ (8 * Z.of_nat n) /\ b = le_split n v.
Proof.
  unfold pack_field.
  destruct (Z.leb_spec 0 v); [|discriminate].
  destruct (Z.ltb_spec v (2 ^ (8 * Z.of_nat n))); [|discriminate].
  cbn [andb]. intros E. injection E as <-. split; [lia|reflexivity].
Qed.

Lemma slice_skip (a b : list byte) (lo hi : nat) :
  (List.length a <= lo)%nat ->
  slice (a ++ b) lo hi = slice b (lo - List.length a) (hi - List.length a).
Proof.
  intros H. unfold slice.
  rewrite skipn_app, skipn_all2 by exact H. simpl.
  f_equal. lia.
Qed.

Lemma read_le_small (buf : list byte) (offset n : nat) :
  0 <= read_le buf offset n < 2 ^ (8 * Z.of_nat n).
Proof.
  unfold read_le. pose proof (le_combine_bound (slice buf offset (offset + n))) as H.
  assert (Hl : (List.length (slice buf offset (offset + n)) <= n)%nat).
  { unfold slice. rewrite length_firstn. lia. }
  split; [lia|].
  eapply Z.lt_le_trans; [apply H|].
  apply Z.pow_le_mono_r; lia.
Qed.

Lemma zeros_skipn (a b : nat) : skipn a (zeros (a + b)) = zeros b.
Proof.
  unfold zeros. rewrite repeat_app, skipn_app, skipn_all2, repeat_length
    by (rewrite repeat_length; lia).
  rewrite Nat.sub_diag. reflexivity.
Qed.

Lemma table_step_raise (page_blobs : list (list byte)) (e : error) :
  fold_left table_step page_blobs (Raise e) = Raise e.
Proof. induction page_blobs as [|b bs IH]; simpl; [reflexivity|exact IH]. Qed.

Lemma unpack_IHH_blob (blob : list byte) (r : Z * Z * Z) :
  unpack_IHH (firstn 8 blob) = Ok r ->
  (8 <= List.length blob)%nat
  /\ snd (fst r) = blob_width blob /\ snd r = blob_height blob.
Proof.
  unfold unpack_IHH. rewrite length_firstn.
  destruct (Nat.eqb_spec (Nat.min 8 (List.length blob)) 8) as [E|E]; [|discriminate].
  intros H.
  assert (Hr : r = (le_combine (slice (firstn 8 blob) 0 4),
                    le_combine (slice (firstn 8 blob) 4 6),
                    le_combine (slice (firstn 8 blob) 6 8))) by congruence.
  rewrite Hr. cbn [fst snd].
  unfold blob_width, blob_height, read_le. cbn [Nat.add].
  rewrite !slice_firstn by lia.
  repeat split. lia.
Qed.

Lemma table_step_inv (tbl : list byte) (off : Z) (i : nat) (blob : list byte)
    (r : list byte * Z * nat) :
  table_step (Ok (tbl, off, i)) blob = Ok r ->
  0 <= off < 2 ^ 64
  /\ (8 <= List.length blob)%nat
  /\ Z.of_nat (List.length blob) < 2 ^ 32
  /\ (16 * i + 16 <= List.length tbl)%nat
  /\ r = (firstn (16 * i) tbl ++ entry_bytes off blob ++ skipn (16 * i + 16) tbl,
          off + Z.of_nat (List.length blob), S i).
Proof.
  unfold table_step. cbn [bind].
  intros H.
  apply bind_ok in H. destruct H as ([[m w] h] & Hu & H).
  apply unpack_IHH_blob in Hu. cbn [fst snd] in Hu. destruct Hu as (Hlen & Hw & Hh).
  apply bind_ok in H. destruct H as (f_off & H1 & H).
  apply pack_field_inv in H1. destruct H1 as [R1 ->].
  apply bind_ok in H. destruct H as (f_size & H2 & H).
  apply pack_field_inv in H2. destruct H2 as [R2 ->].
  apply bind_ok in H. destruct H as (f_w & H3 & H).
  apply pack_field_inv in H3. destruct H3 as [R3 ->].
  apply bind_ok in H. destruct H as (f_h & H4 & H).
  apply pack_field_inv in H4. destruct H4 as [R4 ->].
  apply bind_ok in H. destruct H as (tbl' & H5 & H).
  unfold pack_into in H5.
  rewrite !length_app, !length_le_split in H5.
  change (Z.to_nat Config.PAGE_TABLE_ENTRY_SIZE) with 16%nat in H5.
  destruct (Nat.leb_spec (i * 16 + (8 + (4 + (2 + 2)))) (List.length tbl)) as [Hfit|];
    [|discriminate].
  injection H5 as <-. injection H as <-.
  subst w h.
  repeat split; try lia.
  unfold entry_bytes. rewrite <- !app_assoc.
  replace (i * 16)%nat with (16 * i)%nat by lia.
  replace (16 * i + (8 + (4 + (2 + 2))))%nat with (16 * i + 16)%nat by lia.
  reflexivity.
Qed.

Lemma entry_bytes_length (off : Z) (blob : list byte) :
  List.length (entry_bytes off blob) = 16%nat.
Proof. unfold entry_bytes. rewrite !length_app, !length_le_split. reflexivity. Qed.

Lemma table_entries_length (off : Z) (page_blobs : list (list byte)) :
  List.length (table_entries off page_blobs) = (16 * List.length page_blobs)%nat.
Proof.
  revert off. induction page_blobs as [|b bs IH]; intros off; [reflexivity|].
  cbn [table_entries].
  rewrite length_app, entry_bytes_length, IH. simpl List.length. lia.
Qed.

(** The page-table loop, started on a table whose first [i] entries [done]
    are written and whose remaining entries are still zero. *)
Lemma table_loop (page_blobs : list (list byte)) :
  forall (done : list byte) (off : Z) (i k : nat) (r : list byte * Z * nat),
    List.length done = (16 * i)%nat ->
    fold_left table_step page_blobs
      (Ok (done ++ zeros (16 * (List.length page_blobs + k)), off, i)) = Ok r ->
    entries_ok off page_blobs
    /\ fst (fst r) = done ++ table_entries off page_blobs ++ zeros (16 * k).
Proof.
  induction page_blobs as [|b bs IH]; intros done off i k r Hd H.
  - simpl in H. injection H as <-. simpl. auto.
  - cbn [fold_left] in H.
    destruct (table_step (Ok (done ++ zeros (16 * (List.length (b :: bs) + k)), off, i)) b)
      as [r1|e] eqn:E1.
    2:{ rewrite table_step_raise in H. discriminate. }
    apply table_step_inv in E1.
    destruct E1 as (R1 & R2 & R3 & R4 & ->).
    set (T := done ++ zeros (16 * (List.length (b :: bs) + k))) in *.
    assert (Hf : firstn (16 * i) T = done).
    { subst T. rewrite <- Hd, firstn_app, Nat.sub_diag, firstn_all.
      cbn [firstn]. apply app_nil_r. }
    assert (Hs : skipn (16 * i + 16) T = zeros (16 * (List.length bs + k))).
    { subst T. rewrite skipn_app, skipn_all2 by lia. rewrite Hd. cbn [app].
      replace (16 * i + 16 - 16 * i)%nat with 16%nat by lia.
      replace (16 * (List.length (b :: bs) + k))%nat
        with (16 + 16 * (List.length bs + k))%nat by (simpl; lia).
      apply zeros_skipn. }
    rewrite Hf, Hs in H. clear Hf Hs R4. clearbody T.
    rewrite (app_assoc done) in H.
    apply IH in H.
    2:{ rewrite length_app, entry_bytes_length. lia. }
    destruct H as [Hok Hr].
    split.
    + simpl. repeat split; try lia. exact Hok.
    + rewrite Hr. simpl. now rewrite <- !app_assoc.
Qed.

Lemma title_field_length (metadata : BookMetadata) :
  List.length (title_field metadata) = 128%nat.
Proof.
  unfold title_field, ljust, zeros.
  rewrite !length_app, repeat_length, length_firstn.
  cbn [List.length]. lia.
Qed.

Lemma container_header_length (mark page_count : Z) :
  List.length (container_header mark page_count) = 56%nat.
Proof.
  unfold container_header, zeros.
  rewrite !length_app, !length_le_split, repeat_length. reflexivity.
Qed.

(** The bytes a successful [write_xtc_container] writes. *)
Lemma write_xtc_container_inv (page_blobs : list (list byte))
    (chapter_infos : list ChapterInfo) (metadata : BookMetadata)
    (is_grayscale : bool) (c : list byte) :
  write_xtc_container page_blobs chapter_infos metadata is_grayscale = Ok c ->
  let n := Z.of_nat (List.length page_blobs) in
  entries_ok (184 + 16 * n) page_blobs
  /\ 0 <= n < 2 ^ 16
  /\ 0 <= 184 + 16 * n < 2 ^ 64
  /\ c = container_header
           (if is_grayscale then Config.XTCH_MARK else Config.XTC_MARK) n
         ++ title_field metadata
         ++ table_entries (184 + 16 * n) page_blobs
         ++ List.concat page_blobs.
Proof.
  intros H n. unfold write_xtc_container in H.
  change Config.XTC_HEADER_SIZE with 56 in H.
  change Config.TITLE_MAX_SIZE with 128 in H.
  change Config.PAGE_TABLE_ENTRY_SIZE with 16 in H.
  change (56 + 128) with 184 in H.
  fold n in H.
  replace (184 + n * 16) with (184 + 16 * n) in H by lia.
  replace (Z.to_nat (n * 16))
    with (16 * (List.length page_blobs + 0))%nat in H by lia.
  apply bind_ok in H. destruct H as ([[tbl off'] i'] & Hf & H).
  apply (table_loop page_blobs [] (184 + 16 * n) 0 0) in Hf; [|reflexivity].
  cbn [fst app] in Hf. destruct Hf as [Hok Htbl]. subst tbl.
  apply bind_ok in H. destruct H as (f1 & E1 & H). apply pack_field_inv in E1.
  destruct E1 as [_ ->].
  apply bind_ok in H. destruct H as (f2 & E2 & H). apply pack_field_inv in E2.
  destruct E2 as [_ ->].
  apply bind_ok in H. destruct H as (f3 & E3 & H). apply pack_field_inv in E3.
  destruct E3 as [Rn ->].
  apply bind_ok in H. destruct H as (f4 & E4 & H). apply pack_field_inv in E4.
  destruct E4 as [_ ->].
  apply bind_ok in H. destruct H as (f5 & E5 & H). apply pack_field_inv in E5.
  destruct E5 as [_ ->].
  apply bind_ok in H. destruct H as (f6 & E6 & H). apply pack_field_inv in E6.
  destruct E6 as [_ ->].
  apply bind_ok in H. destruct H as (f7 & E7 & H). apply pack_field_inv in E7.
  destruct E7 as [_ ->].
  apply bind_ok in H. destruct H as (f8 & E8 & H). apply pack_field_inv in E8.
  destruct E8 as [_ ->].
  apply bind_ok in H. destruct H as (f9 & E9 & H). apply pack_field_inv in E9.
  destruct E9 as [Rd ->].
  apply bind_ok in H. destruct H as (f10 & E10 & H). apply pack_field_inv in E10.
  destruct E10 as [_ ->].
  apply bind_ok in H. destruct H as (f11 & E11 & H). apply pack_field_inv in E11.
  destruct E11 as [_ ->].
  assert (Hc : c = (le_split 4 (if is_grayscale then Config.XTCH_MARK else Config.XTC_MARK)
                    ++ le_split 2 1 ++ le_split 2 n ++ le_split 4 0
                    ++ le_split 4 88 ++ le_split 4 0 ++ le_split 4 0
                    ++ le_split 8 184 ++ le_split 8 (184 + 16 * n)
                    ++ le_split 8 0 ++ le_split 4 56 ++ zeros 4)
                   ++ ljust (firstn (Z.to_nat (128 - 1))
                               (utf8_encode (md_title metadata)) ++ [Byte.x00])
                        (Z.to_nat 128)
                   ++ (table_entries (184 + 16 * n) page_blobs ++ zeros (16 * 0))
                   ++ List.concat page_blobs) by congruence.
  repeat split; try assumption; try (simpl in *; lia).
  rewrite Hc. unfold container_header, title_field.
  cbn [Nat.mul zeros repeat]. rewrite app_nil_r. reflexivity.
Qed.

Lemma le_combine_le_split_small (n : nat) (v : Z) :
  0 <= v < 2 ^ (8 * Z.of_nat n) -> le_combine (le_split n v) = v.
Proof.
  intros H. rewrite le_combine_split.
  apply Z.mod_small. now rewrite Z.mul_comm.
Qed.

Lemma slice_app_l (a b : list byte) (lo hi : nat) :
  (hi <= List.length a)%nat -> slice (a ++ b) lo hi = slice a lo hi.
Proof.
  intros H. unfold slice.
  rewrite skipn_app, firstn_app, length_skipn.
  replace (hi - lo - (List.length a - lo))%nat with 0%nat by lia.
  cbn [firstn]. apply app_nil_r.
Qed.

Lemma container_header_fields (mark n : Z) (rest : list byte) :
  slice (container_header mark n ++ rest) 6 8 = le_split 2 n
  /\ slice (container_header mark n ++ rest) 24 32 = le_split 8 184
  /\ slice (container_header mark n ++ rest) 32 40 = le_split 8 (184 + 16 * n).
Proof.
  rewrite !slice_app_l by (rewrite container_header_length; lia).
  unfold container_header.
  split; [reflexivity|]. split; reflexivity.
Qed.

Lemma entry_bytes_fields (off : Z) (blob : list byte) :
  slice (entry_bytes off blob) 0 8 = le_split 8 off
  /\ slice (entry_bytes off blob) 8 12 = le_split 4 (Z.of_nat (List.length blob))
  /\ slice (entry_bytes off blob) 12 14 = le_split 2 (blob_width blob)
  /\ slice (entry_bytes off blob) 14 16 = le_split 2 (blob_height blob).
Proof.
  unfold entry_bytes.
  split; [reflexivity|]. split; [reflexivity|]. split; reflexivity.
Qed.

Lemma size_before_succ (b : list byte) (bs : list (list byte)) (i : nat) :
  size_before (b :: bs) (S i) = Z.of_nat (List.length b) + size_before bs i.
Proof. unfold size_before. simpl. rewrite length_app. lia. Qed.

Lemma size_before_next (page_blobs : list (list byte)) (i : nat) (blob : list byte) :
  nth_error page_blobs i = Some blob ->
  size_before page_blobs (S i)
  = size_before page_blobs i + Z.of_nat (List.length blob).
Proof.
  revert i. induction page_blobs as [|b bs IH]; intros i H.
  - destruct i; discriminate.
  - destruct i as [|i].
    + injection H as ->. unfold size_before. simpl.
      rewrite app_nil_r. lia.
    + rewrite !size_before_succ, (IH i H). lia.
Qed.

(** Entry [i] of the table, with what comes before and after it. *)
Lemma table_entries_at (page_blobs : list (list byte)) :
  forall (off : Z) (i : nat) (blob : list byte),
    nth_error page_blobs i = Some blob ->
    entries_ok off page_blobs ->
    exists before after,
      table_entries off page_blobs
      = before ++ entry_bytes (off + size_before page_blobs i) blob ++ after
      /\ List.length before = (16 * i)%nat
      /\ 0 <= off + size_before page_blobs i < 2 ^ 64
      /\ (8 <= List.length blob)%nat
      /\ Z.of_nat (List.length blob) < 2 ^ 32.
Proof.
  induction page_blobs as [|b bs IH]; intros off i blob Hn Hok.
  - destruct i; discriminate.
  - destruct Hok as (R1 & R2 & R3 & Hok).
    destruct i as [|i].
    + injection Hn as ->.
      exists [], (table_entries (off + Z.of_nat (List.length blob)) bs).
      unfold size_before. simpl. rewrite Z.add_0_r. repeat split; auto; lia.
    + simpl in Hn.
      destruct (IH _ _ _ Hn Hok) as (before & after & E & Hl & R & R' & R'').
      exists (entry_bytes off b ++ before), after.
      rewrite size_before_succ.
      cbn [table_entries]. rewrite E, <- !app_assoc, Z.add_assoc.
      repeat split; auto; try lia.
      rewrite length_app, entry_bytes_length. lia.
Qed.

Lemma container_entry_slice (hd ttl data : list byte) (page_blobs : list (list byte))
    (off : Z) (i : nat) (blob : list byte) (lo hi : nat) :
  List.length hd = 56%nat -> List.length ttl = 128%nat ->
  nth_error page_blobs i = Some blob ->
  entries_ok off page_blobs ->
  (hi <= 16)%nat ->
  slice (hd ++ ttl ++ table_entries off page_blobs ++ data)
        (184 + 16 * i + lo) (184 + 16 * i + hi)
  = slice (entry_bytes (off + size_before page_blobs i) blob) lo hi.
Proof.
  intros Hh Ht Hn Hok Hhi.
  destruct (table_entries_at page_blobs off i blob Hn Hok)
    as (before & after & E & Hl & _).
  rewrite E, <- !app_assoc.
  rewrite slice_skip by lia. rewrite Hh.
  rewrite slice_skip by lia. rewrite Ht.
  rewrite slice_skip by lia. rewrite Hl.
  replace (184 + 16 * i + lo - 56 - 128 - 16 * i)%nat with lo by lia.
  replace (184 + 16 * i + hi - 56 - 128 - 16 * i)%nat with hi by lia.
  apply slice_app_l. rewrite entry_bytes_length. exact Hhi.
Qed.

(** C5.  In the container that [write_xtc_container] writes, the header
    has page-table offset 184, data offset 184 + 16 * pageCount and a page
    count equal to the number of blobs; entry [i] of the page table has
    the offset of blob [i] (the data offset plus the sizes of the blobs
    before it), the size of blob [i], which is positive, and the width and
    height stored in bytes 4 to 7 of that blob's own header; so the first
    entry starts at the data offset and the entries are contiguous and
    strictly increasing in offset. *)
Theorem write_xtc_container_table (page_blobs : list (list byte))
    (chapter_infos : list ChapterInfo) (metadata : BookMetadata)
    (is_grayscale : bool) (c : list byte) :
  write_xtc_container page_blobs chapter_infos metadata is_grayscale = Ok c ->
  hdr_page_table_offset c = 184
  /\ hdr_data_offset c = 184 + 16 * Z.of_nat (List.length page_blobs)
  /\ hdr_page_count c = Z.of_nat (List.length page_blobs)
  /\ (forall i blob,
        nth_error page_blobs i = Some blob ->
        entry_offset c i = hdr_data_offset c + size_before page_blobs i
        /\ entry_size c i = Z.of_nat (List.length blob)
        /\ 0 < entry_size c i
        /\ entry_width c i = blob_width blob
        /\ entry_height c i = blob_height blob)
  /\ (forall i,
        (S i < List.length page_blobs)%nat ->
        entry_offset c i + entry_size c i = entry_offset c (S i)
        /\ entry_offset c i < entry_offset c (S i))
  /\ ((0 < List.length page_blobs)%nat -> entry_offset c 0 = hdr_data_offset c).
Proof.
  intros H. apply write_xtc_container_inv in H.
  cbv zeta in H. destruct H as (Hok & Rn & Rd & ->).
  set (n := Z.of_nat (List.length page_blobs)) in *.
  set (mark := if is_grayscale then Config.XTCH_MARK else Config.XTC_MARK).
  destruct (container_header_fields mark n
              (title_field metadata ++ table_entries (184 + 16 * n) page_blobs
               ++ List.concat page_blobs)) as (F1 & F2 & F3).
  assert (Hpto : hdr_page_table_offset
                   (container_header mark n ++ title_field metadata
                    ++ table_entries (184 + 16 * n) page_blobs
                    ++ List.concat page_blobs) = 184).
  { unfold hdr_page_table_offset, read_le. cbn [Nat.add]. rewrite F2.
    apply le_combine_le_split_small. simpl. lia. }
  assert (Hdo : hdr_data_offset
                  (container_header mark n ++ title_field metadata
                   ++ table_entries (184 + 16 * n) page_blobs
                   ++ List.concat page_blobs) = 184 + 16 * n).
  { unfold hdr_data_offset, read_le. cbn [Nat.add]. rewrite F3.
    apply le_combine_le_split_small. exact Rd. }
  assert (Hentry : forall i blob,
    nth_error page_blobs i = Some blob ->
    entry_offset (container_header mark n ++ title_field metadata
                  ++ table_entries (184 + 16 * n) page_blobs
                  ++ List.concat page_blobs) i
    = 184 + 16 * n + size_before page_blobs i
    /\ entry_size (container_header mark n ++ title_field metadata
                   ++ table_entries (184 + 16 * n) page_blobs
                   ++ List.concat page_blobs) i
       = Z.of_nat (List.length blob)
    /\ (8 <= List.length blob)%nat
    /\ entry_width (container_header mark n ++ title_field metadata
                    ++ table_entries (184 + 16 * n) page_blobs
                    ++ List.concat page_blobs) i = blob_width blob
    /\ entry_height (container_header mark n ++ title_field metadata
                     ++ table_entries (184 + 16 * n) page_blobs
                     ++ List.concat page_blobs) i = blob_height blob).
  { intros i blob Hn.
    destruct (table_entries_at page_blobs (184 + 16 * n) i blob Hn Hok)
      as (_ & _ & _ & _ & Roff & Rlen & Rsize).
    destruct (entry_bytes_fields (184 + 16 * n + size_before page_blobs i) blob)
      as (E1 & E2 & E3 & E4).
    pose proof (container_entry_slice
                  (container_header mark n) (title_field metadata)
                  (List.concat page_blobs) page_blobs (184 + 16 * n) i blob)
      as S.
    specialize (fun lo hi => S lo hi (container_header_length mark n)
                               (title_field_length metadata) Hn Hok).
    unfold entry_offset, entry_size, entry_width, entry_height, read_le.
    repeat split.
    - replace (184 + 16 * i)%nat with (184 + 16 * i + 0)%nat at 1 by lia.
      rewrite S, E1 by lia. now apply le_combine_le_split_small.
    - replace (184 + 16 * i + 8 + 4)%nat with (184 + 16 * i + 12)%nat by lia.
      rewrite S, E2 by lia. apply le_combine_le_split_small. simpl. lia.
    - exact Rlen.
    - replace (184 + 16 * i + 12 + 2)%nat with (184 + 16 * i + 14)%nat by lia.
      rewrite S, E3 by lia. apply le_combine_le_split_small.
      apply read_le_small.
    - replace (184 + 16 * i + 14 + 2)%nat with (184 + 16 * i + 16)%nat by lia.
      rewrite S, E4 by lia. apply le_combine_le_split_small.
      apply read_le_small. }
  split; [exact Hpto|]. split; [exact Hdo|]. split.
  { unfold hdr_page_count, read_le. cbn [Nat.add]. rewrite F1.
    apply le_combine_le_split_small. exact Rn. }
  split.
  { intros i blob Hn. destruct (Hentry i blob Hn) as (A & B & C & D & E).
    rewrite Hdo, A, B. repeat split; auto. lia. }
  split.
  { intros i Hi.
    destruct (nth_error page_blobs i) as [b0|] eqn:E0;
      [|apply nth_error_None in E0; lia].
    destruct (nth_error page_blobs (S i)) as [b1|] eqn:E1;
      [|apply nth_error_None in E1; lia].
    destruct (Hentry i b0 E0) as (A0 & B0 & C0 & _).
    destruct (Hentry (S i) b1 E1) as (A1 & _).
    rewrite A0, B0, A1, (size_before_next page_blobs i b0 E0). lia. }
  { intros Hpos.
    destruct (nth_error page_blobs 0) as [b0|] eqn:E0;
      [|apply nth_error_None in E0; lia].
    destruct (Hentry 0%nat b0 E0) as (A0 & _).
    rewrite A0, Hdo. unfold size_before. simpl. lia. }
Qed.

(** *** The writer succeeds on well-formed blobs *)

Lemma table_step_ok (tbl : list byte) (off : Z) (i : nat) (blob : list byte) :
  0 <= off < 2 ^ 64 ->
  (8 <= List.length blob)%nat ->
  Z.of_nat (List.length blob) < 2 ^ 32 ->
  (16 * i + 16 <= List.length tbl)%nat ->
  exists r, table_step (Ok (tbl, off, i)) blob = Ok r.
Proof.
  intros Roff Rlen Rsize Rtbl.
  unfold table_step. cbn [bind].
  unfold unpack_IHH. rewrite length_firstn.
  replace (Nat.min 8 (List.length blob)) with 8%nat by lia.
  cbn [Nat.eqb bind].
  rewrite !slice_firstn by lia.
  change (le_combine (slice blob 4 6)) with (read_le blob 4 2).
  change (le_combine (slice blob 6 8)) with (read_le blob 6 2).
  rewrite (pack_field_ok 8 off) by exact Roff.
  rewrite (pack_field_ok 4 (Z.of_nat (List.length blob))) by (simpl; lia).
  rewrite (pack_field_ok 2 (read_le blob 4 2)) by apply read_le_small.
  rewrite (pack_field_ok 2 (read_le blob 6 2)) by apply read_le_small.
  cbn [bind]. unfold pack_into.
  rewrite !length_app, !length_le_split.
  change (Z.to_nat Config.PAGE_TABLE_ENTRY_SIZE) with 16%nat.
  destruct (Nat.leb_spec (i * 16 + (8 + (4 + (2 + 2)))) (List.length tbl)); [|lia].
  cbn [bind]. eauto.
Qed.

Lemma table_loop_ok (page_blobs : list (list byte)) :
  forall (tbl : list byte) (off : Z) (i : nat),
    Forall (fun blob => (8 <= List.length blob)%nat
                        /\ Z.of_nat (List.length blob) < 2 ^ 32) page_blobs ->
    0 <= off ->
    off + Z.of_nat (List.length (List.concat page_blobs)) < 2 ^ 64 ->
    (16 * (i + List.length page_blobs) <= List.length tbl)%nat ->
    exists r, fold_left table_step page_blobs (Ok (tbl, off, i)) = Ok r.
Proof.
  induction page_blobs as [|b bs IH]; intros tbl off i Hall H0 Hoff Htbl.
  - simpl. eauto.
  - inversion Hall as [|? ? [Hb1 Hb2] Hall']; subst.
    simpl in Hoff, Htbl. rewrite length_app in Hoff.
    destruct (table_step_ok tbl off i b) as [r Hr]; try lia.
    cbn [fold_left]. rewrite Hr.
    apply table_step_inv in Hr. destruct Hr as (_ & _ & _ & _ & ->).
    apply IH; try assumption; try lia.
    rewrite !length_app, entry_bytes_length, length_firstn, length_skipn. lia.
Qed.

Lemma concat_length_bound (page_blobs : list (list byte)) :
  Forall (fun blob => (8 <= List.length blob)%nat
                      /\ Z.of_nat (List.length blob) < 2 ^ 32) page_blobs ->
  Z.of_nat (List.length (List.concat page_blobs))
  <= Z.of_nat (List.length page_blobs) * 2 ^ 32.
Proof.
  induction 1 as [|b bs [_ Hb] _ IH]; simpl; [lia|].
  rewrite length_app. lia.
Qed.

(** [write_xtc_container] returns a container for every list of at most
    65535 blobs, each of at least 8 bytes and less than 4 GiB. *)
Lemma write_xtc_container_succeeds (page_blobs : list (list byte))
    (chapter_infos : list ChapterInfo) (metadata : BookMetadata)
    (is_grayscale : bool) :
  writable page_blobs ->
  exists c,
    write_xtc_container page_blobs chapter_infos metadata is_grayscale = Ok c.
Proof.
  intros [Hn Hall]. unfold write_xtc_container.
  change Config.XTC_HEADER_SIZE with 56.
  change Config.TITLE_MAX_SIZE with 128.
  change Config.PAGE_TABLE_ENTRY_SIZE with 16.
  pose proof (concat_length_bound page_blobs Hall) as Hsum.
  set (n := Z.of_nat (List.length page_blobs)) in *.
  destruct (table_loop_ok page_blobs (zeros (Z.to_nat (n * 16)))
              (56 + 128 + n * 16) 0 Hall) as [[[tbl off] i] Hr].
  - lia.
  - change (2 ^ 64) with (2 ^ 32 * 2 ^ 32). change (2 ^ 32) with 4294967296 in *. nia.
  - unfold zeros. rewrite repeat_length. lia.
  - rewrite Hr. cbn [bind].
    rewrite (pack_field_ok 4 (if is_grayscale then Config.XTCH_MARK else Config.XTC_MARK))
      by (destruct is_grayscale; vm_compute; split; congruence).
    rewrite (pack_field_ok 2 n)
      by (change (2 ^ (8 * Z.of_nat 2)) with 65536; lia).
    rewrite (pack_field_ok 8 (56 + 128 + n * 16))
      by (change (2 ^ (8 * Z.of_nat 8)) with 18446744073709551616; lia).
    cbn [bind].
    repeat (rewrite pack_field_ok by (vm_compute; split; congruence); cbn [bind]).
    eauto.
Qed.

(** The theorem at work on a container of two sample pages: the first
    entry ends where the second begins. *)
Lemma write_xtc_container_table_witness :
  entry_offset SampleFile.container 0 + entry_size SampleFile.container 0
  = entry_offset SampleFile.container 1.
Proof.
  assert (H : write_xtc_container SampleFile.blobs []
                (mkBookMetadata "Sample" "") true = Ok SampleFile.container)
    by (vm_compute; reflexivity).
  apply (write_xtc_container_table _ _ _ _ _ H).
  simpl. lia.
Defined.

(** ** More on pagination: page breaks, flags and chapter titles *)

Section PaginationMore.

Variable getbbox : Font -> string -> Z * Z * Z * Z.
Variable self : Paginator.

Local Notation "'step'" := (paginate_step getbbox self).
Local Notation "'run' bs" :=
  (fold_left (paginate_step getbbox self) bs init_state) (at level 10).

Lemma emit_page_blocks_nil (s : PagState) :
  st_current_page_blocks (emit_page s) = [].
Proof.
  unfold emit_page. destruct (st_current_page_blocks s) eqn:E; simpl; auto.
Qed.

Lemma emit_page_nil_id (s : PagState) :
  st_current_page_blocks s = [] -> emit_page s = s.
Proof. intros E. unfold emit_page. now rewrite E. Qed.

Lemma chapter_break_blocks_nil (s : PagState) (b : TextBlock) :
  st_current_page_blocks (chapter_break s b) = [].
Proof. unfold chapter_break. simpl. apply emit_page_blocks_nil. Qed.

(** *** The loop body, field by field *)

Lemma step_blocks (s : PagState) (b : TextBlock) :
  st_current_page_blocks (step s b)
  = if starts_page getbbox self s b then [b]
    else st_current_page_blocks s ++ [b].
Proof.
  unfold paginate_step, starts_page. cbn [st_current_page_blocks].
  destruct (_is_chapter_heading b); cbn [orb].
  - destruct (content_height self <? _);
      [rewrite emit_page_blocks_nil|rewrite chapter_break_blocks_nil]; reflexivity.
  - destruct (content_height self <? _); [|reflexivity].
    now rewrite emit_page_blocks_nil.
Qed.

Lemma step_pages (s : PagState) (b : TextBlock) :
  st_pages (step s b)
  = if flushes getbbox self s b then st_pages s ++ [make_page s]
    else st_pages s.
Proof.
  unfold paginate_step, flushes, starts_page. cbn [st_pages].
  destruct (_is_chapter_heading b); cbn [orb andb].
  - assert (E : st_pages (chapter_break s b)
                = if Str.nonempty (st_current_page_blocks s)
                  then st_pages s ++ [make_page s] else st_pages s).
    { unfold chapter_break, emit_page. cbn [st_pages].
      destruct (truthy _ && _); cbn [st_current_page_blocks];
        destruct (Str.nonempty (st_current_page_blocks s)); reflexivity. }
    destruct (content_height self <? _); [|exact E].
    rewrite emit_page_nil_id by apply chapter_break_blocks_nil. exact E.
  - destruct (content_height self <? _); cbn [andb]; [|reflexivity].
    unfold emit_page. destruct (Str.nonempty _); reflexivity.
Qed.

Lemma step_page_number (s : PagState) (b : TextBlock) :
  st_page_number (step s b)
  = if flushes getbbox self s b then st_page_number s + 1
    else st_page_number s.
Proof.
  unfold paginate_step, flushes, starts_page. cbn [st_page_number].
  destruct (_is_chapter_heading b); cbn [orb andb].
  - assert (E : st_page_number (chapter_break s b)
                = if Str.nonempty (st_current_page_blocks s)
                  then st_page_number s + 1 else st_page_number s).
    { unfold chapter_break, emit_page. cbn [st_page_number].
      destruct (truthy _ && _); cbn [st_current_page_blocks];
        destruct (Str.nonempty (st_current_page_blocks s)); reflexivity. }
    destruct (content_height self <? _); [|exact E].
    rewrite emit_page_nil_id by apply chapter_break_blocks_nil. exact E.
  - destruct (content_height self <? _); cbn [andb]; [|reflexivity].
    unfold emit_page. destruct (Str.nonempty _); reflexivity.
Qed.

Lemma step_current_chapter (s : PagState) (b : TextBlock) :
  st_current_chapter (step s b)
  = (if _is_chapter_heading b then Some (text b) else st_current_chapter s)
  /\ st_current_chapter_start (step s b)
     = (if _is_chapter_heading b then st_page_number (step s b)
        else st_current_chapter_start s).
Proof.
  unfold paginate_step.
  cbn [st_current_chapter st_current_chapter_start st_page_number].
  destruct (_is_chapter_heading b).
  - destruct (content_height self <? _).
    + rewrite emit_page_nil_id by apply chapter_break_blocks_nil.
      split; reflexivity.
    + split; reflexivity.
  - destruct (content_height self <? _); [|split; reflexivity].
    unfold emit_page. destruct (Str.nonempty _); split; reflexivity.
Qed.

Lemma step_mappings (s : PagState) (b : TextBlock) :
  st_chapter_mappings (step s b)
  = if _is_chapter_heading b && truthy (st_current_chapter s)
       && (st_current_chapter_start s <? st_page_number s)
    then st_chapter_mappings s ++
           [mkChapterMapping
              (match st_current_chapter s with Some t => t | None => EmptyString end)
              (st_current_chapter_start s) (st_page_number s - 1)]
    else st_chapter_mappings s.
Proof.
  unfold paginate_step. cbn [st_chapter_mappings].
  destruct (_is_chapter_heading b); cbn [andb].
  - assert (E : st_chapter_mappings (chapter_break s b)
                = if truthy (st_current_chapter s)
                     && (st_current_chapter_start s <? st_page_number s)
                  then st_chapter_mappings s ++
                         [mkChapterMapping
                            (match st_current_chapter s with
                             | Some t => t | None => EmptyString end)
                            (st_current_chapter_start s) (st_page_number s - 1)]
                  else st_chapter_mappings s).
    { unfold chapter_break, emit_page. cbn [st_chapter_mappings].
      destruct (truthy _ && _); cbn [st_current_page_blocks];
        destruct (Str.nonempty (st_current_page_blocks s)); reflexivity. }
    destruct (content_height self <? _); [|exact E].
    rewrite emit_page_nil_id by apply chapter_break_blocks_nil. exact E.
  - destruct (content_height self <? _); [|reflexivity].
    unfold emit_page. destruct (Str.nonempty _); reflexivity.
Qed.

(** *** Chapter headings open their page *)

Lemma heading_only_first_snoc (bs : list TextBlock) (b : TextBlock) :
  heading_only_first bs = true ->
  _is_chapter_heading b = false ->
  heading_only_first (bs ++ [b]) = true.
Proof.
  unfold heading_only_first. intros H Hb.
  destruct bs as [|a bs]; [reflexivity|]. simpl in *.
  rewrite forallb_app, H. simpl. now rewrite Hb.
Qed.

Lemma step_breaks (s : PagState) (b : TextBlock) :
  breaks_inv s -> breaks_inv (step s b).
Proof.
  intros [Hps Hcur]. unfold breaks_inv.
  rewrite step_pages, step_blocks. split.
  - destruct (flushes getbbox self s b); [|exact Hps].
    apply Forall_app. split; [exact Hps|].
    constructor; [exact Hcur|constructor].
  - destruct (starts_page getbbox self s b) eqn:E; [reflexivity|].
    apply heading_only_first_snoc; [exact Hcur|].
    unfold starts_page in E. apply orb_false_iff in E. tauto.
Qed.

Lemma run_breaks (bs : list TextBlock) : breaks_inv (run bs).
Proof.
  apply (loop_invariant getbbox self (fun _ s => breaks_inv s)).
  - split; [constructor|reflexivity].
  - intros l s b H. now apply step_breaks.
Qed.

Lemma finish_breaks (s : PagState) :
  breaks_inv s ->
  Forall (fun p => heading_only_first (blocks p) = true)
         (pages (paginate_finish s)).
Proof.
  intros [Hps Hcur]. unfold paginate_finish. cbn [pages].
  destruct (Str.nonempty _); [|exact Hps].
  apply Forall_app. split; [exact Hps|].
  constructor; [exact Hcur|constructor].
Qed.

(** X2.  A chapter-level heading is always the first block of its page:
    no page returned by [paginate] has a chapter-level heading after its
    first block. *)
Theorem chapter_heading_opens_page (content_blocks : list TextBlock) :
  Forall (fun p => forall b, In b (tl (blocks p)) -> _is_chapter_heading b = false)
         (pages (paginate getbbox self content_blocks)).
Proof.
  pose proof (finish_breaks _ (run_breaks content_blocks)) as H.
  eapply Forall_impl; [|exact H].
  intros p Hp b Hb. unfold heading_only_first in Hp.
  rewrite forallb_forall in Hp. specialize (Hp b Hb).
  now destruct (_is_chapter_heading b).
Qed.

(** *** Counting pages *)

Lemma count_headings_app (xs ys : list TextBlock) :
  count_headings (xs ++ ys) = (count_headings xs + count_headings ys)%nat.
Proof. unfold count_headings. now rewrite filter_app, length_app. Qed.

Lemma count_headings_page (bs : list TextBlock) :
  heading_only_first bs = true -> (count_headings bs <= 1)%nat.
Proof.
  unfold heading_only_first, count_headings. intros H.
  destruct bs as [|b bs]; [simpl; lia|]. simpl in H.
  assert (E : filter _is_chapter_heading bs = []).
  { clear b. induction bs as [|a bs IH]; [reflexivity|]. simpl in *.
    apply andb_true_iff in H. destruct H as [Ha H].
    destruct (_is_chapter_heading a); [discriminate|]. now apply IH. }
  simpl. destruct (_is_chapter_heading b); simpl; rewrite E; simpl; lia.
Qed.

Lemma pages_count_bounds (ps : list PageContent) :
  Forall (fun p => heading_only_first (blocks p) = true) ps ->
  Forall (fun p => blocks p <> []) ps ->
  (count_headings (all_blocks ps) <= List.length ps
   <= List.length (all_blocks ps))%nat.
Proof.
  induction ps as [|p ps IH]; intros Hh Hn.
  - unfold count_headings, all_blocks. simpl. lia.
  - inversion Hh; subst. inversion Hn; subst.
    change (all_blocks (p :: ps)) with (blocks p ++ all_blocks ps).
    rewrite count_headings_app, length_app.
    pose proof (count_headings_page _ H1).
    destruct (IH H2 H4).
    assert (1 <= List.length (blocks p))%nat.
    { destruct (blocks p); [congruence|simpl; lia]. }
    simpl. lia.
Qed.

(** X1.  [paginate] returns at least one page for each chapter-level
    heading and at most one page per block; in particular it returns no
    page exactly when the input is empty. *)
Theorem paginate_page_count (content_blocks : list TextBlock) :
  Z.of_nat (count_headings content_blocks)
  <= total_pages (paginate getbbox self content_blocks)
  <= Z.of_nat (List.length content_blocks)
  /\ (total_pages (paginate getbbox self content_blocks) = 0
      <-> content_blocks = []).
Proof.
  pose proof (finish_breaks _ (run_breaks content_blocks)) as Hb.
  destruct (finish_layout getbbox self _ (run_layout getbbox self content_blocks))
    as [Hok _].
  assert (Hne : Forall (fun p => blocks p <> [])
                  (pages (paginate getbbox self content_blocks))).
  { eapply Forall_impl; [|exact Hok]. intros p [H _]. exact H. }
  pose proof (pages_count_bounds _ Hb Hne) as HB.
  unfold paginate in HB. rewrite finish_pages, run_flow in HB.
  assert (Ht : total_pages (paginate getbbox self content_blocks)
               = Z.of_nat (List.length (pages (paginate getbbox self content_blocks))))
    by reflexivity.
  rewrite Ht. unfold paginate. split; [lia|].
  split.
  - intros H0.
    pose proof (finish_pages
                  (fold_left (paginate_step getbbox self) content_blocks init_state))
      as Hf.
    rewrite run_flow in Hf.
    destruct (pages (paginate_finish
                (fold_left (paginate_step getbbox self) content_blocks init_state)));
      [now rewrite <- Hf|simpl in H0; lia].
  - intros ->. reflexivity.
Qed.

(** *** Chapter flags *)

Lemma make_page_flags (s : PagState) :
  flags_inv s -> st_current_page_blocks s <> [] ->
  (is_chapter_start (make_page s), chapter_title (make_page s))
  = flags_of_blocks (make_page s).
Proof.
  intros (H1 & Hle & _ & Hcur) Hne.
  unfold flags_of_blocks, make_page. cbn [blocks page_number is_chapter_start chapter_title].
  destruct (st_current_page_blocks s) as [|b bs]; [congruence|].
  destruct (_is_chapter_heading b).
  - destruct Hcur as [-> ->]. now rewrite Z.eqb_refl.
  - destruct Hcur as [Hone Hmore].
    destruct (Z.eqb_spec (st_page_number s) 1) as [E|E].
    + destruct (Hone E) as [-> ->]. rewrite E. reflexivity.
    + specialize (Hmore E).
      destruct (Z.eqb_spec (st_page_number s) (st_current_chapter_start s)); [lia|].
      reflexivity.
Qed.

Lemma step_flags (s : PagState) (b : TextBlock) :
  flags_inv s -> flags_inv (step s b).
Proof.
  intros H. pose proof H as (H1 & Hle & Hps & Hcur).
  destruct (step_current_chapter s b) as [Ecc Eccs].
  unfold flags_inv.
  rewrite Ecc, Eccs, step_page_number, step_pages, step_blocks.
  unfold flushes, starts_page.
  destruct (_is_chapter_heading b) eqn:Hb; cbn [orb andb].
  - rewrite Hb. repeat split.
    + destruct (Str.nonempty _); lia.
    + lia.
    + destruct (Str.nonempty (st_current_page_blocks s)) eqn:En; [|exact Hps].
      apply Forall_app. split; [exact Hps|].
      constructor; [|constructor]. apply make_page_flags; [exact H|].
      destruct (st_current_page_blocks s); [discriminate|discriminate].
  - destruct (content_height self <? _) eqn:Hov; cbn [andb].
    + rewrite Hb.
      destruct (st_current_page_blocks s) as [|a bs] eqn:Ec; cbn [Str.nonempty].
      * destruct Hcur as (P & Q & R).
        repeat split; intros; try lia; try assumption.
      * assert (Hpg : Forall (fun p => (is_chapter_start p, chapter_title p)
                                       = flags_of_blocks p)
                        (st_pages s ++ [make_page s])).
        { apply Forall_app. split; [exact Hps|].
          constructor; [|constructor]. apply make_page_flags; [exact H|].
          rewrite Ec. discriminate. }
        repeat split; intros; try lia; try assumption.
    + destruct (st_current_page_blocks s) as [|a bs] eqn:Ec; cbn [app].
      * rewrite Hb. destruct Hcur as (P & Q & R).
        repeat split; intros; try lia; try assumption.
      * repeat split; intros; try lia; try assumption.
Qed.

Lemma run_flags (bs : list TextBlock) : flags_inv (run bs).
Proof.
  apply (loop_invariant getbbox self (fun _ s => flags_inv s)).
  - unfold flags_inv, init_state; simpl. repeat split; try lia. constructor.
  - intros l s b H. now apply step_flags.
Qed.

(** X3.  On every page returned by [paginate], [chapter_title] is set
    exactly when the page begins with a chapter-level heading, and is then
    that heading's text; [is_chapter_start] holds on those pages, and also
    on page 1 whatever it begins with. *)
Theorem paginate_page_flags (content_blocks : list TextBlock) :
  Forall (fun p =>
            match blocks p with
            | b :: _ =>
                if _is_chapter_heading b
                then is_chapter_start p = true /\ chapter_title p = Some (text b)
                else is_chapter_start p = (page_number p =? 1)
                     /\ chapter_title p = None
            | [] => False
            end)
         (pages (paginate getbbox self content_blocks)).
Proof.
  pose proof (run_flags content_blocks) as H.
  pose proof (run_layout getbbox self content_blocks) as HL.
  destruct (finish_layout getbbox self _ HL) as [Hok _].
  unfold paginate in *.
  set (s := fold_left (paginate_step getbbox self) content_blocks init_state) in *.
  assert (Hall : Forall (fun p => (is_chapter_start p, chapter_title p)
                                  = flags_of_blocks p)
                   (pages (paginate_finish s))).
  { unfold paginate_finish. cbn [pages].
    destruct (Str.nonempty (st_current_page_blocks s)) eqn:En;
      [|now destruct H as (_ & _ & Hps & _)].
    apply Forall_app. split; [now destruct H as (_ & _ & Hps & _)|].
    constructor; [|constructor]. apply make_page_flags; [exact H|].
    destruct (st_current_page_blocks s); discriminate. }
  rewrite Forall_forall in *. intros p Hp.
  specialize (Hall p Hp). destruct (Hok p Hp) as [Hne _].
  unfold flags_of_blocks in Hall.
  destruct (blocks p) as [|b bs]; [congruence|].
  destruct (_is_chapter_heading b); injection Hall as -> ->; split; reflexivity.
Qed.

(** *** Chapter titles *)

Lemma truthy_some (c : option string) :
  truthy c = true ->
  exists t, c = Some t /\ t <> EmptyString.
Proof.
  destruct c as [t|]; [|discriminate]. simpl.
  destruct t; [discriminate|]. intros _. eexists. split; [reflexivity|discriminate].
Qed.

Lemma step_titles (done : list TextBlock) (s : PagState) (b : TextBlock) :
  titles_inv done s -> titles_inv (done ++ [b]) (step s b).
Proof.
  intros (Hms & Hcc & Hcount).
  destruct (step_current_chapter s b) as [Ecc _].
  unfold titles_inv. rewrite Ecc, step_mappings, count_headings_app.
  assert (Hold : Forall (fun m => title m <> EmptyString
                          /\ exists b0, In b0 (done ++ [b])
                               /\ _is_chapter_heading b0 = true
                               /\ text b0 = title m)
                   (st_chapter_mappings s)).
  { eapply Forall_impl; [|exact Hms]. intros m (Hn & b0 & Hin & Hh & Ht).
    split; [exact Hn|]. exists b0. rewrite in_app_iff. auto. }
  unfold count_headings at 2. cbn [filter].
  destruct (_is_chapter_heading b) eqn:Hb; cbn [andb].
  - split; [|split].
    + destruct (truthy (st_current_chapter s)) eqn:Ht; cbn [andb]; [|exact Hold].
      destruct (_ <? _); [|exact Hold].
      apply Forall_app. split; [exact Hold|].
      constructor; [|constructor]. cbn [title].
      destruct (truthy_some _ Ht) as (t & Et & Hn). rewrite Et.
      split; [exact Hn|].
      destruct (Hcc t Et) as (b0 & Hin & Hh & Htx).
      exists b0. rewrite in_app_iff. auto.
    + intros t Et. injection Et as <-. exists b.
      rewrite in_app_iff. simpl. auto.
    + cbn [List.length].
      destruct (truthy (st_current_chapter s)); cbn [andb].
      * destruct (_ <? _); [rewrite length_app; cbn [List.length]|];
          destruct (truthy (Some (text b))); lia.
      * destruct (truthy (Some (text b))); lia.
  - split; [exact Hold|]. split.
    + intros t Et. destruct (Hcc t Et) as (b0 & Hin & Hh & Htx).
      exists b0. rewrite in_app_iff. auto.
    + cbn [List.length]. lia.
Qed.

Lemma run_titles (bs : list TextBlock) : titles_inv bs (run bs).
Proof.
  apply (loop_invariant getbbox self titles_inv).
  - unfold titles_inv, init_state; simpl. repeat split; try lia.
    + constructor.
    + intros t Ht. discriminate.
  - intros l s b H. now apply step_titles.
Qed.

(** X4.  Every chapter mapping returned by [paginate] is named after a
    chapter-level heading of the input with a non-empty text, and there
    are at most as many mappings as chapter-level headings. *)
Theorem chapter_titles_from_headings (content_blocks : list TextBlock) :
  Forall (fun m => title m <> EmptyString
                   /\ exists b, In b content_blocks
                                /\ _is_chapter_heading b = true
                                /\ text b = title m)
         (chapters (paginate getbbox self content_blocks))
  /\ (List.length (chapters (paginate getbbox self content_blocks))
      <= count_headings content_blocks)%nat.
Proof.
  destruct (run_titles content_blocks) as (Hms & Hcc & Hcount).
  unfold paginate. rewrite finish_chapters.
  set (s := fold_left (paginate_step getbbox self) content_blocks init_state) in *.
  destruct (truthy (st_current_chapter s)) eqn:Ht.
  - destruct (truthy_some _ Ht) as (t & Et & Hn). split.
    + apply Forall_app. split; [exact Hms|].
      constructor; [|constructor]. rewrite Et. cbn [title].
      split; [exact Hn|]. exact (Hcc t Et).
    + rewrite length_app. cbn [List.length]. lia.
  - split; [exact Hms|lia].
Qed.

End PaginationMore.

(** ** The table of contents *)

Lemma flatten_entry_eq (e : TOCEntry) :
  flatten_entry e = e :: flatten_toc (children_of e).
Proof.
  destruct e as [t h l cs]. reflexivity.
Qed.

(** The loop of [flatten_toc], one entry at a time. *)
Lemma flatten_toc_cons (e : TOCEntry) (rest : list TOCEntry) :
  flatten_toc (e :: rest)
  = e :: (if Str.nonempty (children_of e) then flatten_toc (children_of e) else [])
      ++ flatten_toc rest.
Proof.
  unfold flatten_toc at 1. cbn [flat_map]. rewrite flatten_entry_eq.
  fold (flatten_toc rest).
  destruct (children_of e); reflexivity.
Qed.

Lemma toc_entry_size_eq (e : TOCEntry) :
  toc_entry_size e = S (toc_size (children_of e)).
Proof.
  destruct e as [t h l cs]. cbn [toc_entry_size children_of]. f_equal.
  unfold toc_size. induction cs as [|c cs IH]; [reflexivity|].
  change (list_sum (map toc_entry_size (c :: cs)))
    with (toc_entry_size c + list_sum (map toc_entry_size cs))%nat.
  rewrite <- IH. reflexivity.
Qed.

(** Induction on a table of contents: a property of entry lists that
    holds of the empty list and passes from the children of an entry and
    the rest of a list to the whole list. *)
Lemma toc_ind (P : list TOCEntry -> Prop) :
  P [] ->
  (forall e rest, P (children_of e) -> P rest -> P (e :: rest)) ->
  forall entries, P entries.
Proof.
  intros Hnil Hcons.
  assert (Hentry : forall e, P (children_of e)).
  { refine (fix go (e : TOCEntry) : P (children_of e) :=
              match e with
              | mkTOCEntry _ _ _ cs =>
                  (fix go_list (es : list TOCEntry) : P es :=
                     match es with
                     | [] => Hnil
                     | c :: rest => Hcons c rest (go c) (go_list rest)
                     end) cs
              end). }
  induction entries as [|e rest IH]; [exact Hnil|].
  apply Hcons; [apply Hentry|exact IH].
Qed.

Lemma flatten_toc_app (xs ys : list TOCEntry) :
  flatten_toc (xs ++ ys) = flatten_toc xs ++ flatten_toc ys.
Proof. unfold flatten_toc. apply flat_map_app. Qed.

Lemma toc_size_cons (e : TOCEntry) (rest : list TOCEntry) :
  toc_size (e :: rest) = (S (toc_size (children_of e)) + toc_size rest)%nat.
Proof.
  change (toc_size (e :: rest)) with (toc_entry_size e + toc_size rest)%nat.
  now rewrite toc_entry_size_eq.
Qed.

Lemma flatten_toc_unfold (e : TOCEntry) (rest : list TOCEntry) :
  flatten_toc (e :: rest) = e :: flatten_toc (children_of e) ++ flatten_toc rest.
Proof.
  rewrite flatten_toc_cons. destruct (children_of e); reflexivity.
Qed.

(** X5.  [flatten_toc] lists every entry of the table of contents, nested
    ones included, each once per occurrence: its length is the number of
    entries; it contains the top-level entries and, with an entry, that
    entry's children; and an entry comes before its descendants, which
    come before the entries that follow it. *)
Theorem flatten_toc_complete (entries : list TOCEntry) :
  List.length (flatten_toc entries) = toc_size entries
  /\ incl entries (flatten_toc entries)
  /\ (forall e, In e (flatten_toc entries) ->
                incl (children_of e) (flatten_toc entries))
  /\ (forall e rest, entries = e :: rest ->
                     flatten_toc entries
                     = e :: flatten_toc (children_of e) ++ flatten_toc rest).
Proof.
  split; [|split; [|split]].
  - induction entries as [|e rest IHc IHr] using toc_ind; [reflexivity|].
    rewrite flatten_toc_unfold, toc_size_cons. cbn [List.length].
    rewrite length_app, IHc, IHr. reflexivity.
  - induction entries as [|e rest IHc IHr] using toc_ind; [apply incl_nil_l|].
    rewrite flatten_toc_unfold. intros x [<-|Hx]; [now left|].
    right. apply in_or_app. right. now apply IHr.
  - induction entries as [|e rest IHc IHr] using toc_ind; [intros e []|].
    rewrite flatten_toc_unfold. intros x [<-|Hx] y Hy.
    + right. apply in_or_app. left.
      assert (H : incl (children_of e) (flatten_toc (children_of e))).
      { clear. induction (children_of e) as [|c cs IHc IHr] using toc_ind;
          [apply incl_nil_l|].
        rewrite flatten_toc_unfold. intros x [<-|Hx]; [now left|].
        right. apply in_or_app. right. now apply IHr. }
      now apply H.
    + right. apply in_app_or in Hx. apply in_or_app.
      destruct Hx as [Hx|Hx]; [left; now apply (IHc x)|right; now apply (IHr x)].
  - intros e rest ->. apply flatten_toc_unfold.
Qed.

(** ** More on line wrapping *)

Section WrapMore.

Variable getbbox : Font -> string -> Z * Z * Z * Z.
Variable font : Font.
Variable max_width : Z.

Local Notation "'wstep'" := (word_step getbbox font max_width).
Local Notation "'cstep'" := (char_step getbbox font max_width).

(** *** When every word fits *)

Lemma word_step_grouped (ws : list string) (st : list string * list string)
    (w : string) :
  fits getbbox font max_width w ->
  grouped getbbox font max_width ws st ->
  grouped getbbox font max_width (ws ++ [w]) (wstep st w).
Proof.
  intros Hw (groups & Hl & Hne & Hc & Hfit & Hcur).
  destruct st as [lines cur]. cbn [fst snd] in *.
  unfold word_step.
  destruct (Z.leb_spec (fst (measure_text getbbox (Str.join " " (cur ++ [w])) font))
              max_width) as [Hle|Hgt].
  - exists groups. cbn [fst snd]. repeat split; auto.
    now rewrite app_assoc, Hc.
  - destruct (Z.ltb_spec max_width (fst (measure_text getbbox w font))) as [Hwide|_].
    { unfold fits in Hw. lia. }
    destruct cur as [|c cur].
    + exists groups. cbn [fst snd Str.nonempty]. repeat split; auto.
      * rewrite app_nil_r in Hc. now rewrite Hc.
    + exists (groups ++ [c :: cur]). cbn [fst snd Str.nonempty].
      repeat split.
      * now rewrite map_app, Hl.
      * apply Forall_app. split; [exact Hne|]. constructor; [discriminate|constructor].
      * rewrite concat_app. simpl. rewrite app_nil_r. now rewrite Hc.
      * apply Forall_app. split; [exact Hfit|].
        constructor; [apply Hcur; discriminate|constructor].
      * intros _. exact Hw.
Qed.

Lemma word_loop_grouped (ws : list string) :
  forall (done : list string) (st : list string * list string),
    Forall (fits getbbox font max_width) ws ->
    grouped getbbox font max_width done st ->
    grouped getbbox font max_width (done ++ ws) (fold_left wstep ws st).
Proof.
  induction ws as [|w ws IH]; intros done st Hall Hg.
  - now rewrite app_nil_r.
  - inversion Hall; subst. cbn [fold_left].
    replace (done ++ w :: ws) with ((done ++ [w]) ++ ws)
      by (now rewrite <- app_assoc).
    apply IH; [assumption|]. now apply word_step_grouped.
Qed.

Lemma wrap_text_grouping (txt : string) :
  Forall (fits getbbox font max_width) (Str.split txt) ->
  exists groups,
    wrap_text getbbox txt font max_width = map (Str.join " ") groups
    /\ Forall (fun g => g <> []) groups
    /\ List.concat groups = Str.split txt
    /\ Forall (fits getbbox font max_width)
              (wrap_text getbbox txt font max_width).
Proof.
  intros Hall. unfold wrap_text.
  destruct (Str.is_empty txt) eqn:Ee.
  { destruct txt; [|discriminate]. exists []. repeat split; constructor. }
  destruct (Str.split txt) as [|w0 ws0] eqn:Es.
  { exists []. repeat split; constructor. }
  cbn [Str.nonempty negb]. rewrite <- Es in *.
  assert (G0 : grouped getbbox font max_width [] ([], [])).
  { exists []. cbn. repeat split; try constructor. intros H. congruence. }
  pose proof (word_loop_grouped (Str.split txt) [] ([], []) Hall G0) as G.
  cbn [app] in G.
  destruct (fold_left wstep (Str.split txt) ([], [])) as [lines cur].
  destruct G as (groups & Hl & Hne & Hc & Hfit & Hcur). cbn [fst snd] in *.
  destruct cur as [|c cur]; cbn [Str.nonempty].
  - exists groups. rewrite app_nil_r in Hc. repeat split; auto.
  - exists (groups ++ [c :: cur]). repeat split.
    + now rewrite map_app, Hl.
    + apply Forall_app. split; [exact Hne|]. constructor; [discriminate|constructor].
    + rewrite concat_app. simpl. now rewrite app_nil_r.
    + apply Forall_app. split; [exact Hfit|].
      constructor; [apply Hcur; discriminate|constructor].
Qed.

(** X6.  When every word of the text fits the width on its own,
    [wrap_text] loses nothing and overflows nowhere: its lines are groups
    of consecutive words of the text, in order, joined by single spaces,
    and every line fits the width. *)
Theorem wrap_text_keeps_words (txt : string) :
  Forall (fits getbbox font max_width) (Str.split txt) ->
  exists groups,
    wrap_text getbbox txt font max_width = map (Str.join " ") groups
    /\ Forall (fun g => g <> []) groups
    /\ List.concat groups = Str.split txt
    /\ Forall (fits getbbox font max_width)
              (wrap_text getbbox txt font max_width).
Proof. apply wrap_text_grouping. Qed.

(** *** No blank line *)

Lemma join_nonblank (sep : string) (l : list string) :
  l <> [] -> Forall (fun w => w <> EmptyString) l ->
  Str.join sep l <> EmptyString.
Proof.
  intros Hne Hall. destruct l as [|x xs]; [congruence|].
  inversion Hall; subst. unfold Str.join. cbn [String.concat].
  destruct xs; [assumption|].
  destruct x; [congruence|]. discriminate.
Qed.

Lemma chars_nonblank (w : string) :
  Forall (fun c => c <> EmptyString) (Str.chars w).
Proof. induction w; simpl; constructor; [discriminate|assumption]. Qed.

Lemma removelast_Forall {A : Type} (P : A -> Prop) (l : list A) :
  Forall P l -> Forall P (removelast l).
Proof.
  induction 1 as [|a l Ha Hl IH]; simpl; [constructor|].
  destruct l; [constructor|]. constructor; assumption.
Qed.

Lemma char_step_no_blank (st : list string * list string) (ch : string) :
  ch <> EmptyString -> no_blank st ->
  no_blank (cstep st ch) /\ snd (cstep st ch) <> [].
Proof.
  intros Hch [Hl Hc]. destruct st as [lines cc]. cbn [fst snd] in *.
  unfold char_step. destruct (_ <=? max_width).
  - split; [split|]; cbn [fst snd].
    + exact Hl.
    + apply Forall_app. split; [exact Hc|]. constructor; [exact Hch|constructor].
    + destruct cc; discriminate.
  - split; [split|]; cbn [fst snd].
    + destruct cc as [|x xs]; cbn [Str.nonempty]; [exact Hl|].
      apply Forall_app. split; [exact Hl|].
      constructor; [|constructor]. apply join_nonblank; [discriminate|exact Hc].
    + constructor; [exact Hch|constructor].
    + discriminate.
Qed.

Lemma char_loop_no_blank (chs : list string) (st : list string * list string) :
  Forall (fun c => c <> EmptyString) chs -> no_blank st ->
  no_blank (fold_left cstep chs st)
  /\ (chs <> [] -> snd (fold_left cstep chs st) <> []).
Proof.
  revert st. induction chs as [|ch chs IH]; intros st Hall Hst.
  - split; [exact Hst|congruence].
  - inversion Hall; subst. cbn [fold_left].
    destruct (char_step_no_blank st ch H1 Hst) as [Hnb Hne].
    destruct (IH _ H2 Hnb) as [Hnb' Hne'].
    split; [exact Hnb'|]. intros _.
    destruct chs as [|c2 chs]; [exact Hne|]. apply Hne'. discriminate.
Qed.

Lemma word_step_no_blank (st : list string * list string) (w : string) :
  w <> EmptyString -> no_blank st ->
  no_blank (wstep st w) /\ snd (wstep st w) <> [].
Proof.
  intros Hw [Hl Hc]. destruct st as [lines cur]. cbn [fst snd] in *.
  unfold word_step. destruct (_ <=? max_width).
  - split; [split|]; cbn [fst snd].
    + exact Hl.
    + apply Forall_app. split; [exact Hc|]. constructor; [exact Hw|constructor].
    + destruct cur; discriminate.
  - set (lines1 := if Str.nonempty cur then lines ++ [Str.join " " cur] else lines).
    assert (H1 : Forall (fun l => l <> EmptyString) lines1).
    { subst lines1. destruct cur as [|x xs]; cbn [Str.nonempty]; [exact Hl|].
      apply Forall_app. split; [exact Hl|].
      constructor; [|constructor]. apply join_nonblank; [discriminate|exact Hc]. }
    destruct (max_width <? _).
    + set (lines2 := if Str.nonempty lines1 && _ then removelast lines1 else lines1).
      assert (H2 : Forall (fun l => l <> EmptyString) lines2).
      { subst lines2. destruct (Str.nonempty lines1 && _); [|exact H1].
        now apply removelast_Forall. }
      assert (Hch : Str.chars w <> []) by (destruct w; [congruence|discriminate]).
      destruct (char_loop_no_blank (Str.chars w) (lines2, [])
                  (chars_nonblank w)) as [[Hl3 Hc3] Hne3].
      { split; [exact H2|constructor]. }
      specialize (Hne3 Hch).
      destruct (fold_left cstep (Str.chars w) (lines2, [])) as [lines3 cc].
      cbn [fst snd] in *.
      destruct cc as [|x xs]; [congruence|]. cbn [Str.nonempty].
      split; [split|]; cbn [fst snd].
      * exact Hl3.
      * constructor; [|constructor]. apply join_nonblank; [discriminate|exact Hc3].
      * discriminate.
    + split; [split|]; cbn [fst snd].
      * exact H1.
      * constructor; [exact Hw|constructor].
      * discriminate.
Qed.

Lemma word_loop_no_blank (ws : list string) (st : list string * list string) :
  Forall (fun w => w <> EmptyString) ws -> no_blank st ->
  no_blank (fold_left wstep ws st)
  /\ (ws <> [] -> snd (fold_left wstep ws st) <> []).
Proof.
  revert st. induction ws as [|w ws IH]; intros st Hall Hst.
  - split; [exact Hst|congruence].
  - inversion Hall; subst. cbn [fold_left].
    destruct (word_step_no_blank st w H1 Hst) as [Hnb Hne].
    destruct (IH _ H2 Hnb) as [Hnb' Hne'].
    split; [exact Hnb'|]. intros _.
    destruct ws as [|w2 ws]; [exact Hne|]. apply Hne'. discriminate.
Qed.

Lemma wrap_text_lines (txt : string) :
  Forall (fun l => l <> EmptyString) (wrap_text getbbox txt font max_width)
  /\ (wrap_text getbbox txt font max_width = [] <-> Str.split txt = []).
Proof.
  unfold wrap_text.
  destruct (Str.is_empty txt) eqn:Ee.
  { destruct txt; [|discriminate]. split; [constructor|]. split; reflexivity. }
  destruct (Str.split txt) as [|w0 ws0] eqn:Es.
  { split; [constructor|]. split; reflexivity. }
  cbn [Str.nonempty negb]. rewrite <- Es.
  destruct (word_loop_no_blank (Str.split txt) ([], [])
              (split_from_nonempty txt EmptyString)) as [[Hl Hc] Hne].
  { split; constructor. }
  assert (Hs : Str.split txt <> []) by (rewrite Es; discriminate).
  specialize (Hne Hs).
  destruct (fold_left wstep (Str.split txt) ([], [])) as [lines cur].
  cbn [fst snd] in *.
  destruct cur as [|x xs]; [congruence|]. cbn [Str.nonempty].
  split.
  - apply Forall_app. split; [exact Hl|].
    constructor; [|constructor]. apply join_nonblank; [discriminate|exact Hc].
  - split; [|congruence].
    intros H. apply app_eq_nil in H. destruct H as [_ H]. discriminate.
Qed.

(** X7.  [wrap_text] never returns an empty line, and it returns no line
    at all exactly when the text has no word (it is empty or all
    whitespace). *)
Theorem wrap_text_no_blank_line (txt : string) :
  Forall (fun l => l <> EmptyString) (wrap_text getbbox txt font max_width)
  /\ (wrap_text getbbox txt font max_width = [] <-> Str.split txt = []).
Proof. apply wrap_text_lines. Qed.

Lemma split_from_cons (cur : string) (c : ascii) (rest : string) :
  Str.split_from cur (String c rest)
  = if Str.isspace c
    then (if Str.is_empty cur then Str.split_from EmptyString rest
          else cur :: Str.split_from EmptyString rest)
    else Str.split_from (cur ++ String c EmptyString) rest.
Proof. reflexivity. Qed.

(** X8.  [wrap_text] can lose a word: when a one-character word is wider
    than the width, two such words in a row give a single line holding one
    of them. *)
Theorem wrap_text_drops_repeated_wide_char (c : ascii) :
  Str.isspace c = false ->
  max_width < fst (measure_text getbbox (String c EmptyString) font) ->
  max_width < fst (measure_text getbbox
                     (String c (String " " (String c EmptyString))) font) ->
  wrap_text getbbox (String c (String " " (String c EmptyString))) font max_width
  = [String c EmptyString].
Proof.
  intros Hc H1 H2.
  assert (Es : Str.split (String c (String " " (String c EmptyString)))
               = [String c EmptyString; String c EmptyString]).
  { unfold Str.split.
    rewrite split_from_cons, Hc. cbn [append].
    rewrite split_from_cons. change (Str.isspace " ") with true.
    cbv iota. cbn [Str.is_empty].
    rewrite split_from_cons, Hc. reflexivity. }
  unfold wrap_text. rewrite Es. cbn [Str.is_empty Str.nonempty negb fold_left].
  assert (W1 : wstep ([], []) (String c EmptyString)
               = ([], [String c EmptyString])).
  { unfold word_step. cbn [app Str.join String.concat Str.nonempty andb].
    destruct (Z.leb_spec (fst (measure_text getbbox (String c EmptyString) font))
                max_width); [lia|].
    destruct (Z.ltb_spec max_width
                (fst (measure_text getbbox (String c EmptyString) font))); [|lia].
    cbn [Str.chars fold_left]. unfold char_step.
    cbn [app Str.join String.concat Str.nonempty].
    destruct (Z.leb_spec (fst (measure_text getbbox (String c EmptyString) font))
                max_width); [lia|].
    reflexivity. }
  rewrite W1.
  unfold word_step. cbn [app Str.join String.concat Str.nonempty andb].
  change (String c EmptyString ++ " " ++ String c EmptyString)%string
    with (String c (String " " (String c EmptyString))).
  destruct (Z.leb_spec
              (fst (measure_text getbbox
                      (String c (String " " (String c EmptyString))) font))
              max_width); [lia|].
  destruct (Z.ltb_spec max_width
              (fst (measure_text getbbox (String c EmptyString) font))); [|lia].
  cbn [last]. rewrite String.eqb_refl. cbn [removelast].
  cbn [Str.chars fold_left]. unfold char_step.
  cbn [app Str.join String.concat Str.nonempty].
  destruct (Z.leb_spec (fst (measure_text getbbox (String c EmptyString) font))
              max_width); [lia|].
  reflexivity.
Qed.

End WrapMore.

(** The theorem at work: four words of three characters at 10 pixels per
    character fit a width of 75 one by one, and wrap two per line. *)
Lemma wrap_text_keeps_words_witness :
  exists groups,
    wrap_text Sample.getbbox "aaa bbb  ccc ddd" (mkFont "serif.ttf" 34) 75
    = map (Str.join " ") groups
    /\ Forall (fun g => g <> []) groups
    /\ List.concat groups = Str.split "aaa bbb  ccc ddd"
    /\ Forall (fits Sample.getbbox (mkFont "serif.ttf" 34) 75)
              (wrap_text Sample.getbbox "aaa bbb  ccc ddd" (mkFont "serif.ttf" 34) 75).
Proof.
  apply (wrap_text_keeps_words Sample.getbbox (mkFont "serif.ttf" 34) 75).
  assert (E : Str.split "aaa bbb  ccc ddd" = ["aaa"; "bbb"; "ccc"; "ddd"]%string)
    by reflexivity.
  rewrite E.
  assert (F : forall s, (String.length s <= 7)%nat ->
                        fits Sample.getbbox (mkFont "serif.ttf" 34) 75 s).
  { intros s Hs. unfold fits, measure_text, Sample.getbbox. cbn [fst]. lia. }
  repeat (apply Forall_cons; [apply F; simpl; lia|]).
  apply Forall_nil.
Defined.

(** The theorem at work: "a a" with 10 pixels per character and a width
    of 5 wraps to the single line "a". *)
Lemma wrap_text_drops_repeated_wide_char_witness :
  wrap_text Sample.getbbox "a a" (mkFont "serif.ttf" 34) 5 = ["a"%string].
Proof.
  apply (wrap_text_drops_repeated_wide_char Sample.getbbox
           (mkFont "serif.ttf" 34) 5 "a"%char).
  - reflexivity.
  - unfold measure_text, Sample.getbbox. simpl. lia.
  - unfold measure_text, Sample.getbbox. simpl. lia.
Defined.

(** ** Drawing a page *)

Section RenderFacts.

Variable getbbox : Font -> string -> Z * Z * Z * Z.
Variable self : TextRenderer.

Local Notation "'cw'" :=
  (Config.DISPLAY_WIDTH - Config.MARGIN_LEFT - Config.MARGIN_RIGHT).

Lemma draw_lines_spec (x lh : Z) (font : Font) (lines : list string) :
  forall (ops : list DrawOp) (y : Z),
    exists new,
      fold_left (draw_line x lh font) lines (ops, y)
      = (ops ++ new, y + Z.of_nat (List.length lines) * lh)
      /\ map op_text new = lines
      /\ Forall (fun op => op_x op = x /\ op_font op = font /\ op_fill op = 0) new
      /\ (0 <= lh ->
          Forall (fun op => y <= op_y op
                            /\ op_y op + lh <= y + Z.of_nat (List.length lines) * lh)
                 new).
Proof.
  induction lines as [|l lines IH]; intros ops y.
  - exists []. cbn [fold_left List.length]. rewrite app_nil_r.
    repeat split; [f_equal; lia|constructor|constructor].
  - cbn [fold_left draw_line].
    destruct (IH (ops ++ [mkDrawOp x y l 0 font]) (y + lh))
      as (new & E & Ht & Hx & Hy).
    exists (mkDrawOp x y l 0 font :: new). rewrite E. split; [|split; [|split]].
    + rewrite <- app_assoc. cbn [app List.length]. f_equal. lia.
    + cbn [map op_text]. now rewrite Ht.
    + constructor; [repeat split|exact Hx].
    + intros Hlh. specialize (Hy Hlh). constructor.
      * cbn [op_y List.length]. split; nia.
      * eapply Forall_impl; [|exact Hy]. cbn [List.length].
        intros op (A & B). split; nia.
Qed.

Lemma draw_block_spec (b : TextBlock) (ops : list DrawOp) (y : Z) :
  exists new,
    draw_block getbbox self cw (ops, y) b
    = (ops ++ new, y + estimate_block_height getbbox self b cw)
    /\ map op_text new
       = wrap_text getbbox (text b) (get_font_for_style self (style b))
           (cw - indent (style b))
    /\ Forall (fun op => op_x op = Config.MARGIN_LEFT + indent (style b)
                         /\ op_font op = get_font_for_style self (style b)
                         /\ op_fill op = 0) new
    /\ (0 <= line_height_of (_get_font_size_for_style self (style b)) ->
        Forall (fun op => y <= op_y op
                          /\ op_y op + line_height_of (size (op_font op))
                             <= y + estimate_block_height getbbox self b cw) new).
Proof.
  unfold draw_block, estimate_block_height.
  set (font := get_font_for_style self (style b)).
  set (lines := wrap_text getbbox (text b) font (cw - indent (style b))).
  set (lh := line_height_of (_get_font_size_for_style self (style b))).
  destruct (draw_lines_spec (Config.MARGIN_LEFT + indent (style b)) lh font lines ops y)
    as (new & E & Ht & Hx & Hy).
  exists new. rewrite E. split; [|split; [|split]].
  - f_equal. lia.
  - exact Ht.
  - exact Hx.
  - intros Hlh. specialize (Hy Hlh).
    rewrite Forall_forall in *. intros op Hin.
    destruct (Hx op Hin) as (_ & C & _). destruct (Hy op Hin) as (A & B).
    rewrite C.
    assert (Es : size font = _get_font_size_for_style self (style b)) by reflexivity.
    rewrite Es. fold lh. unfold Config.PARAGRAPH_SPACING. split; lia.
Qed.

Lemma estimate_nonneg (b : TextBlock) :
  0 <= line_height_of (_get_font_size_for_style self (style b)) ->
  0 <= estimate_block_height getbbox self b cw.
Proof.
  intros H. unfold estimate_block_height. cbv zeta.
  apply Z.add_nonneg_nonneg; [|unfold Config.PARAGRAPH_SPACING; lia].
  apply Z.mul_nonneg_nonneg; [lia|exact H].
Qed.

Lemma render_blocks_spec (bs : list TextBlock) :
  forall (ops : list DrawOp) (y : Z),
    exists new,
      fold_left (draw_block getbbox self cw) bs (ops, y)
      = (ops ++ new,
         y + fold_right (fun b acc => estimate_block_height getbbox self b cw + acc) 0 bs)
      /\ map op_text new = page_lines getbbox self bs
      /\ (Forall (fun b => 0 <= line_height_of (_get_font_size_for_style self (style b)))
                 bs ->
          Forall (fun op =>
                    y <= op_y op
                    /\ op_y op + line_height_of (size (op_font op))
                       <= y + fold_right
                                (fun b acc => estimate_block_height getbbox self b cw + acc)
                                0 bs) new).
Proof.
  induction bs as [|b bs IH]; intros ops y.
  - exists []. cbn [fold_left fold_right]. rewrite app_nil_r.
    repeat split; [f_equal; lia|constructor].
  - cbn [fold_left fold_right].
    destruct (draw_block_spec b ops y) as (n1 & E1 & T1 & _ & Y1). rewrite E1.
    destruct (IH (ops ++ n1) (y + estimate_block_height getbbox self b cw))
      as (n2 & E2 & T2 & Y2).
    exists (n1 ++ n2). rewrite E2. split; [|split].
    + rewrite <- app_assoc. f_equal. lia.
    + rewrite map_app, T1, T2. reflexivity.
    + intros Hall. inversion Hall; subst.
      specialize (Y1 H1). specialize (Y2 H2).
      assert (Hnn : 0 <= fold_right
                          (fun b acc => estimate_block_height getbbox self b cw + acc)
                          0 bs).
      { clear - H2. induction H2 as [|c cs Hc _ IHc]; cbn [fold_right]; [lia|].
        pose proof (estimate_nonneg c Hc). lia. }
      pose proof (estimate_nonneg b H1) as Hb.
      apply Forall_app. split.
      * eapply Forall_impl; [|exact Y1]. intros op (A & B). split; lia.
      * eapply Forall_impl; [|exact Y2]. intros op (A & B). split; lia.
Qed.

Lemma render_blocks_ops (bs : list TextBlock) :
  forall (ops : list DrawOp) (y : Z),
    exists new y',
      fold_left (draw_block getbbox self cw) bs (ops, y) = (ops ++ new, y')
      /\ Forall (fun op =>
                   exists b, In b bs
                     /\ op_x op = Config.MARGIN_LEFT + indent (style b)
                     /\ op_font op = get_font_for_style self (style b)
                     /\ In (op_text op)
                           (wrap_text getbbox (text b)
                              (get_font_for_style self (style b))
                              (cw - indent (style b)))) new.
Proof.
  induction bs as [|b bs IH]; intros ops y.
  - exists [], y. cbn [fold_left]. rewrite app_nil_r. split; [reflexivity|constructor].
  - cbn [fold_left].
    destruct (draw_block_spec b ops y) as (n1 & E1 & T1 & X1 & _). rewrite E1.
    destruct (IH (ops ++ n1) (y + estimate_block_height getbbox self b cw))
      as (n2 & y' & E2 & H2).
    exists (n1 ++ n2), y'. rewrite E2, <- app_assoc. split; [reflexivity|].
    apply Forall_app. split.
    + rewrite Forall_forall in *. intros op Hin.
      destruct (X1 op Hin) as (A & B & _).
      exists b. repeat split; [now left|exact A|exact B|].
      rewrite <- T1. now apply in_map.
    + eapply Forall_impl; [|exact H2].
      intros op (b0 & Hin & A & B & C). exists b0.
      repeat split; [now right|exact A|exact B|exact C].
Qed.

(** X9.  [render_page] advances its cursor by exactly the heights the
    paginator estimated: after the blocks of a page the cursor stands at
    the top margin plus the sum of their estimated heights, and the lines
    drawn are the wrapped lines of the blocks, in order, followed by the
    page number. *)
Theorem render_page_matches_estimate (bs : list TextBlock) (page_number : Z)
    (total_pages : option Z) :
  snd (render_blocks getbbox self bs)
  = Config.MARGIN_TOP + sum_heights getbbox (Paginator_init self) bs
  /\ map op_text (render_page getbbox self bs page_number total_pages)
     = page_lines getbbox self bs
       ++ [op_text (_render_page_number getbbox self page_number total_pages)].
Proof.
  unfold render_page, render_blocks.
  destruct (render_blocks_spec bs [] Config.MARGIN_TOP) as (new & E & T & _).
  rewrite E. cbn [fst snd app]. split; [reflexivity|].
  rewrite map_app, T. reflexivity.
Qed.

End RenderFacts.


(** ** Line heights and heading sizes by evaluation *)

Lemma line_heights_checked : forallb line_height_checked (seq 0 2001) = true.
Proof. vm_compute. reflexivity. Qed.

Lemma heading_sizes_all_checked : forallb heading_sizes_checked (seq 0 1001) = true.
Proof. vm_compute. reflexivity. Qed.

Lemma line_height_bounds (fs : Z) :
  0 <= fs <= 2000 ->
  0 <= line_height_of fs /\ 7 * fs / 5 - 1 <= line_height_of fs <= 7 * fs / 5.
Proof.
  intros H.
  pose proof line_heights_checked as C. rewrite forallb_forall in C.
  specialize (C (Z.to_nat fs)).
  assert (Hin : In (Z.to_nat fs) (seq 0 2001)) by (apply in_seq; lia).
  specialize (C Hin). unfold line_height_checked in C.
  rewrite Z2Nat.id in C by lia. cbv zeta in C.
  apply andb_true_iff in C. destruct C as [C C3].
  apply andb_true_iff in C. destruct C as [C1 C2].
  apply Z.leb_le in C1, C2, C3. lia.
Qed.

Lemma heading_size_bounds (base level sz : Z) :
  0 <= base <= 1000 ->
  dict_get (Config.get_heading_sizes base) level = Some sz ->
  0 <= sz <= 2 * base.
Proof.
  intros H Hget.
  pose proof heading_sizes_all_checked as C. rewrite forallb_forall in C.
  specialize (C (Z.to_nat base)).
  assert (Hin : In (Z.to_nat base) (seq 0 1001)) by (apply in_seq; lia).
  specialize (C Hin). unfold heading_sizes_checked in C.
  rewrite Z2Nat.id in C by lia. rewrite forallb_forall in C.
  assert (Hmem : In (level, sz) (Config.get_heading_sizes base)).
  { clear C. induction (Config.get_heading_sizes base) as [|[k v] l IH];
      [discriminate|]. cbn [dict_get] in Hget.
    destruct (Z.eqb_spec k level) as [->|Hne].
    - injection Hget as ->. now left.
    - right. now apply IH. }
  specialize (C _ Hmem). cbn [snd] in C.
  apply andb_true_iff in C. destruct C as [C1 C2].
  apply Z.leb_le in C1, C2. lia.
Qed.

Lemma style_line_height_nonneg (self : TextRenderer) (st : TextStyle) :
  0 <= base_font_size self <= 1000 ->
  0 <= line_height_of (_get_font_size_for_style self st).
Proof.
  intros H. apply line_height_bounds.
  unfold _get_font_size_for_style.
  destruct (is_heading st); [|lia].
  destruct (dict_get (heading_sizes self) (heading_level st)) as [sz|] eqn:E; [|lia].
  apply heading_size_bounds in E; [lia|exact H].
Qed.

(** X12.  For every font size from 0 to 2000 the line height
    [int(size * 1.4)] is the integer part of the exact product 7 * size / 5
    or one below it (binary64 rounding can fall just short of an integer,
    as at size 45, which gives 62), and it is never negative. *)
Theorem line_height_within_one (fs : Z) :
  0 <= fs <= 2000 ->
  0 <= line_height_of fs
  /\ 7 * fs / 5 - 1 <= line_height_of fs <= 7 * fs / 5
  /\ line_height_of 45 = 7 * 45 / 5 - 1.
Proof.
  intros H. destruct (line_height_bounds fs H) as [A B].
  split; [exact A|]. split; [exact B|]. vm_compute. reflexivity.
Qed.

(** The bounds at the default font size. *)
Lemma line_height_within_one_witness :
  0 <= line_height_of 34
  /\ 7 * 34 / 5 - 1 <= line_height_of 34 <= 7 * 34 / 5
  /\ line_height_of 45 = 7 * 45 / 5 - 1.
Proof. apply (line_height_within_one 34). lia. Defined.

(** ** Pages are drawn inside the content area *)

Section DrawnInside.

Variable getbbox : Font -> string -> Z * Z * Z * Z.
Variable self : TextRenderer.

(** X10.  With a base font size from 0 to 1000, every page returned by
    [paginate] is drawn inside the content area vertically: each line
    [render_page] draws for it starts at or below the top margin and ends
    at or above the bottom of the content area, unless the page is a
    single block that is itself taller than the content area. *)
Theorem paginated_page_drawn_inside (content_blocks : list TextBlock)
    (p : PageContent) :
  0 <= base_font_size self <= 1000 ->
  In p (pages (paginate getbbox (Paginator_init self) content_blocks)) ->
  Forall (fun op =>
            Config.MARGIN_TOP <= op_y op
            /\ op_y op + line_height_of (size (op_font op))
               <= Config.DISPLAY_HEIGHT - Config.MARGIN_BOTTOM)
         (fst (render_blocks getbbox self (blocks p)))
  \/ exists b, blocks p = [b]
               /\ content_height (Paginator_init self)
                  < _estimate_block_height getbbox (Paginator_init self) b.
Proof.
  intros Hbase Hin.
  destruct (finish_layout getbbox (Paginator_init self) _
              (run_layout getbbox (Paginator_init self) content_blocks))
    as [Hok _].
  rewrite Forall_forall in Hok. destruct (Hok p Hin) as [_ [Hfit|Hbig]];
    [left|right; exact Hbig].
  unfold render_blocks.
  destruct (render_blocks_spec getbbox self (blocks p) [] Config.MARGIN_TOP)
    as (new & E & _ & Hy).
  rewrite E. cbn [fst app].
  assert (Hnn : Forall (fun b => 0 <= line_height_of
                                        (_get_font_size_for_style self (style b)))
                  (blocks p)).
  { apply Forall_forall. intros b _. now apply style_line_height_nonneg. }
  specialize (Hy Hnn).
  eapply Forall_impl; [|exact Hy]. intros op (A & B).
  split; [exact A|].
  change (fold_right _ 0 (blocks p))
    with (sum_heights getbbox (Paginator_init self) (blocks p)) in B.
  change (content_height (Paginator_init self)) with 740 in Hfit.
  change Config.MARGIN_TOP with 20 in *.
  change (Config.DISPLAY_HEIGHT - Config.MARGIN_BOTTOM) with 760. lia.
Qed.

(** X11.  When every word of every block fits the width left by the
    block's indent, every line [render_page] draws ends at or before the
    right margin: its left edge is the left margin plus the indent and its
    measured width does not reach past the content width. *)
Theorem drawn_lines_fit_width (bs : list TextBlock) :
  Forall (fun b =>
            Forall (fits getbbox (get_font_for_style self (style b))
                      (Config.DISPLAY_WIDTH - Config.MARGIN_LEFT
                       - Config.MARGIN_RIGHT - indent (style b)))
                   (Str.split (text b))) bs ->
  Forall (fun op =>
            op_x op + fst (measure_text getbbox (op_text op) (op_font op))
            <= Config.DISPLAY_WIDTH - Config.MARGIN_RIGHT)
         (fst (render_blocks getbbox self bs)).
Proof.
  intros Hall. unfold render_blocks.
  destruct (render_blocks_ops getbbox self bs [] Config.MARGIN_TOP)
    as (new & y' & E & Hops).
  rewrite E. cbn [fst app].
  rewrite Forall_forall in *. intros op Hin.
  destruct (Hops op Hin) as (b & Hb & Hx & Hf & Hl).
  specialize (Hall b Hb).
  destruct (wrap_text_grouping getbbox _ _ _ Hall) as (groups & _ & _ & _ & Hfit).
  rewrite Forall_forall in Hfit. specialize (Hfit _ Hl).
  unfold fits in Hfit. rewrite Hx, Hf.
  unfold Config.DISPLAY_WIDTH, Config.MARGIN_LEFT, Config.MARGIN_RIGHT in *. lia.
Qed.

End DrawnInside.

(** The theorem at work on the page of a one-line paragraph. *)
Lemma paginated_page_drawn_inside_witness :
  Forall (fun op =>
            Config.MARGIN_TOP <= op_y op
            /\ op_y op + line_height_of (size (op_font op))
               <= Config.DISPLAY_HEIGHT - Config.MARGIN_BOTTOM)
         (fst (render_blocks Sample.getbbox Sample.tr (blocks SamplePage.page1)))
  \/ exists b, blocks SamplePage.page1 = [b]
               /\ content_height (Paginator_init Sample.tr)
                  < _estimate_block_height Sample.getbbox
                      (Paginator_init Sample.tr) b.
Proof.
  apply (paginated_page_drawn_inside Sample.getbbox Sample.tr
           [Sample.paragraph "x"] SamplePage.page1).
  - unfold Sample.tr, Config.DEFAULT_FONT_SIZE. simpl. lia.
  - vm_compute. left. reflexivity.
Defined.

(** The theorem at work on a paragraph of two short words. *)
Lemma drawn_lines_fit_width_witness :
  Forall (fun op =>
            op_x op + fst (measure_text Sample.getbbox (op_text op) (op_font op))
            <= Config.DISPLAY_WIDTH - Config.MARGIN_RIGHT)
         (fst (render_blocks Sample.getbbox Sample.tr [Sample.paragraph "aaa bbb"])).
Proof.
  apply (drawn_lines_fit_width Sample.getbbox Sample.tr [Sample.paragraph "aaa bbb"]).
  assert (E : Str.split "aaa bbb" = ["aaa"; "bbb"]%string) by reflexivity.
  apply Forall_cons; [|apply Forall_nil].
  cbn [text Sample.paragraph]. rewrite E.
  assert (F : forall f w s, (10 * Z.of_nat (String.length s) <= w) ->
                            fits Sample.getbbox f w s).
  { intros f w s Hs. unfold fits, measure_text, Sample.getbbox. cbn [fst]. lia. }
  repeat (apply Forall_cons; [apply F; simpl; lia|]).
  apply Forall_nil.
Defined.

(** ** The height of a blank block *)

Section BlankBlock.

Variable getbbox : Font -> string -> Z * Z * Z * Z.
Variable self : TextRenderer.

(** X13.  A block whose text has no word is estimated at exactly the
    paragraph spacing, whatever its style and the width; and when the line
    height of its style is positive, only such a block is. *)
Theorem blank_block_height (b : TextBlock) (content_width : Z) :
  (Str.split (text b) = [] ->
   estimate_block_height getbbox self b content_width = Config.PARAGRAPH_SPACING)
  /\ (0 < line_height_of (_get_font_size_for_style self (style b)) ->
      estimate_block_height getbbox self b content_width = Config.PARAGRAPH_SPACING ->
      Str.split (text b) = []).
Proof.
  destruct (wrap_text_lines getbbox (get_font_for_style self (style b))
              (content_width - indent (style b)) (text b)) as [_ Hiff].
  unfold estimate_block_height. cbv zeta. split.
  - intros Hs. apply Hiff in Hs. rewrite Hs. reflexivity.
  - intros Hlh Hh. apply Hiff.
    destruct (wrap_text getbbox (text b) (get_font_for_style self (style b))
                (content_width - indent (style b))) as [|l ls]; [reflexivity|].
    cbn [List.length] in Hh. nia.
Qed.

End BlankBlock.

(** The theorem at work on a paragraph of three spaces. *)
Lemma blank_block_height_witness :
  estimate_block_height Sample.getbbox Sample.tr (Sample.paragraph "   ") 448
  = Config.PARAGRAPH_SPACING.
Proof.
  apply (proj1 (blank_block_height Sample.getbbox Sample.tr
                  (Sample.paragraph "   ") 448)).
  reflexivity.
Defined.

(** ** Quantization to the nearest level *)

Lemma quantize_sample_cases (s : Z) :
  (s <= 42 /\ quantize_sample s = 3)
  \/ (43 <= s <= 127 /\ quantize_sample s = 2)
  \/ (128 <= s <= 212 /\ quantize_sample s = 1)
  \/ (213 <= s /\ quantize_sample s = 0).
Proof.
  unfold quantize_sample.
  destruct (Z.leb_spec s 42), (Z.leb_spec s 127), (Z.leb_spec s 212),
    (Z.ltb_spec 42 s), (Z.ltb_spec 127 s), (Z.ltb_spec 212 s);
    cbn [andb]; lia.
Qed.

(** X14.  The four-level quantization picks the nearest nominal gray
    level: for every 8-bit sample, no level of [GRAY_LEVELS] is closer to
    the sample than the one chosen, and each nominal level is sent back to
    itself. *)
Theorem quantize_sample_nearest (s k : Z) :
  0 <= s <= 255 -> 0 <= k <= 3 ->
  Z.abs (s - gray_of_level (quantize_sample s)) <= Z.abs (s - gray_of_level k)
  /\ quantize_sample (gray_of_level k) = k.
Proof.
  intros Hs Hk.
  assert (Ek : k = 0 \/ k = 1 \/ k = 2 \/ k = 3) by lia.
  split.
  - destruct (quantize_sample_cases s) as [[H ->]|[[H ->]|[[H ->]|[H ->]]]];
      destruct Ek as [->|[->|[->| ->]]];
      change (gray_of_level 0) with 255; change (gray_of_level 1) with 170;
      change (gray_of_level 2) with 85; change (gray_of_level 3) with 0;
      lia.
  - destruct Ek as [->|[->|[->| ->]]]; reflexivity.
Qed.

(** The theorem at work on the sample 100 against level 1. *)
Lemma quantize_sample_nearest_witness :
  Z.abs (100 - gray_of_level (quantize_sample 100)) <= Z.abs (100 - gray_of_level 1)
  /\ quantize_sample (gray_of_level 1) = 1.
Proof. apply (quantize_sample_nearest 100 1); lia. Defined.

(** ** Pages too large for the header *)

Lemma pack_field_raise (n : nat) (v : Z) :
  2 ^ (8 * Z.of_nat n) <= v ->
  pack_field n v = Raise (StructError "argument out of range").
Proof.
  intros H. unfold pack_field.
  destruct (Z.ltb_spec v (2 ^ (8 * Z.of_nat n))); [lia|].
  now rewrite andb_false_r.
Qed.

(** X15.  A buffer wider or taller than 65535 pixels cannot be encoded:
    its dimensions do not fit the 16-bit header fields, and both page
    encoders raise instead of returning a blob. *)
Theorem encode_page_rejects_large (im : Image) :
  0 < width im -> 0 < height im ->
  65535 < width im \/ 65535 < height im ->
  is_ok (encode_xtg_page im) = false /\ is_ok (encode_xth_page im) = false.
Proof.
  intros Hw Hh Hbig.
  assert (Hhdr : forall mark ds,
            (f_mark <- pack_field 4 mark ;;
             f_w <- pack_field 2 (width im) ;;
             f_h <- pack_field 2 (height im) ;;
             f_color <- pack_field 1 0 ;;
             f_comp <- pack_field 1 0 ;;
             f_size <- pack_field 4 ds ;;
             f_md5 <- pack_field 8 0 ;;
             Ok (f_mark ++ f_w ++ f_h ++ f_color ++ f_comp ++ f_size ++ f_md5))
            = Raise (StructError "argument out of range")).
  { intros mark ds.
    destruct (pack_field 4 mark) as [fm|e] eqn:Em.
    2:{ unfold pack_field in Em. destruct (_ && _); inversion Em. reflexivity. }
    cbn [bind].
    destruct (Z_le_gt_dec (width im) 65535) as [Hwok|Hwbig].
    - rewrite (pack_field_ok 2 (width im)) by (change (2 ^ (8 * Z.of_nat 2)) with 65536; lia).
      cbn [bind].
      rewrite (pack_field_raise 2 (height im))
        by (change (2 ^ (8 * Z.of_nat 2)) with 65536; lia).
      reflexivity.
    - rewrite (pack_field_raise 2 (width im))
        by (change (2 ^ (8 * Z.of_nat 2)) with 65536; lia).
      reflexivity. }
  split.
  - unfold encode_xtg_page.
    destruct (Z.leb_spec (height im) 0); [lia|].
    unfold encode_xtg_header. rewrite Hhdr. reflexivity.
  - unfold encode_xth_page, encode_xth_header. rewrite Hhdr. reflexivity.
Qed.

(** The theorem at work on a buffer of 70000 by 1 pixels. *)
Lemma encode_page_rejects_large_witness :
  is_ok (encode_xtg_page (mkImage ModeL 70000 1 (fun _ _ => 0))) = false
  /\ is_ok (encode_xth_page (mkImage ModeL 70000 1 (fun _ _ => 0))) = false.
Proof.
  apply (encode_page_rejects_large (mkImage ModeL 70000 1 (fun _ _ => 0)));
    simpl; lia.
Defined.

(** ** Reading back what was written *)

Lemma until_nul_app_nul (a rest : list byte) :
  until_nul (a ++ Byte.x00 :: rest) = until_nul a.
Proof.
  induction a as [|b a IH]; cbn [app until_nul].
  - reflexivity.
  - destruct (Byte.eqb b Byte.x00); [reflexivity|]. now rewrite IH.
Qed.

Lemma title_field_until_nul (metadata : BookMetadata) :
  until_nul (title_field metadata)
  = until_nul (firstn 127 (utf8_encode (md_title metadata))).
Proof.
  unfold title_field, ljust. rewrite <- app_assoc. cbn [app].
  apply until_nul_app_nul.
Qed.

Lemma container_title_slice (hd ttl rest : list byte) :
  List.length hd = 56%nat -> List.length ttl = 128%nat ->
  firstn 128 (skipn 56 (hd ++ ttl ++ rest)) = ttl.
Proof.
  intros Hh Ht.
  rewrite skipn_app, skipn_all2, Hh, Nat.sub_diag by lia.
  change (skipn 0 (ttl ++ rest)) with (ttl ++ rest). cbn [app].
  rewrite firstn_app, Ht, Nat.sub_diag, firstn_O, app_nil_r.
  apply firstn_all2. lia.
Qed.

(** X16.  [read_xtc_info] reads back what [write_xtc_container] wrote: on
    the written file it returns the format name of the variant written,
    version 1, the number of page blobs as page count, and the title
    decoded from the UTF-8 bytes of the title cut to 127 bytes and at the
    first zero byte. *)
Theorem read_xtc_info_after_write (decode : list byte -> string)
    (page_blobs : list (list byte)) (chapter_infos : list ChapterInfo)
    (metadata : BookMetadata) (is_grayscale : bool) (c : list byte) :
  write_xtc_container page_blobs chapter_infos metadata is_grayscale = Ok c ->
  read_xtc_info decode c
  = Ok (mkXtcInfo (if is_grayscale then "XTCH" else "XTC") 1
          (Z.of_nat (List.length page_blobs))
          (decode (until_nul (firstn 127 (utf8_encode (md_title metadata)))))).
Proof.
  intros H. apply write_xtc_container_inv in H. cbv zeta in H.
  destruct H as (_ & Rn & _ & ->).
  set (n := Z.of_nat (List.length page_blobs)) in *.
  set (mark := if is_grayscale then Config.XTCH_MARK else Config.XTC_MARK).
  set (rest := table_entries (184 + 16 * n) page_blobs ++ List.concat page_blobs).
  unfold read_xtc_info.
  rewrite unpack_IHH_firstn8.
  assert (Hlen : (8 <= List.length (container_header mark n
                                     ++ title_field metadata ++ rest))%nat).
  { rewrite length_app, container_header_length. lia. }
  destruct (Nat.leb_spec 8 (List.length (container_header mark n
                                          ++ title_field metadata ++ rest)));
    [|lia].
  cbn [bind].
  change (Z.to_nat Config.TITLE_MAX_SIZE) with 128%nat.
  change (Z.to_nat Config.XTC_HEADER_SIZE) with 56%nat.
  rewrite container_title_slice
    by (apply container_header_length || apply title_field_length).
  rewrite title_field_until_nul.
  assert (E1 : file_magic (container_header mark n ++ title_field metadata ++ rest)
               = mark).
  { change (file_magic (container_header mark n ++ title_field metadata ++ rest))
      with (le_combine (le_split 4 mark)).
    apply le_combine_le_split_small. subst mark.
    destruct is_grayscale; vm_compute; split; congruence. }
  assert (E2 : le_combine (slice (container_header mark n
                                  ++ title_field metadata ++ rest) 4 6) = 1).
  { reflexivity. }
  assert (E3 : le_combine (slice (container_header mark n
                                  ++ title_field metadata ++ rest) 6 8) = n).
  { change (slice (container_header mark n ++ title_field metadata ++ rest) 6 8)
      with (le_split 2 n).
    apply le_combine_le_split_small. exact Rn. }
  rewrite E1, E2, E3. subst mark. destruct is_grayscale; reflexivity.
Qed.

(** The theorem at work on the sample container. *)
Lemma read_xtc_info_after_write_witness :
  read_xtc_info SampleFile.decode SampleFile.container
  = Ok (mkXtcInfo "XTCH" 1 2
          (SampleFile.decode
             (until_nul (firstn 127 (utf8_encode "Sample"))))).
Proof.
  apply (read_xtc_info_after_write SampleFile.decode SampleFile.blobs []
           (mkBookMetadata "Sample" "") true).
  vm_compute. reflexivity.
Defined.

(** ** The page table gives random access *)

Lemma concat_skip_to (page_blobs : list (list byte)) :
  forall (i : nat) (blob : list byte),
    nth_error page_blobs i = Some blob ->
    skipn (List.length (List.concat (firstn i page_blobs))) (List.concat page_blobs)
    = blob ++ List.concat (skipn (S i) page_blobs).
Proof.
  induction page_blobs as [|b bs IH]; intros i blob Hn.
  - destruct i; discriminate.
  - destruct i as [|i].
    + injection Hn as ->. reflexivity.
    + cbn [nth_error] in Hn. cbn [firstn skipn List.concat].
      rewrite length_app, skipn_app, skipn_all2 by lia. cbn [app].
      replace (List.length b + List.length (List.concat (firstn i bs))
               - List.length b)%nat
        with (List.length (List.concat (firstn i bs))) by lia.
      now apply IH.
Qed.

(** The offset and size a written container records for page [i]. *)
Lemma container_entry_offset_size (hd ttl : list byte)
    (page_blobs : list (list byte)) (off : Z) (i : nat) (blob : list byte) :
  List.length hd = 56%nat -> List.length ttl = 128%nat ->
  nth_error page_blobs i = Some blob ->
  entries_ok off page_blobs ->
  entry_offset (hd ++ ttl ++ table_entries off page_blobs ++ List.concat page_blobs) i
  = off + size_before page_blobs i
  /\ entry_size (hd ++ ttl ++ table_entries off page_blobs ++ List.concat page_blobs) i
     = Z.of_nat (List.length blob)
  /\ entry_width (hd ++ ttl ++ table_entries off page_blobs ++ List.concat page_blobs) i
     = blob_width blob
  /\ entry_height (hd ++ ttl ++ table_entries off page_blobs ++ List.concat page_blobs) i
     = blob_height blob.
Proof.
  intros Hh Ht Hn Hok.
  destruct (table_entries_at page_blobs off i blob Hn Hok)
    as (_ & _ & _ & _ & Roff & Rlen & Rsize).
  destruct (entry_bytes_fields (off + size_before page_blobs i) blob)
    as (E1 & E2 & E3 & E4).
  pose proof (container_entry_slice hd ttl (List.concat page_blobs)
                page_blobs off i blob) as S.
  specialize (fun lo hi => S lo hi Hh Ht Hn Hok).
  unfold entry_offset, entry_size, entry_width, entry_height, read_le.
  repeat split.
  - replace (184 + 16 * i)%nat with (184 + 16 * i + 0)%nat at 1 by lia.
    rewrite S, E1 by lia. now apply le_combine_le_split_small.
  - replace (184 + 16 * i + 8 + 4)%nat with (184 + 16 * i + 12)%nat by lia.
    rewrite S, E2 by lia. apply le_combine_le_split_small. simpl. lia.
  - replace (184 + 16 * i + 12 + 2)%nat with (184 + 16 * i + 14)%nat by lia.
    rewrite S, E3 by lia. apply le_combine_le_split_small. apply read_le_small.
  - replace (184 + 16 * i + 14 + 2)%nat with (184 + 16 * i + 16)%nat by lia.
    rewrite S, E4 by lia. apply le_combine_le_split_small. apply read_le_small.
Qed.

Lemma skipn_skipn_add {A : Type} (a b : nat) (l : list A) :
  skipn b (skipn a l) = skipn (a + b) l.
Proof. rewrite skipn_skipn. f_equal. lia. Qed.

(** X17.  The page table of a written container gives random access to
    the pages: the bytes of the file from an entry's offset, for the
    entry's size, are exactly that page's blob; and the file is as long as
    the header, title and table (184 + 16 bytes per page) plus all the
    blobs. *)
Theorem container_holds_blobs (page_blobs : list (list byte))
    (chapter_infos : list ChapterInfo) (metadata : BookMetadata)
    (is_grayscale : bool) (c : list byte) :
  write_xtc_container page_blobs chapter_infos metadata is_grayscale = Ok c ->
  Z.of_nat (List.length c)
  = 184 + 16 * Z.of_nat (List.length page_blobs)
    + Z.of_nat (List.length (List.concat page_blobs))
  /\ forall i blob,
       nth_error page_blobs i = Some blob ->
       slice c (Z.to_nat (entry_offset c i))
               (Z.to_nat (entry_offset c i + entry_size c i))
       = blob.
Proof.
  intros H. apply write_xtc_container_inv in H. cbv zeta in H.
  destruct H as (Hok & Rn & Rd & ->).
  set (n := Z.of_nat (List.length page_blobs)) in *.
  set (mark := if is_grayscale then Config.XTCH_MARK else Config.XTC_MARK).
  split.
  - rewrite !length_app, container_header_length, title_field_length,
      table_entries_length. lia.
  - intros i blob Hn.
    destruct (container_entry_offset_size (container_header mark n)
                (title_field metadata) page_blobs (184 + 16 * n) i blob
                (container_header_length mark n) (title_field_length metadata)
                Hn Hok) as (Eo & Es & _).
    rewrite Eo, Es. unfold size_before, slice.
    assert (Hi : (i < List.length page_blobs)%nat)
      by (apply nth_error_Some; congruence).
    replace (Z.to_nat (184 + 16 * n
                       + Z.of_nat (List.length (List.concat (firstn i page_blobs)))))
      with (56 + (128 + (16 * List.length page_blobs
                         + List.length (List.concat (firstn i page_blobs)))))%nat
      by lia.
    replace (Z.to_nat (184 + 16 * n
                       + Z.of_nat (List.length (List.concat (firstn i page_blobs)))
                       + Z.of_nat (List.length blob))
             - (56 + (128 + (16 * List.length page_blobs
                             + List.length (List.concat (firstn i page_blobs))))))%nat
      with (List.length blob) by lia.
    rewrite <- (container_header_length mark n) at 1.
    rewrite <- skipn_skipn_add, skipn_app, skipn_all, Nat.sub_diag.
    cbn [app skipn].
    rewrite <- (title_field_length metadata) at 1.
    rewrite <- skipn_skipn_add, skipn_app, skipn_all, Nat.sub_diag.
    cbn [app skipn].
    rewrite <- (table_entries_length (184 + 16 * n) page_blobs) at 1.
    rewrite <- skipn_skipn_add, skipn_app, skipn_all, Nat.sub_diag.
    cbn [app skipn].
    rewrite (concat_skip_to page_blobs i blob Hn).
    rewrite firstn_app, Nat.sub_diag, firstn_all. cbn [firstn].
    apply app_nil_r.
Qed.

(** The theorem at work on the sample container. *)
Lemma container_holds_blobs_witness :
  Z.of_nat (List.length SampleFile.container)
  = 184 + 16 * Z.of_nat (List.length SampleFile.blobs)
    + Z.of_nat (List.length (List.concat SampleFile.blobs)).
Proof.
  assert (H : write_xtc_container SampleFile.blobs []
                (mkBookMetadata "Sample" "") true = Ok SampleFile.container)
    by (vm_compute; reflexivity).
  apply (proj1 (container_holds_blobs _ _ _ _ _ H)).
Defined.

(** ** The two-bit page codec in general *)

Lemma xth_rows_length (im : Image) :
  0 < height im ->
  List.length (xth_rows im) = (8 * Z.to_nat (row_bytes (height im)))%nat.
Proof.
  intros Hh. pose proof (row_bytes_ceil (height im)).
  unfold xth_rows, quantize_to_4_levels, np_array.
  rewrite length_app, !length_map, range_length, repeat_length. lia.
Qed.

Lemma xth_rows_nth (im : Image) (r x : nat) :
  0 < width im -> 0 < height im ->
  (r < 8 * Z.to_nat (row_bytes (height im)))%nat ->
  (x < Z.to_nat (width im))%nat ->
  List.length (nth r (xth_rows im) []) = Z.to_nat (width im)
  /\ nth x (nth r (xth_rows im) []) 0 = level_at im (Z.of_nat x) (Z.of_nat r).
Proof.
  intros Hw Hh Hr Hx. pose proof (row_bytes_ceil (height im)).
  unfold xth_rows, level_at, quantize_to_4_levels, np_array.
  rewrite map_map.
  destruct (Z.ltb_spec (Z.of_nat r) (height im)) as [Hin|Hout].
  - rewrite app_nth1 by (rewrite length_map, range_length; lia).
    rewrite (tabulate_nth
               (fun y => map quantize_sample
                           (map (fun x0 => getpixel im x0 y) (range (width im)))))
      by lia.
    rewrite map_map. split.
    + now rewrite length_map, range_length.
    + now rewrite (tabulate_nth (fun x0 => quantize_sample
                                             (getpixel im x0 (Z.of_nat r)))).
  - rewrite app_nth2 by (rewrite length_map, range_length; lia).
    rewrite length_map, range_length.
    rewrite (nth_indep _ [] (repeat 0 (Z.to_nat (width im))))
      by (rewrite repeat_length; lia).
    rewrite nth_repeat, repeat_length. split; [reflexivity|].
    apply nth_repeat.
Qed.

Lemma seq_map_nth {A : Type} (f : nat -> A) (n i : nat) (d : A) :
  (i < n)%nat -> nth i (map f (seq 0 n)) d = f i.
Proof.
  intros Hi.
  rewrite (nth_indep _ d (f 0%nat)) by (now rewrite length_map, length_seq).
  now rewrite map_nth, seq_nth.
Qed.

Lemma xth_plane_columns (im : Image) (f : Z -> Z) :
  Forall (fun r => List.length r = Z.to_nat (row_bytes (height im)))
    (map (fun c => map packbits8
                     (groups8 (Z.to_nat (row_bytes (height im)))
                        (column (map (@rev Z) (map (map f) (xth_rows im))) c)))
         (seq 0 (Z.to_nat (width im)))).
Proof.
  apply Forall_forall. intros r Hr.
  apply in_map_iff in Hr. destruct Hr as (c & <- & _).
  now rewrite length_map, groups8_length.
Qed.

Lemma xth_plane_length (im : Image) (f : Z -> Z) :
  0 < width im -> 0 < height im ->
  Z.of_nat (List.length (xth_plane im f)) = width im * row_bytes (height im).
Proof.
  intros Hw Hh. pose proof (row_bytes_ceil (height im)).
  unfold xth_plane, pack_columns.
  rewrite (concat_uniform_length _ _ (xth_plane_columns im f)).
  rewrite length_map, length_seq. lia.
Qed.

Lemma xth_plane_bit (im : Image) (f : Z -> Z) (c g j : nat) :
  f 0 = 0 ->
  0 < width im -> 0 < height im ->
  (c < Z.to_nat (width im))%nat ->
  (g < Z.to_nat (row_bytes (height im)))%nat ->
  (j < 8)%nat ->
  Z.testbit
    (byte.unsigned
       (nth (c * Z.to_nat (row_bytes (height im)) + g) (xth_plane im f) Byte.x00))
    (7 - Z.of_nat j)
  = negb (f (level_at im (width im - 1 - Z.of_nat c) (Z.of_nat (8 * g + j))) =? 0).
Proof.
  intros Hf Hw Hh Hc Hg Hj.
  unfold xth_plane, pack_columns.
  rewrite (concat_uniform_nth _ _ c g Byte.x00 (xth_plane_columns im f) Hg).
  rewrite (seq_map_nth
             (fun c => map packbits8
                         (groups8 (Z.to_nat (row_bytes (height im)))
                            (column (map (@rev Z) (map (map f) (xth_rows im))) c))))
    by exact Hc.
  rewrite (nth_indep _ Byte.x00 (packbits8 []))
    by (now rewrite length_map, groups8_length).
  rewrite map_nth, groups8_nth by exact Hg.
  pose proof (xth_rows_length im Hh) as HL.
  assert (Hcol : List.length (column (map (@rev Z) (map (map f) (xth_rows im))) c)
                 = (8 * Z.to_nat (row_bytes (height im)))%nat).
  { unfold column. now rewrite !length_map. }
  rewrite packbits8_testbit;
    [|rewrite length_firstn, length_skipn; lia|exact Hj].
  rewrite nth_firstn. destruct (Nat.ltb_spec j 8); [|lia].
  rewrite nth_skipn. do 2 f_equal.
  unfold column. rewrite map_map, map_map.
  set (G := fun row : list Z => nth c (rev (map f row)) 0).
  rewrite (nth_indep _ 0 (G [])) by (rewrite length_map; lia).
  rewrite (map_nth G). subst G. cbv beta.
  destruct (xth_rows_nth im (8 * g + j) (Z.to_nat (width im) - S c) Hw Hh)
    as [Hlen Hval]; try lia.
  rewrite rev_nth by (rewrite length_map, Hlen; exact Hc).
  rewrite length_map, Hlen.
  rewrite (nth_indep _ 0 (f 0)) by (rewrite length_map, Hlen; lia).
  rewrite map_nth, Hval. do 2 f_equal. lia.
Qed.

Lemma encode_xth_header_ok (w h ds : Z) :
  0 <= w < 2 ^ 16 -> 0 <= h < 2 ^ 16 -> 0 <= ds < 2 ^ 32 ->
  encode_xth_header w h ds = Ok (page_header Config.XTH_MARK w h ds).
Proof.
  intros Hw Hh Hd. unfold encode_xth_header, page_header.
  rewrite (pack_field_ok 2 w), (pack_field_ok 2 h), (pack_field_ok 4 ds)
    by (simpl; lia).
  reflexivity.
Qed.

Lemma encode_xth_page_data (im : Image) :
  0 < width im <= 65535 -> 0 < height im <= 65535 ->
  encode_xth_page im
  = Ok (page_header Config.XTH_MARK (width im) (height im)
          (2 * (width im * row_bytes (height im)))
        ++ xth_plane im low_bit ++ xth_plane im high_bit).
Proof.
  intros Hw Hh. pose proof (row_bytes_ceil (height im)) as HB.
  unfold encode_xth_page. fold (row_bytes (height im)).
  rewrite Z.div_mul by lia.
  assert (Hrows :
    (if height im <? row_bytes (height im) * 8
     then quantize_to_4_levels im
          ++ repeat (repeat 0 (Z.to_nat (width im)))
               (Z.to_nat (row_bytes (height im) * 8 - height im))
     else quantize_to_4_levels im) = xth_rows im).
  { unfold xth_rows. destruct (Z.ltb_spec (height im) (row_bytes (height im) * 8));
      [reflexivity|].
    replace (row_bytes (height im) * 8 - height im) with 0 by lia.
    cbn [Z.to_nat repeat]. now rewrite app_nil_r. }
  rewrite Hrows.
  change (pack_columns (map (@rev Z) (map (map (fun q => Z.land q 1)) (xth_rows im)))
            (width im) (row_bytes (height im)))
    with (xth_plane im low_bit).
  change (pack_columns
            (map (@rev Z) (map (map (fun q => Z.land (Z.shiftr q 1) 1)) (xth_rows im)))
            (width im) (row_bytes (height im)))
    with (xth_plane im high_bit).
  pose proof (xth_plane_length im low_bit) as L0.
  pose proof (xth_plane_length im high_bit) as L1.
  rewrite length_app, Nat2Z.inj_add, L0, L1 by lia.
  replace (width im * row_bytes (height im) + width im * row_bytes (height im))
    with (2 * (width im * row_bytes (height im))) by lia.
  assert (HB' : 0 < row_bytes (height im) <= 8192) by lia.
  rewrite encode_xth_header_ok;
    [reflexivity
    |change (2 ^ 16) with 65536; lia
    |change (2 ^ 16) with 65536; lia
    |change (2 ^ 32) with 4294967296; nia].
Qed.

Lemma level_at_cases (im : Image) (x y : Z) :
  level_at im x y = 0 \/ level_at im x y = 1
  \/ level_at im x y = 2 \/ level_at im x y = 3.
Proof.
  unfold level_at. destruct (y <? height im); [|now left].
  destruct (quantize_sample_cases (getpixel im x y))
    as [[_ ->]|[[_ ->]|[[_ ->]|[_ ->]]]]; auto.
Qed.

(** X18.  For a buffer of width [w] and height [h], [encode_xth_page]
    emits the 22-byte header with data size [2 * w * ceil(h/8)] followed by
    two bit planes of [w * ceil(h/8)] bytes each.  Column [c] of a plane is
    column [w - 1 - c] of the image (right to left); bit [7 - j] of its
    byte [g] belongs to row [8g + j] (top row in the top bit), and is the
    low bit of that pixel's level in plane 0 and the high bit in plane 1;
    rows added below the image have level 0. *)
Theorem encode_xth_page_planes (im : Image) :
  0 < width im <= 65535 -> 0 < height im <= 65535 ->
  exists plane0 plane1,
    encode_xth_page im
    = Ok (page_header Config.XTH_MARK (width im) (height im)
            (2 * (width im * row_bytes (height im)))
          ++ plane0 ++ plane1)
    /\ Z.of_nat (List.length plane0) = width im * row_bytes (height im)
    /\ Z.of_nat (List.length plane1) = width im * row_bytes (height im)
    /\ forall c g j,
         0 <= c < width im -> 0 <= g < row_bytes (height im) -> 0 <= j < 8 ->
         Z.testbit
           (byte.unsigned
              (nth (Z.to_nat (c * row_bytes (height im) + g)) plane0 Byte.x00))
           (7 - j)
         = Z.odd (level_at im (width im - 1 - c) (8 * g + j))
         /\ Z.testbit
              (byte.unsigned
                 (nth (Z.to_nat (c * row_bytes (height im) + g)) plane1 Byte.x00))
              (7 - j)
            = (2 <=? level_at im (width im - 1 - c) (8 * g + j)).
Proof.
  intros Hw Hh. exists (xth_plane im low_bit), (xth_plane im high_bit).
  split; [now apply encode_xth_page_data|].
  split; [apply xth_plane_length; lia|].
  split; [apply xth_plane_length; lia|].
  intros c g j Hc Hg Hj.
  replace (Z.to_nat (c * row_bytes (height im) + g))
    with (Z.to_nat c * Z.to_nat (row_bytes (height im)) + Z.to_nat g)%nat by nia.
  pose proof (xth_plane_bit im low_bit (Z.to_nat c) (Z.to_nat g) (Z.to_nat j)) as P0.
  pose proof (xth_plane_bit im high_bit (Z.to_nat c) (Z.to_nat g) (Z.to_nat j)) as P1.
  rewrite !Nat2Z.inj_add, !Nat2Z.inj_mul, !Z2Nat.id in P0, P1 by lia.
  change (Z.of_nat 8) with 8 in P0, P1.
  rewrite P0, P1 by (reflexivity || lia).
  destruct (level_at_cases im (width im - 1 - c) (8 * g + j))
    as [->|[->|[->| ->]]]; split; reflexivity.
Qed.

(** The theorem at work on the all-zero 8 by 8 image. *)
Lemma encode_xth_page_planes_witness :
  exists plane0 plane1,
    encode_xth_page SampleFile.black8
    = Ok (page_header Config.XTH_MARK 8 8 (2 * (8 * row_bytes 8))
          ++ plane0 ++ plane1)
    /\ Z.of_nat (List.length plane0) = 8 * row_bytes 8
    /\ Z.of_nat (List.length plane1) = 8 * row_bytes 8
    /\ forall c g j,
         0 <= c < 8 -> 0 <= g < row_bytes 8 -> 0 <= j < 8 ->
         Z.testbit
           (byte.unsigned (nth (Z.to_nat (c * row_bytes 8 + g)) plane0 Byte.x00))
           (7 - j)
         = Z.odd (level_at SampleFile.black8 (8 - 1 - c) (8 * g + j))
         /\ Z.testbit
              (byte.unsigned (nth (Z.to_nat (c * row_bytes 8 + g)) plane1 Byte.x00))
              (7 - j)
            = (2 <=? level_at SampleFile.black8 (8 - 1 - c) (8 * g + j)).
Proof.
  apply (encode_xth_page_planes SampleFile.black8); simpl; lia.
Defined.

(** ** HTMLContentParser: whitespace normalisation *)

Lemma append_nil_r (s : string) : (s ++ "")%string = s.
Proof. induction s as [|c s IH]; simpl; [reflexivity|now rewrite IH]. Qed.

Lemma append_assoc' (a b c : string) :
  ((a ++ b) ++ c)%string = (a ++ (b ++ c))%string.
Proof. induction a as [|x a IH]; simpl; [reflexivity|now rewrite IH]. Qed.

Lemma is_empty_snoc (cur : string) (c : ascii) :
  Str.is_empty (cur ++ String c "") = false.
Proof. destruct cur; reflexivity. Qed.

Lemma split_from_cur (s cur : string) :
  Str.is_empty cur = false -> Str.split_from cur s <> [].
Proof.
  revert cur. induction s as [|c s IH]; intros cur Hc.
  - simpl. rewrite Hc. discriminate.
  - rewrite split_from_cons. destruct (Str.isspace c).
    + rewrite Hc. discriminate.
    + apply IH, is_empty_snoc.
Qed.

Lemma rstrip_blank (s : string) :
  Str.is_empty (Html.rstrip s) = negb (Str.nonempty (Str.split_from "" s)).
Proof.
  induction s as [|c s IH]; [reflexivity|].
  rewrite split_from_cons. cbn [Html.rstrip]. cbv zeta.
  destruct (Str.isspace c) eqn:Ec; cbn [andb].
  - cbn [Str.is_empty]. rewrite <- IH.
    destruct (Str.is_empty (Html.rstrip s)) eqn:Er; reflexivity.
  - cbn [Str.is_empty].
    pose proof (split_from_cur s (String c "") eq_refl) as H.
    change ("" ++ String c "")%string with (String c "").
    destruct (Str.split_from (String c "") s); [contradiction|reflexivity].
Qed.

Lemma join_cons (w : string) (ws : list string) :
  ws <> [] ->
  Str.join " " (w :: ws) = (w ++ String " " (Str.join " " ws))%string.
Proof. destruct ws; [contradiction|reflexivity]. Qed.

Lemma split_join_rstrip (s : string) :
  (forall cur, Str.is_empty cur = false ->
     Str.join " " (Str.split_from cur s)
     = (cur ++ Html.sub_ws false (Html.rstrip s))%string)
  /\ Str.join " " (Str.split_from "" s) = Html.sub_ws true (Html.rstrip s).
Proof.
  induction s as [|c s [IHP IHQ]].
  - split; [|reflexivity].
    intros cur Hc. simpl. rewrite Hc. simpl. now rewrite append_nil_r.
  - pose proof (rstrip_blank s) as Hb. split.
    + intros cur Hc. rewrite split_from_cons.
      cbn [Html.rstrip]. cbv zeta.
      destruct (Str.isspace c) eqn:Ec; cbn [andb negb].
      * rewrite Hc.
        destruct (Str.is_empty (Html.rstrip s)) eqn:Er.
        -- destruct (Str.split_from "" s); [|discriminate].
           simpl. now rewrite append_nil_r.
        -- rewrite join_cons
             by (destruct (Str.split_from "" s); [discriminate|discriminate]).
           rewrite IHQ. cbn [Html.sub_ws]. rewrite Ec. reflexivity.
      * rewrite IHP by apply is_empty_snoc.
        cbn [Html.sub_ws]. rewrite Ec.
        rewrite append_assoc'. reflexivity.
    + rewrite split_from_cons. cbn [Html.rstrip]. cbv zeta.
      destruct (Str.isspace c) eqn:Ec; cbn [andb negb Str.is_empty].
      * rewrite IHQ.
        destruct (Str.is_empty (Html.rstrip s)) eqn:Er.
        -- destruct (Html.rstrip s); [reflexivity|discriminate].
        -- cbn [Html.sub_ws]. rewrite Ec. reflexivity.
      * rewrite IHP by reflexivity.
        cbn [Html.sub_ws]. rewrite Ec. reflexivity.
Qed.

Lemma sub_ws_lstrip (s : string) :
  Html.sub_ws false (Html.rstrip (Html.lstrip s))
  = Html.sub_ws true (Html.rstrip s).
Proof.
  induction s as [|c s IH]; [reflexivity|].
  cbn [Html.lstrip]. destruct (Str.isspace c) eqn:Ec.
  - rewrite IH. cbn [Html.rstrip]. cbv zeta. rewrite Ec. cbn [andb].
    destruct (Str.is_empty (Html.rstrip s)) eqn:Er.
    + destruct (Html.rstrip s); [reflexivity|discriminate].
    + cbn [Html.sub_ws]. rewrite Ec. reflexivity.
  - cbn [Html.rstrip]. cbv zeta. rewrite Ec. cbn [andb Html.sub_ws].
    rewrite Ec. reflexivity.
Qed.

(** [re.sub(r"\s+", " ", s.strip())] is [" ".join(s.split())]. *)
Lemma strip_normalize (s : string) :
  Html.normalize_whitespace (Html.strip s) = Str.join " " (Str.split s).
Proof.
  unfold Html.normalize_whitespace, Html.strip, Str.split.
  rewrite sub_ws_lstrip. symmetry. apply split_join_rstrip.
Qed.

Lemma split_lstrip (s : string) :
  Str.split_from "" (Html.lstrip s) = Str.split_from "" s.
Proof.
  induction s as [|c s IH]; [reflexivity|].
  cbn [Html.lstrip]. destruct (Str.isspace c) eqn:Ec; [|reflexivity].
  rewrite IH, split_from_cons, Ec. reflexivity.
Qed.

Lemma strip_blank (s : string) :
  Str.is_empty (Html.strip s) = negb (Str.nonempty (Str.split s)).
Proof.
  unfold Html.strip, Str.split. now rewrite rstrip_blank, split_lstrip.
Qed.

Lemma no_space_snoc (cur : string) (c : ascii) :
  no_space cur = true -> Str.isspace c = false ->
  no_space (cur ++ String c "") = true.
Proof.
  intros Hc Hs. induction cur as [|x cur IH]; simpl.
  - now rewrite Hs.
  - simpl in Hc. apply andb_true_iff in Hc as [-> Hc]. now rewrite IH.
Qed.

Lemma split_from_no_space (s cur : string) :
  no_space cur = true ->
  Forall (fun w => no_space w = true) (Str.split_from cur s).
Proof.
  revert cur. induction s as [|c s IH]; intros cur Hc.
  - simpl. destruct (Str.is_empty cur); constructor; [exact Hc|constructor].
  - rewrite split_from_cons. destruct (Str.isspace c) eqn:Ec.
    + destruct (Str.is_empty cur); [now apply IH|].
      constructor; [exact Hc|now apply IH].
    + apply IH. now apply no_space_snoc.
Qed.

Lemma split_from_word (w cur rest : string) :
  no_space w = true ->
  Str.split_from cur (w ++ rest) = Str.split_from (cur ++ w) rest.
Proof.
  revert cur. induction w as [|c w IH]; intros cur Hw.
  - simpl. now rewrite append_nil_r.
  - simpl in Hw. apply andb_true_iff in Hw as [Hc Hw].
    apply negb_true_iff in Hc.
    change (String c w ++ rest)%string with (String c (w ++ rest)).
    rewrite split_from_cons, Hc, IH by exact Hw.
    now rewrite append_assoc'.
Qed.

Lemma split_join (ws : list string) :
  Forall (fun w => w <> EmptyString) ws ->
  Forall (fun w => no_space w = true) ws ->
  Str.split (Str.join " " ws) = ws.
Proof.
  unfold Str.split. induction ws as [|w ws IH]; intros Hne Hns; [reflexivity|].
  inversion Hne as [|? ? Hw Hne']; subst.
  inversion Hns as [|? ? Hs Hns']; subst.
  assert (Ew : Str.is_empty w = false) by (destruct w; [contradiction|reflexivity]).
  destruct ws as [|w' ws'].
  - change (Str.join " " [w]) with w.
    rewrite <- (append_nil_r w) at 1.
    rewrite split_from_word by exact Hs. simpl. now rewrite Ew.
  - rewrite join_cons by discriminate.
    rewrite split_from_word by exact Hs.
    change ("" ++ w)%string with w.
    rewrite split_from_cons. change (Str.isspace " ") with true. cbv iota.
    rewrite Ew, IH by assumption. reflexivity.
Qed.

(** The joined words of a text with at least one word are in normal form. *)
Lemma join_split_normalized (s : string) :
  Str.split s <> [] -> normalized (Str.join " " (Str.split s)).
Proof.
  intros Hne. split.
  - pose proof (split_from_nonempty s EmptyString) as H.
    fold (Str.split s) in H.
    destruct (Str.split s) as [|w ws]; [contradiction|].
    inversion H as [|? ? Hw _]; subst.
    destruct ws; [exact Hw|].
    rewrite join_cons by discriminate.
    destruct w; [contradiction|discriminate].
  - rewrite split_join; [reflexivity| |].
    + apply split_from_nonempty.
    + apply split_from_no_space. reflexivity.
Qed.

(** What [emit_block] appends. *)
Lemma emit_block_blocks (self : Html.HTMLContentParser) (ty : string) :
  Html.blocks (Html.emit_block self ty)
  = Html.blocks self
    ++ match Str.split (Html.current_text self) with
       | [] => []
       | ws => [mkTextBlock (Str.join " " ws) (Html.current_style self) ty]
       end.
Proof.
  unfold Html.emit_block. cbv zeta. cbn [Html.blocks].
  rewrite strip_normalize.
  destruct (Str.split (Html.current_text self)) as [|w ws] eqn:Es.
  - simpl. now rewrite app_nil_r.
  - assert (Hn : normalized (Str.join " " (Str.split (Html.current_text self)))).
    { apply join_split_normalized. rewrite Es. discriminate. }
    rewrite Es in Hn. destruct Hn as [Hn _].
    destruct (Str.join " " (w :: ws)); [contradiction|reflexivity].
Qed.

Lemma get_blocks_blocks (self : Html.HTMLContentParser) :
  Html.get_blocks self = Html.blocks (Html.emit_block self "paragraph").
Proof.
  unfold Html.get_blocks. rewrite strip_blank, negb_involutive.
  destruct (Str.nonempty (Str.split (Html.current_text self))) eqn:E;
    [reflexivity|].
  rewrite emit_block_blocks.
  destruct (Str.split (Html.current_text self)); [|discriminate].
  now rewrite app_nil_r.
Qed.

(** ** HTMLContentParser: the invariant *)

Lemma last_Forall {A : Type} (P : A -> Prop) (l : list A) (d : A) :
  Forall P l -> P d -> P (last l d).
Proof.
  intros Hl Hd. induction Hl as [|x l Hx Hl IH]; [exact Hd|].
  destruct l; [exact Hx|exact IH].
Qed.

Lemma default_style_ok : style_ok Html.default_style.
Proof.
  unfold style_ok, Html.default_style. cbn.
  repeat split; try lia. exists 0. reflexivity.
Qed.

Lemma current_style_ok (p : Html.HTMLContentParser) :
  Forall style_ok (Html.style_stack p) -> style_ok (Html.current_style p).
Proof.
  intros H. unfold Html.current_style.
  apply (last_Forall style_ok); [exact H|apply default_style_ok].
Qed.

Lemma mem_heading_tags (t : string) :
  Html.mem t Html.HEADING_TAGS = true ->
  In t Html.HEADING_TAGS.
Proof.
  unfold Html.mem. rewrite existsb_exists.
  intros [x [Hin He]]. apply String.eqb_eq in He. now subst.
Qed.

Lemma push_style_inv (p : Html.HTMLContentParser) (kw : Html.StyleArgs) :
  parser_inv p ->
  style_ok (mkTextStyle
      (Html.kwargs_get (Html.kw_font_size kw) (font_size (Html.current_style p)))
      (Html.kwargs_get (Html.kw_bold kw) (bold (Html.current_style p)))
      (Html.kwargs_get (Html.kw_italic kw) (italic (Html.current_style p)))
      (Html.kwargs_get (Html.kw_is_heading kw) (is_heading (Html.current_style p)))
      (Html.kwargs_get (Html.kw_heading_level kw) (heading_level (Html.current_style p)))
      (Html.kwargs_get (Html.kw_indent kw) (indent (Html.current_style p)))) ->
  parser_inv (Html.push_style p kw).
Proof.
  intros (Hb & Hs & Hne & Hi & Hl) Hok. unfold Html.push_style. cbv zeta.
  repeat split; cbn; try assumption.
  - apply Forall_app. split; [exact Hs|]. constructor; [exact Hok|constructor].
  - destruct (Html.style_stack p); discriminate.
Qed.

Lemma pop_style_inv (p : Html.HTMLContentParser) :
  parser_inv p -> parser_inv (Html.pop_style p).
Proof.
  intros (Hb & Hs & Hne & Hi & Hl). unfold Html.pop_style.
  destruct (1 <? List.length (Html.style_stack p))%nat eqn:E;
    [|repeat split; assumption].
  apply Nat.ltb_lt in E.
  repeat split; cbn; try assumption.
  - now apply removelast_Forall.
  - destruct (Html.style_stack p) as [|a [|b l]]; simpl in *; try lia.
    destruct l; discriminate.
Qed.

Lemma emit_block_inv (p : Html.HTMLContentParser) (ty : string) :
  parser_inv p -> parser_inv (Html.emit_block p ty).
Proof.
  intros (Hb & Hs & Hne & Hi & Hl).
  split; [|repeat split; cbn; assumption].
  rewrite emit_block_blocks. apply Forall_app. split; [exact Hb|].
  destruct (Str.split (Html.current_text p)) as [|w ws] eqn:Es; [constructor|].
  constructor; [|constructor]. cbn [text style]. split.
  - rewrite <- Es. apply join_split_normalized. rewrite Es. discriminate.
  - now apply current_style_ok.
Qed.

Lemma set_tag_stack_inv (p : Html.HTMLContentParser) (ts : list string) :
  parser_inv p -> parser_inv (Html.set_tag_stack p ts).
Proof. intros (Hb & Hs & Hne & Hi & Hl). repeat split; assumption. Qed.

Lemma style_ok_update (st : TextStyle) (b i : bool) (n : Z) :
  style_ok st -> (bold st = true -> b = true) -> 0 <= n -> (20 | n) ->
  style_ok (mkTextStyle (font_size st) b i (is_heading st)
                        (heading_level st) n).
Proof.
  intros (Hh & _ & _) Hb Hn Hd. unfold style_ok. cbn [is_heading heading_level
    font_size bold indent].
  split; [|split; assumption].
  destruct (is_heading st); [|exact Hh].
  destruct Hh as (H1 & H2 & H3). repeat split; try tauto.
Qed.

Lemma style_ok_heading (t : string) (i : bool) (n : Z) :
  In t Html.HEADING_TAGS -> 0 <= n -> (20 | n) ->
  style_ok (mkTextStyle
              (match dict_get Html.HEADING_SIZES (Html.heading_level_of t) with
               | Some sz => sz
               | None => 20
               end)
              true i true (Html.heading_level_of t) n).
Proof.
  intros Hin Hn Hd. unfold style_ok.
  cbn [is_heading heading_level font_size bold indent].
  split; [|split; assumption].
  repeat (destruct Hin as [<-|Hin]; [cbn; repeat split; lia|]).
  destruct Hin.
Qed.

Lemma handle_starttag_inv (p : Html.HTMLContentParser) (tag : string) :
  parser_inv p -> parser_inv (Html.handle_starttag p tag).
Proof.
  intros H. unfold Html.handle_starttag. cbv zeta.
  generalize (Html.lower tag). intros t.
  pose proof (set_tag_stack_inv p (Html.tag_stack p ++ [t]) H) as H1.
  set (q := Html.set_tag_stack p (Html.tag_stack p ++ [t])) in *.
  pose proof (current_style_ok q (proj1 (proj2 H1))) as Hc.
  pose proof H1 as (Hb & Hs & Hne & Hi & Hl).
  destruct (Html.mem t Html.IGNORED_TAGS).
  { repeat split; cbn; try assumption. cbn in Hi. lia. }
  destruct (negb (Html.in_ignored q =? 0)); [exact H1|].
  pose proof Hc as (Hh & Hi0 & Hd).
  destruct (Html.mem t ["strong"; "b"]%string).
  { apply push_style_inv; [exact H1|].
    cbn [Html.kwargs_get Html.kw_font_size Html.kw_bold Html.kw_italic
         Html.kw_is_heading Html.kw_heading_level Html.kw_indent].
    now apply style_ok_update. }
  destruct (Html.mem t ["em"; "i"]%string).
  { apply push_style_inv; [exact H1|].
    cbn [Html.kwargs_get Html.kw_font_size Html.kw_bold Html.kw_italic
         Html.kw_is_heading Html.kw_heading_level Html.kw_indent].
    now apply style_ok_update. }
  destruct (Html.mem t Html.HEADING_TAGS) eqn:Eh.
  { apply push_style_inv; [exact H1|].
    cbn [Html.kwargs_get Html.kw_font_size Html.kw_bold Html.kw_italic
         Html.kw_is_heading Html.kw_heading_level Html.kw_indent].
    apply style_ok_heading; [now apply mem_heading_tags|assumption..]. }
  destruct (Html.mem t ["ul"; "ol"]%string).
  { repeat split; cbn; try assumption. cbn in Hl. lia. }
  destruct (t =? "li")%string.
  { apply push_style_inv; [exact H1|].
    cbn [Html.kwargs_get Html.kw_font_size Html.kw_bold Html.kw_italic
         Html.kw_is_heading Html.kw_heading_level Html.kw_indent].
    apply style_ok_update; [assumption|tauto|lia|].
    exists (Html.in_list q). lia. }
  destruct (t =? "blockquote")%string.
  { apply push_style_inv; [exact H1|].
    cbn [Html.kwargs_get Html.kw_font_size Html.kw_bold Html.kw_italic
         Html.kw_is_heading Html.kw_heading_level Html.kw_indent].
    apply style_ok_update; [assumption|tauto|lia|].
    exists 1. reflexivity. }
  destruct (t =? "br")%string; [|exact H1].
  repeat split; assumption.
Qed.

Lemma handle_endtag_inv (p : Html.HTMLContentParser) (tag : string) :
  parser_inv p -> parser_inv (Html.handle_endtag p tag).
Proof.
  intros H. unfold Html.handle_endtag. cbv zeta.
  generalize (Html.lower tag). intros t.
  assert (H1 : parser_inv
    (if Str.nonempty (Html.tag_stack p)
        && (last (Html.tag_stack p) "" =? t)%string
     then Html.set_tag_stack p (removelast (Html.tag_stack p)) else p)).
  { destruct (_ && _); [now apply set_tag_stack_inv|exact H]. }
  set (q := if Str.nonempty (Html.tag_stack p)
               && (last (Html.tag_stack p) "" =? t)%string
            then _ else _) in *.
  destruct (Html.mem t Html.IGNORED_TAGS).
  { destruct H1 as (Hb & Hs & Hne & Hi & Hl).
    repeat split; cbn; try assumption. lia. }
  destruct (negb (Html.in_ignored q =? 0)); [exact H1|].
  destruct (t =? "p")%string; [now apply emit_block_inv|].
  destruct (Html.mem t Html.HEADING_TAGS);
    [now apply pop_style_inv, emit_block_inv|].
  destruct (t =? "li")%string; [now apply pop_style_inv, emit_block_inv|].
  destruct (t =? "blockquote")%string;
    [now apply pop_style_inv, emit_block_inv|].
  destruct (t =? "div")%string; [now apply emit_block_inv|].
  destruct (Html.mem t ["ul"; "ol"]%string).
  { destruct H1 as (Hb & Hs & Hne & Hi & Hl).
    repeat split; cbn; try assumption. lia. }
  destruct (Html.mem t ["strong"; "b"; "em"; "i"]%string);
    [now apply pop_style_inv|exact H1].
Qed.

Lemma handle_inv (p : Html.HTMLContentParser) (ev : Html.Event) :
  parser_inv p -> parser_inv (Html.handle p ev).
Proof.
  intros H. destruct ev as [tag|tag|data]; cbn [Html.handle].
  - now apply handle_starttag_inv.
  - now apply handle_endtag_inv.
  - unfold Html.handle_data. destruct (Html.in_ignored p =? 0); [|exact H].
    destruct H as (Hb & Hs & Hne & Hi & Hl). repeat split; assumption.
Qed.

Lemma feed_inv (evs : list Html.Event) (p : Html.HTMLContentParser) :
  parser_inv p -> parser_inv (Html.feed p evs).
Proof.
  revert p. induction evs as [|ev evs IH]; intros p H; [exact H|].
  apply IH, handle_inv, H.
Qed.

Lemma init_inv : parser_inv Html.init.
Proof.
  repeat split; cbn; try lia; try discriminate.
  - constructor.
  - constructor; [apply default_style_ok|constructor].
Qed.

(** X19.  [emit_block] replaces the regular-expression clean-up by the
    words of the text: it appends one block whose text is the words of
    [current_text] joined by single spaces, or nothing when the text has no
    word, and it empties [current_text]; the words of the new block are
    those of the raw text. *)
Theorem emit_block_joins_words (self : Html.HTMLContentParser) (ty : string) :
  Html.current_text (Html.emit_block self ty) = EmptyString
  /\ Html.style_stack (Html.emit_block self ty) = Html.style_stack self
  /\ (Str.split (Html.current_text self) = [] ->
      Html.blocks (Html.emit_block self ty) = Html.blocks self)
  /\ (Str.split (Html.current_text self) <> [] ->
      Html.blocks (Html.emit_block self ty)
      = Html.blocks self
        ++ [mkTextBlock (Str.join " " (Str.split (Html.current_text self)))
                        (Html.current_style self) ty]
      /\ Str.split (Str.join " " (Str.split (Html.current_text self)))
         = Str.split (Html.current_text self)).
Proof.
  split; [reflexivity|]. split; [reflexivity|].
  rewrite emit_block_blocks. split.
  - intros ->. apply app_nil_r.
  - intros Hne. split.
    + destruct (Str.split (Html.current_text self)); [contradiction|reflexivity].
    + apply split_join.
      * apply split_from_nonempty.
      * apply split_from_no_space. reflexivity.
Qed.

(** X20.  Whatever the document, every block the parser returns has a
    non-empty text in normal form (its words joined by single spaces) and a
    well-formed style: a heading style has a level from 1 to 6, is bold and
    has the size of [HEADING_SIZES], any other style has level 0 and size
    20, and the indent is a non-negative multiple of 20.  So the renderer
    finds a size for every parsed heading and never falls back to the base
    size. *)
Theorem parsed_blocks_well_formed (evs : list Html.Event) :
  Forall (fun b =>
            normalized (text b) /\ style_ok (style b)
            /\ forall self : TextRenderer,
                 is_heading (style b) = true ->
                 dict_get (heading_sizes self) (heading_level (style b))
                 <> None)
         (Html.parse evs).
Proof.
  unfold Html.parse. rewrite get_blocks_blocks.
  pose proof (emit_block_inv _ "paragraph" (feed_inv evs _ init_inv)) as (Hb & _).
  eapply Forall_impl; [|exact Hb].
  intros b [Hn Hs]. split; [exact Hn|]. split; [exact Hs|].
  intros self Hh. destruct Hs as (Hs & _). rewrite Hh in Hs.
  destruct Hs as (Hl & _). rewrite heading_sizes_lookup.
  unfold heading_multiplier.
  assert (E : heading_level (style b) = 1 \/ heading_level (style b) = 2
              \/ heading_level (style b) = 3 \/ heading_level (style b) = 4
              \/ heading_level (style b) = 5 \/ heading_level (style b) = 6)
    by lia.
  destruct E as [-> | [-> | [-> | [-> | [-> | ->]]]]]; discriminate.
Qed.

(** ** HTMLContentParser: ignored elements *)

(** Two parser states that differ at most in [tag_stack]. *)
Lemma get_blocks_ext (p q : Html.HTMLContentParser) :
  Html.blocks q = Html.blocks p ->
  Html.current_text q = Html.current_text p ->
  Html.style_stack q = Html.style_stack p ->
  Html.get_blocks q = Html.get_blocks p.
Proof.
  intros Hb Ht Hs. rewrite !get_blocks_blocks, !emit_block_blocks.
  unfold Html.current_style. now rewrite Hb, Ht, Hs.
Qed.

Lemma end_tag_pop_fields (p : Html.HTMLContentParser) (t : string) :
  let q := if Str.nonempty (Html.tag_stack p)
              && (last (Html.tag_stack p) "" =? t)%string
           then Html.set_tag_stack p (removelast (Html.tag_stack p)) else p in
  Html.blocks q = Html.blocks p
  /\ Html.current_text q = Html.current_text p
  /\ Html.style_stack q = Html.style_stack p
  /\ Html.in_ignored q = Html.in_ignored p
  /\ Html.in_list q = Html.in_list p.
Proof. cbv zeta. destruct (_ && _); repeat split. Qed.

Lemma handle_while_ignored (p : Html.HTMLContentParser) (ev : Html.Event) :
  1 <= Html.in_ignored p ->
  (forall tag, ev = Html.EndTag tag ->
               Html.mem (Html.lower tag) Html.IGNORED_TAGS = false) ->
  Html.blocks (Html.handle p ev) = Html.blocks p
  /\ Html.current_text (Html.handle p ev) = Html.current_text p
  /\ Html.style_stack (Html.handle p ev) = Html.style_stack p
  /\ 1 <= Html.in_ignored (Html.handle p ev).
Proof.
  intros Hi Hev. destruct ev as [tag|tag|data]; cbn [Html.handle].
  - unfold Html.handle_starttag. cbv zeta.
    destruct (Html.mem (Html.lower tag) Html.IGNORED_TAGS).
    + repeat split. cbn. lia.
    + cbn [Html.set_tag_stack Html.in_ignored].
      destruct (Z.eqb_spec (Html.in_ignored p) 0) as [E|E]; [lia|].
      cbn [negb]. repeat split. exact Hi.
  - unfold Html.handle_endtag. cbv zeta.
    rewrite (Hev tag eq_refl).
    destruct (end_tag_pop_fields p (Html.lower tag)) as (E1 & E2 & E3 & E4 & E5).
    cbv zeta in E1, E2, E3, E4, E5.
    set (q := if _ && _ then _ else _) in *.
    destruct (Z.eqb_spec (Html.in_ignored q) 0) as [E|E]; [lia|].
    cbn [negb]. repeat split; try assumption. lia.
  - unfold Html.handle_data.
    destruct (Z.eqb_spec (Html.in_ignored p) 0) as [E|E]; [lia|].
    repeat split. exact Hi.
Qed.

Lemma feed_while_ignored (evs : list Html.Event) (p : Html.HTMLContentParser) :
  1 <= Html.in_ignored p -> no_ignored_end evs ->
  Html.blocks (Html.feed p evs) = Html.blocks p
  /\ Html.current_text (Html.feed p evs) = Html.current_text p
  /\ Html.style_stack (Html.feed p evs) = Html.style_stack p.
Proof.
  revert p. induction evs as [|ev evs IH]; intros p Hi Hno; [repeat split|].
  cbn [Html.feed fold_left].
  destruct (handle_while_ignored p ev Hi) as (E1 & E2 & E3 & E4).
  { intros tag ->. apply Hno. now left. }
  destruct (IH (Html.handle p ev) E4) as (F1 & F2 & F3).
  { intros tag Hin. apply Hno. now right. }
  unfold Html.feed in F1, F2, F3.
  repeat split; congruence.
Qed.

Lemma feed_app (p : Html.HTMLContentParser) (a b : list Html.Event) :
  Html.feed p (a ++ b) = Html.feed (Html.feed p a) b.
Proof. apply fold_left_app. Qed.

(** X21.  After the start tag of an ignored element, everything up to the
    next end tag of an ignored element is dropped, tags included: the
    parser returns the blocks it would have returned for the document cut
    before that start tag.  An ignored element that is never closed, such
    as a [<meta>] or [<link>] written without its slash, hides the rest of
    the document. *)
Theorem ignored_content_dropped (pre evs : list Html.Event) (tag : string) :
  Html.mem (Html.lower tag) Html.IGNORED_TAGS = true ->
  no_ignored_end evs ->
  Html.parse (pre ++ Html.StartTag tag :: evs) = Html.parse pre.
Proof.
  intros Hm Hno. unfold Html.parse. rewrite feed_app.
  set (p := Html.feed Html.init pre).
  pose proof (feed_inv pre _ init_inv) as (_ & _ & _ & Hi & _). fold p in Hi.
  change (Html.feed p (Html.StartTag tag :: evs))
    with (Html.feed (Html.handle_starttag p tag) evs).
  assert (S : Html.blocks (Html.handle_starttag p tag) = Html.blocks p
              /\ Html.current_text (Html.handle_starttag p tag)
                 = Html.current_text p
              /\ Html.style_stack (Html.handle_starttag p tag)
                 = Html.style_stack p
              /\ 1 <= Html.in_ignored (Html.handle_starttag p tag)).
  { unfold Html.handle_starttag. cbv zeta. rewrite Hm.
    repeat split. cbn. lia. }
  destruct S as (S1 & S2 & S3 & S4).
  destruct (feed_while_ignored evs _ S4 Hno) as (F1 & F2 & F3).
  apply get_blocks_ext; congruence.
Qed.

Lemma ignored_content_dropped_witness :
  Html.parse ([Html.StartTag "p"; Html.Data "shown"; Html.EndTag "p"]
              ++ Html.StartTag "meta"
                 :: [Html.StartTag "p"; Html.Data "lost"; Html.EndTag "p"])
  = Html.parse [Html.StartTag "p"; Html.Data "shown"; Html.EndTag "p"].
Proof.
  apply (ignored_content_dropped
           [Html.StartTag "p"; Html.Data "shown"; Html.EndTag "p"]
           [Html.StartTag "p"; Html.Data "lost"; Html.EndTag "p"] "meta").
  - reflexivity.
  - intros tag [H|[H|[H|[]]]]; try discriminate.
    injection H as <-. reflexivity.
Defined.

(** ** HTMLContentParser: block elements with inline content *)

Lemma mem_inline_tags (t : string) :
  Html.mem t INLINE_TAGS = true -> In t INLINE_TAGS.
Proof.
  unfold Html.mem. rewrite existsb_exists.
  intros [x [Hin He]]. apply String.eqb_eq in He. now subst.
Qed.

Lemma last_snoc {A : Type} (l : list A) (x d : A) : last (l ++ [x]) d = x.
Proof. apply last_last. Qed.

Lemma handle_start_inline (p : Html.HTMLContentParser) (tag : string) :
  Html.mem (Html.lower tag) INLINE_TAGS = true ->
  Html.in_ignored p = 0 ->
  exists st,
    Html.style_stack (Html.handle_starttag p tag) = Html.style_stack p ++ [st]
    /\ Html.blocks (Html.handle_starttag p tag) = Html.blocks p
    /\ Html.current_text (Html.handle_starttag p tag) = Html.current_text p
    /\ Html.in_ignored (Html.handle_starttag p tag) = 0
    /\ Html.in_list (Html.handle_starttag p tag) = Html.in_list p.
Proof.
  intros Hm Hi. apply mem_inline_tags in Hm.
  unfold Html.handle_starttag. cbv zeta.
  destruct Hm as [<-|[<-|[<-|[<-|[]]]]];
    cbn [Html.mem existsb Html.IGNORED_TAGS orb];
    cbn [Html.set_tag_stack Html.in_ignored]; rewrite Hi;
    cbn; eexists; repeat split; assumption.
Qed.

Lemma pop_style_snoc (q : Html.HTMLContentParser) (ss : list TextStyle)
    (st : TextStyle) :
  Html.style_stack q = ss ++ [st] -> ss <> [] ->
  Html.style_stack (Html.pop_style q) = ss
  /\ Html.blocks (Html.pop_style q) = Html.blocks q
  /\ Html.current_text (Html.pop_style q) = Html.current_text q
  /\ Html.in_ignored (Html.pop_style q) = Html.in_ignored q
  /\ Html.in_list (Html.pop_style q) = Html.in_list q.
Proof.
  intros Hs Hne. unfold Html.pop_style. rewrite Hs.
  assert (E : (1 <? List.length (ss ++ [st]))%nat = true).
  { apply Nat.ltb_lt. rewrite length_app. cbn.
    destruct ss; [contradiction|cbn; lia]. }
  rewrite E. cbn. rewrite removelast_last. repeat split.
Qed.

Lemma handle_end_inline (q : Html.HTMLContentParser) (tag : string)
    (ss : list TextStyle) (st : TextStyle) :
  Html.mem (Html.lower tag) INLINE_TAGS = true ->
  Html.in_ignored q = 0 ->
  Html.style_stack q = ss ++ [st] -> ss <> [] ->
  Html.style_stack (Html.handle_endtag q tag) = ss
  /\ Html.blocks (Html.handle_endtag q tag) = Html.blocks q
  /\ Html.current_text (Html.handle_endtag q tag) = Html.current_text q
  /\ Html.in_ignored (Html.handle_endtag q tag) = 0
  /\ Html.in_list (Html.handle_endtag q tag) = Html.in_list q.
Proof.
  intros Hm Hi Hs Hne. apply mem_inline_tags in Hm.
  unfold Html.handle_endtag. cbv zeta.
  destruct (end_tag_pop_fields q (Html.lower tag)) as (E1 & E2 & E3 & E4 & E5).
  cbv zeta in E1, E2, E3, E4, E5.
  set (r := if _ && _ then _ else _) in *.
  assert (Hr : Html.style_stack r = ss ++ [st]) by congruence.
  destruct (pop_style_snoc r ss st Hr Hne) as (P1 & P2 & P3 & P4 & P5).
  assert (Hz : (Html.in_ignored r =? 0) = true) by (apply Z.eqb_eq; congruence).
  destruct Hm as [<-|[<-|[<-|[<-|[]]]]];
    cbn [Html.mem existsb Html.IGNORED_TAGS Html.HEADING_TAGS orb];
    rewrite Hz; cbn; repeat split; congruence.
Qed.

(** Inline content adds its text and leaves the rest of the state. *)
Lemma feed_inline (body : list Html.Event) :
  inline body ->
  forall p, Html.in_ignored p = 0 -> Html.style_stack p <> [] ->
  Html.blocks (Html.feed p body) = Html.blocks p
  /\ Html.current_text (Html.feed p body)
     = (Html.current_text p ++ data_of body)%string
  /\ Html.style_stack (Html.feed p body) = Html.style_stack p
  /\ Html.in_ignored (Html.feed p body) = 0
  /\ Html.in_list (Html.feed p body) = Html.in_list p.
Proof.
  induction 1 as [|data rest Hrest IHrest
                  |op cl body rest Hop Hcl Hbody IHbody Hrest IHrest];
    intros p Hi Hne.
  - cbn. rewrite append_nil_r. repeat split. exact Hi.
  - cbn [Html.feed fold_left Html.handle data_of].
    unfold Html.handle_data. rewrite Hi. cbn [Z.eqb].
    destruct (IHrest (Html.add_text p data) Hi Hne) as (F1 & F2 & F3 & F4 & F5).
    unfold Html.feed in F1, F2, F3, F4, F5.
    repeat split; try assumption.
    rewrite F2. cbn. apply append_assoc'.
  - change (Html.StartTag op :: body ++ Html.EndTag cl :: rest)
      with ([Html.StartTag op] ++ body ++ [Html.EndTag cl] ++ rest).
    rewrite !feed_app.
    change (Html.feed p [Html.StartTag op]) with (Html.handle_starttag p op).
    destruct (handle_start_inline p op Hop Hi) as (st & S1 & S2 & S3 & S4 & S5).
    set (p1 := Html.handle_starttag p op) in *.
    destruct (IHbody p1 S4) as (B1 & B2 & B3 & B4 & B5).
    { rewrite S1. destruct (Html.style_stack p); discriminate. }
    set (p2 := Html.feed p1 body) in *.
    change (Html.feed p2 [Html.EndTag cl]) with (Html.handle_endtag p2 cl).
    destruct (handle_end_inline p2 cl (Html.style_stack p) st Hcl B4)
      as (E1 & E2 & E3 & E4 & E5); [congruence|exact Hne|].
    set (p3 := Html.handle_endtag p2 cl) in *.
    destruct (IHrest p3 E4) as (R1 & R2 & R3 & R4 & R5); [congruence|].
    assert (Hd : data_of ([Html.StartTag op] ++ body ++ [Html.EndTag cl] ++ rest)
                 = (data_of body ++ data_of rest)%string).
    { cbn [app data_of]. clear. induction body as [|[t|t|d] body IH]; cbn.
      - reflexivity.
      - exact IH.
      - exact IH.
      - rewrite IH. symmetry. apply append_assoc'. }
    rewrite Hd. repeat split; try congruence.
    rewrite R2, E3, B2, S3. apply append_assoc'.
Qed.

Lemma element_style_tag (p : Html.HTMLContentParser) (tag : string)
    (st : TextStyle) (ty : string) :
  element_style p tag = Some (st, ty) ->
  In tag ["p"; "div"; "li"; "blockquote";
          "h1"; "h2"; "h3"; "h4"; "h5"; "h6"]%string.
Proof.
  unfold element_style. cbv zeta.
  destruct (String.eqb_spec tag "p") as [->|_]; [intros _; cbn; tauto|].
  destruct (String.eqb_spec tag "div") as [->|_]; [intros _; cbn; tauto|].
  cbn [orb].
  destruct (String.eqb_spec tag "li") as [->|_]; [intros _; cbn; tauto|].
  destruct (String.eqb_spec tag "blockquote") as [->|_];
    [intros _; cbn; tauto|].
  cbn [find heading_elements fst].
  repeat match goal with
         | |- context [String.eqb ?a tag] =>
             destruct (String.eqb_spec a tag) as [<-|_]; [intros _; cbn; tauto|]
         end.
  discriminate.
Qed.

Ltac eval_tag_tests :=
  repeat match goal with
         | |- context [Html.lower ?a] =>
             let v := eval vm_compute in (Html.lower a) in
             change (Html.lower a) with v
         end;
  repeat match goal with
         | |- context [Html.mem ?a ?l] =>
             let v := eval vm_compute in (Html.mem a l) in
             change (Html.mem a l) with v
         | |- context [String.eqb ?a ?b] =>
             let v := eval vm_compute in (String.eqb a b) in
             change (String.eqb a b) with v
         end;
  cbv iota.

(** The start tag of a block element: [p] and [div] leave the state,
    the others push their style. *)
Lemma handle_start_block (p : Html.HTMLContentParser) (tag : string)
    (st : TextStyle) (ty : string) :
  Html.in_ignored p = 0 ->
  element_style p tag = Some (st, ty) ->
  Html.blocks (Html.handle_starttag p tag) = Html.blocks p
  /\ Html.current_text (Html.handle_starttag p tag) = Html.current_text p
  /\ Html.in_ignored (Html.handle_starttag p tag) = 0
  /\ Html.in_list (Html.handle_starttag p tag) = Html.in_list p
  /\ last (Html.style_stack (Html.handle_starttag p tag)) Html.default_style = st
  /\ Html.style_stack (Html.handle_starttag p tag)
     = if Html.mem tag ["p"; "div"]%string then Html.style_stack p
       else Html.style_stack p ++ [st].
Proof.
  intros Hi He. pose proof (element_style_tag p tag st ty He) as Hin.
  assert (Hz : (Html.in_ignored p =? 0) = true) by (now apply Z.eqb_eq).
  unfold Html.handle_starttag. cbv zeta.
  cbn [Html.set_tag_stack Html.in_ignored].
  repeat (destruct Hin as [<-|Hin];
          [eval_tag_tests; rewrite Hz; cbn [negb]; cbv iota;
           vm_compute in He; injection He as <- <-;
           unfold Html.push_style; cbv zeta;
           cbn [Html.blocks Html.current_text Html.in_ignored Html.in_list
                Html.style_stack Html.kwargs_get Html.kw_font_size
                Html.kw_bold Html.kw_italic Html.kw_is_heading
                Html.kw_heading_level Html.kw_indent];
           rewrite ?last_snoc;
           repeat split; try assumption; reflexivity|]).
  destruct Hin.
Qed.

(** The end tag of a block element emits the block and, except for [p]
    and [div], pops the style. *)
Lemma handle_end_block (p0 q : Html.HTMLContentParser) (tag : string)
    (st0 : TextStyle) (ty : string) :
  Html.in_ignored q = 0 ->
  element_style p0 tag = Some (st0, ty) ->
  Html.blocks (Html.handle_endtag q tag)
  = Html.blocks q
    ++ match Str.split (Html.current_text q) with
       | [] => []
       | ws => [mkTextBlock (Str.join " " ws) (Html.current_style q) ty]
       end
  /\ Html.current_text (Html.handle_endtag q tag) = EmptyString
  /\ Html.in_ignored (Html.handle_endtag q tag) = 0
  /\ Html.in_list (Html.handle_endtag q tag) = Html.in_list q
  /\ Html.style_stack (Html.handle_endtag q tag)
     = if Html.mem tag ["p"; "div"]%string then Html.style_stack q
       else if (1 <? List.length (Html.style_stack q))%nat
            then removelast (Html.style_stack q)
            else Html.style_stack q.
Proof.
  intros Hi He. pose proof (element_style_tag p0 tag st0 ty He) as Hin.
  unfold Html.handle_endtag. cbv zeta.
  destruct (end_tag_pop_fields q (Html.lower tag)) as (E1 & E2 & E3 & E4 & E5).
  cbv zeta in E1, E2, E3, E4, E5.
  set (r := if _ && _ then _ else _) in *.
  assert (Hz : (Html.in_ignored r =? 0) = true) by (apply Z.eqb_eq; congruence).
  assert (Hc : Html.current_style r = Html.current_style q)
    by (unfold Html.current_style; congruence).
  pose proof (emit_block_blocks r) as B.
  rewrite E1, E2, Hc in B.
  assert (P : forall ty',
    Html.blocks (Html.pop_style (Html.emit_block r ty'))
    = Html.blocks (Html.emit_block r ty')
    /\ Html.current_text (Html.pop_style (Html.emit_block r ty')) = EmptyString
    /\ Html.in_ignored (Html.pop_style (Html.emit_block r ty')) = 0
    /\ Html.in_list (Html.pop_style (Html.emit_block r ty')) = Html.in_list q
    /\ Html.style_stack (Html.pop_style (Html.emit_block r ty'))
       = if (1 <? List.length (Html.style_stack q))%nat
         then removelast (Html.style_stack q) else Html.style_stack q).
  { intros ty'. unfold Html.pop_style.
    cbn [Html.emit_block Html.style_stack]. rewrite E3.
    destruct (1 <? List.length (Html.style_stack q))%nat;
      cbn; repeat split; congruence. }
  repeat (destruct Hin as [<-|Hin];
          [clearbody r; eval_tag_tests; rewrite Hz; cbn [negb]; cbv iota;
           vm_compute in He; injection He as _ <-;
           first
             [ rewrite <- B; repeat split; cbn; congruence
             | match goal with
               | |- context [Html.emit_block r ?t] =>
                   let v := eval vm_compute in t in
                   change t with v;
                   destruct (P v) as (P1 & P2 & P3 & P4 & P5)
               end;
               rewrite <- B, <- P1; repeat split; assumption ]|]).
  destruct Hin.
Qed.

(** X22.  A block element with inline content, met outside ignored
    elements, gives one block: its text is the words of the pending text
    and of the element's text joined by single spaces, its type and style
    are those of the block tag.  Bold and italic elements inside it do not
    change the style of the block, their styles being popped before the
    block is emitted.  Afterwards the pending text is empty and the style
    stack is as before. *)
Theorem block_element_emits (pre body : list Html.Event) (tag : string)
    (st : TextStyle) (ty : string) :
  Html.in_ignored (Html.feed Html.init pre) = 0 ->
  element_style (Html.feed Html.init pre) tag = Some (st, ty) ->
  inline body ->
  let p := Html.feed Html.init pre in
  let q := Html.feed p (Html.StartTag tag :: body ++ [Html.EndTag tag]) in
  Html.blocks q
  = Html.blocks p
    ++ match Str.split (Html.current_text p ++ data_of body) with
       | [] => []
       | ws => [mkTextBlock (Str.join " " ws) st ty]
       end
  /\ Html.current_text q = EmptyString
  /\ Html.style_stack q = Html.style_stack p
  /\ Html.in_ignored q = 0
  /\ Html.in_list q = Html.in_list p.
Proof.
  intros Hi He Hbody p q. subst q. fold p in Hi, He.
  pose proof (feed_inv pre _ init_inv) as (_ & _ & Hne & _). fold p in Hne.
  change (Html.StartTag tag :: body ++ [Html.EndTag tag])
    with ([Html.StartTag tag] ++ body ++ [Html.EndTag tag]).
  rewrite !feed_app.
  change (Html.feed p [Html.StartTag tag]) with (Html.handle_starttag p tag).
  destruct (handle_start_block p tag st ty Hi He) as (S1 & S2 & S3 & S4 & S5 & S6).
  set (p1 := Html.handle_starttag p tag) in *.
  destruct (feed_inline body Hbody p1 S3) as (B1 & B2 & B3 & B4 & B5).
  { rewrite S6. destruct (Html.mem tag ["p"; "div"]%string); [exact Hne|].
    destruct (Html.style_stack p); discriminate. }
  set (p2 := Html.feed p1 body) in *.
  change (Html.feed p2 [Html.EndTag tag]) with (Html.handle_endtag p2 tag).
  destruct (handle_end_block p p2 tag st ty B4 He) as (E1 & E2 & E3 & E4 & E5).
  assert (Hc : Html.current_style p2 = st)
    by (unfold Html.current_style; congruence).
  rewrite E1, B1, S1, B2, S2, Hc.
  repeat split; try congruence.
  rewrite E5, B3, S6.
  destruct (Html.mem tag ["p"; "div"]%string); [reflexivity|].
  assert (E : (1 <? List.length (Html.style_stack p ++ [st]))%nat = true).
  { apply Nat.ltb_lt. rewrite length_app. cbn.
    destruct (Html.style_stack p); [contradiction|cbn; lia]. }
  rewrite E. apply removelast_last.
Qed.

Lemma block_element_emits_witness :
  let body := [Html.Data "A "; Html.StartTag "em"; Html.Data "long";
               Html.EndTag "em"; Html.Data "  title "] in
  let q := Html.feed (Html.feed Html.init [])
             (Html.StartTag "h1" :: body ++ [Html.EndTag "h1"]) in
  Html.blocks q
  = Html.blocks (Html.feed Html.init [])
    ++ match Str.split (Html.current_text (Html.feed Html.init [])
                        ++ data_of body) with
       | [] => []
       | ws => [mkTextBlock (Str.join " " ws)
                            (mkTextStyle 32 true false true 1 0) "heading1"]
       end
  /\ Html.current_text q = EmptyString
  /\ Html.style_stack q = Html.style_stack (Html.feed Html.init [])
  /\ Html.in_ignored q = 0
  /\ Html.in_list q = Html.in_list (Html.feed Html.init []).
Proof.
  intros body.
  apply (block_element_emits [] body "h1"
           (mkTextStyle 32 true false true 1 0) "heading1").
  - reflexivity.
  - reflexivity.
  - unfold body.
    apply inline_data.
    apply (inline_elem "em" "em" [Html.Data "long"] [Html.Data "  title "]).
    + reflexivity.
    + reflexivity.
    + apply inline_data, inline_nil.
    + apply inline_data, inline_nil.
Defined.

(** ** The conversion: encoded pages and the file *)

Lemma blob_dims (mark w h ds : Z) (data : list byte) :
  0 <= w < 2 ^ 16 -> 0 <= h < 2 ^ 16 ->
  blob_width (page_header mark w h ds ++ data) = w
  /\ blob_height (page_header mark w h ds ++ data) = h.
Proof.
  intros Hw Hh. unfold blob_width, blob_height, read_le.
  rewrite !slice_app_l by (rewrite page_header_length; cbn; lia).
  split.
  - change (slice (page_header mark w h ds) 4 (4 + 2)) with (le_split 2 w).
    now apply le_combine_le_split_small.
  - change (slice (page_header mark w h ds) 6 (6 + 2)) with (le_split 2 h).
    now apply le_combine_le_split_small.
Qed.

Section ConvertFacts.

Variable getbbox : Font -> string -> Z * Z * Z * Z.
Variable draw_text : list DrawOp -> Z -> Z -> Z.

(** Every page of the display size encodes, to a blob of the size of its
    format that carries the display dimensions. *)
Lemma encode_display_page (self : TextRenderer) (bs : list TextBlock)
    (page_number : Z) (total : option Z) (output_format : string) :
  exists blob,
    (if (output_format =? "xtch")%string
     then encode_xth_page
            (render_page_image getbbox draw_text self bs page_number total)
     else encode_xtg_page
            (render_page_image getbbox draw_text self bs page_number total))
    = Ok blob
    /\ Z.of_nat (List.length blob) = encoded_page_size output_format
    /\ blob_width blob = 480 /\ blob_height blob = 800.
Proof.
  set (im := render_page_image getbbox draw_text self bs page_number total).
  assert (Hw : width im = 480) by reflexivity.
  assert (Hh : height im = 800) by reflexivity.
  unfold encoded_page_size.
  destruct (output_format =? "xtch")%string.
  - rewrite encode_xth_page_data by (rewrite ?Hw, ?Hh; lia).
    eexists. split; [reflexivity|].
    rewrite !length_app, page_header_length, !Nat2Z.inj_add.
    rewrite !xth_plane_length by (rewrite ?Hw, ?Hh; lia).
    rewrite Hw, Hh. split; [reflexivity|].
    apply blob_dims; cbn; lia.
  - rewrite encode_xtg_page_data by (rewrite ?Hw, ?Hh; (reflexivity || lia)).
    eexists. split; [reflexivity|].
    rewrite !length_app, page_header_length, !Nat2Z.inj_add.
    rewrite xtg_data_length by (rewrite ?Hw, ?Hh; lia).
    rewrite Hw, Hh. split; [reflexivity|].
    apply blob_dims; cbn; lia.
Qed.

(** The page loop succeeds with one blob per page. *)
Lemma encode_loop (self : TextRenderer) (output_format : string) (total : Z)
    (ps : list PageContent) (acc : list (list byte)) :
  Forall (fun blob =>
            Z.of_nat (List.length blob) = encoded_page_size output_format
            /\ blob_width blob = 480 /\ blob_height blob = 800) acc ->
  exists blobs,
    fold_left (encode_step getbbox draw_text self output_format total) ps (Ok acc)
    = Ok blobs
    /\ List.length blobs = (List.length acc + List.length ps)%nat
    /\ Forall (fun blob =>
                 Z.of_nat (List.length blob) = encoded_page_size output_format
                 /\ blob_width blob = 480 /\ blob_height blob = 800) blobs.
Proof.
  revert acc. induction ps as [|p ps IH]; intros acc Hacc.
  - exists acc. cbn. repeat split; [lia|exact Hacc].
  - cbn [fold_left].
    destruct (encode_display_page self (blocks p) (page_number p) (Some total)
                output_format) as (blob & Hb & Hprops).
    assert (E : encode_step getbbox draw_text self output_format total (Ok acc) p
                = Ok (acc ++ [blob])).
    { unfold encode_step. cbn [bind]. cbv zeta. rewrite Hb. reflexivity. }
    rewrite E.
    destruct (IH (acc ++ [blob])) as (blobs & Hf & Hl & Hall).
    { apply Forall_app. split; [exact Hacc|]. constructor; [exact Hprops|constructor]. }
    exists blobs. split; [exact Hf|]. split; [|exact Hall].
    rewrite Hl, length_app. cbn. lia.
Qed.

Lemma uniform_size_before (blobs : list (list byte)) (m : Z) (i : nat) :
  Forall (fun blob => Z.of_nat (List.length blob) = m) blobs ->
  (i <= List.length blobs)%nat ->
  size_before blobs i = Z.of_nat i * m.
Proof.
  intros Hall. revert i. unfold size_before.
  induction Hall as [|b bs Hb _ IH]; intros i Hi.
  - cbn in Hi. assert (i = 0%nat) by lia. subst. reflexivity.
  - destruct i as [|i]; [reflexivity|].
    cbn [firstn List.concat]. rewrite length_app, Nat2Z.inj_add, IH, Hb
      by (cbn in Hi; lia).
    lia.
Qed.

Lemma paginate_pages_le_blocks (self : Paginator) (bs : list TextBlock) :
  (List.length (pages (paginate getbbox self bs)) <= List.length bs)%nat.
Proof.
  pose proof (finish_breaks _ (run_breaks getbbox self bs)) as Hb.
  destruct (finish_layout getbbox self _ (run_layout getbbox self bs)) as [Hok _].
  assert (Hne : Forall (fun p => blocks p <> [])
                  (pages (paginate getbbox self bs))).
  { eapply Forall_impl; [|exact Hok]. intros p [H _]. exact H. }
  pose proof (pages_count_bounds _ Hb Hne) as HB.
  unfold paginate in HB. rewrite finish_pages, run_flow in HB.
  unfold paginate. lia.
Qed.

(** X23.  A book of at most 65535 pages always converts, and the size and
    layout of the output depend on the page count [n] and the format only:
    every page is encoded to 48022 bytes (xtc) or 96022 bytes (xtch), the
    file has 184 + n * (16 + page size) bytes, and the table entry of page
    [i] gives the offset 184 + 16 n + i * page size, that size and the
    dimensions 480 by 800.  The statistics report [n] pages. *)
Theorem convert_output_layout (content_blocks : list TextBlock)
    (metadata : BookMetadata) (font_family : FontFamily)
    (output_format : string) (font_size : Z) :
  let result :=
    paginate getbbox (Paginator_init (mkTextRenderer font_family font_size))
             content_blocks in
  let n := total_pages result in
  let sz := encoded_page_size output_format in
  n <= 65535 ->
  exists file,
    convert_epub_to_xtc getbbox draw_text content_blocks metadata font_family
                        output_format font_size
    = Ok (file, (n, Z.of_nat (List.length (chapters result))))
    /\ Z.of_nat (List.length file) = 184 + n * (16 + sz)
    /\ hdr_page_count file = n
    /\ forall i, (Z.of_nat i < n) ->
         entry_offset file i = 184 + 16 * n + Z.of_nat i * sz
         /\ entry_size file i = sz
         /\ entry_width file i = 480
         /\ entry_height file i = 800.
Proof.
  intros result n sz Hn.
  unfold convert_epub_to_xtc. cbv zeta. fold result.
  destruct (encode_loop (mkTextRenderer font_family font_size) output_format
              (total_pages result) (pages result) [] (Forall_nil _))
    as (blobs & Hf & Hl & Hall).
  rewrite Hf. cbn [bind].
  assert (Hlen : Z.of_nat (List.length blobs) = n).
  { rewrite Hl. reflexivity. }
  assert (Hsz : Forall (fun blob => Z.of_nat (List.length blob) = sz) blobs).
  { eapply Forall_impl; [|exact Hall]. intros b (H & _). exact H. }
  assert (Hszpos : 48022 <= sz <= 96022).
  { unfold sz, encoded_page_size. destruct (output_format =? "xtch")%string; lia. }
  assert (Hw : writable blobs).
  { split; [lia|]. eapply Forall_impl; [|exact Hsz].
    intros b Hb. cbv beta in Hb. split; [lia|].
    change (2 ^ 32) with 4294967296. lia. }
  destruct (write_xtc_container_succeeds blobs
              (map (fun cm => mkChapterInfo (title cm) (start_page cm) (end_page cm))
                   (chapters result))
              (mkBookMetadata (md_title metadata) (author metadata))
              (output_format =? "xtch")%string Hw) as (file & Hfile).
  rewrite Hfile. exists file. split; [reflexivity|].
  apply write_xtc_container_inv in Hfile. cbv zeta in Hfile.
  destruct Hfile as (Hok & Rn & Rd & ->). rewrite Hlen in *.
  set (mark := if (output_format =? "xtch")%string
               then Config.XTCH_MARK else Config.XTC_MARK).
  split; [|split].
  - rewrite !length_app, container_header_length, title_field_length,
      table_entries_length.
    rewrite (concat_uniform_length blobs (Z.to_nat sz)).
    + nia.
    + eapply Forall_impl; [|exact Hsz]. intros b Hb. cbv beta in Hb. lia.
  - unfold hdr_page_count, read_le.
    destruct (container_header_fields mark n
                (title_field (mkBookMetadata (md_title metadata) (author metadata))
                 ++ table_entries (184 + 16 * n) blobs ++ List.concat blobs))
      as (E & _).
    change (6 + 2)%nat with 8%nat. rewrite E.
    apply le_combine_le_split_small. exact Rn.
  - intros i Hi.
    assert (Hi' : (i < List.length blobs)%nat) by lia.
    destruct (nth_error blobs i) as [blob|] eqn:Eb;
      [|apply nth_error_None in Eb; lia].
    destruct (container_entry_offset_size (container_header mark n)
                (title_field (mkBookMetadata (md_title metadata) (author metadata)))
                blobs (184 + 16 * n) i blob
                (container_header_length mark n) (title_field_length _)
                Eb Hok) as (Eo & Es & Ew & Eh).
    rewrite Eo, Es, Ew, Eh.
    rewrite (uniform_size_before blobs sz i Hsz) by lia.
    apply nth_error_In in Eb.
    rewrite Forall_forall in Hall. destruct (Hall blob Eb) as (H1 & H2 & H3).
    repeat split; assumption.
Qed.

End ConvertFacts.

Lemma convert_output_layout_witness :
  exists file,
    convert_epub_to_xtc Sample.getbbox (fun _ _ _ => 255)
      [Sample.paragraph "x"] (mkBookMetadata "Sample" "") Sample.family
      "xtc" 34
    = Ok (file, (1, 0))
    /\ Z.of_nat (List.length file) = 184 + 1 * (16 + 48022).
Proof.
  destruct (convert_output_layout Sample.getbbox (fun _ _ _ => 255)
              [Sample.paragraph "x"] (mkBookMetadata "Sample" "") Sample.family
              "xtc" 34) as (file & H1 & H2 & _).
  - vm_compute. discriminate.
  - exists file. split; [exact H1|exact H2].
Defined.
